(** * Token price resolution (app/assets/model.py)

    A shallow embedding of the [Token] model of the Magma dapp API: the
    three price passes (screener, oracle, router), the lookup entry point
    [find], the chain resolver [from_chain] and the catalog ingestion
    [from_tokenlists], over an explicit store, an explicit record of the
    upstream services and a trace of the calls made to them.

    Python values are kept dynamically typed ([pyval]); Python floats are
    IEEE binary64 numbers, represented by the standard library's
    [spec_float] at precision 53. *)

From Stdlib Require Import ZArith Bool List Ascii String DecimalString.
From Stdlib Require Import Floats.SpecFloat Floats.PrimFloat Floats.FloatOps.
From Stdlib Require Import Decimal DecimalPos.
From stdpp Require Import base option list gmap strings.

Local Open Scope string_scope.
Local Open Scope Z_scope.

#[local] Set Warnings "-register-all".

(** ** Python values *)

(** A Python [float]: binary64, [prec = 53], [emax = 1024]. *)
Definition float64 : Type := spec_float.

Definition f_zero : float64 := S754_zero false.
(** [1.0] is [2^52 * 2^-52]. *)
Definition f_one : float64 := S754_finite false 4503599627370496 (-52).

(** The values that flow through the module: what [json()] decodes
    (None, bool, int, float, str, list, dict) and what the code computes.
    A dict keeps its insertion order (the oracle pass takes the first
    item), so it is an association list; keys of a decoded object are
    distinct. *)
Inductive pyval : Type :=
| PNone
| PBool (b : bool)
| PInt (n : Z)
| PFloat (f : float64)
| PStr (s : string)
| PList (l : list pyval)
| PDict (d : list (string * pyval)).

(** The exception classes the module can meet.  The handlers of the
    source only tell [HTTPError], [JSONDecodeError] and
    [ContractLogicError] (and, in the ingestion loop, [Exception], which
    every class below derives from) apart. *)
Inductive exn : Type :=
| HTTPError | JSONDecodeError | ConnectionError | Timeout
| ContractLogicError | ChainCallError | EncodingError
| KeyError | IndexError | ValueError | TypeError | AttributeError
| OverflowError | ZeroDivisionError | RecursionError.

Inductive res (A : Type) : Type :=
| Ok (a : A)
| Raise (e : exn).
Arguments Ok {A} a.
Arguments Raise {A} e.

(** ** Strings *)

Definition code (c : ascii) : Z := Z.of_N (N_of_ascii c).

Definition lower_ascii (c : ascii) : ascii :=
  if (65 <=? code c) && (code c <=? 90)
  then ascii_of_N (N_of_ascii c + 32) else c.

(** [str.lower()] on ASCII text (addresses are hexadecimal literals). *)
Fixpoint lower (s : string) : string :=
  match s with
  | EmptyString => EmptyString
  | String c s' => String (lower_ascii c) (lower s')
  end.

(** [s.replace(",", "")]. *)
Fixpoint strip_commas (s : string) : string :=
  match s with
  | EmptyString => EmptyString
  | String c s' =>
      if Ascii.eqb c ","%char then strip_commas s' else String c (strip_commas s')
  end.

Fixpoint is_prefix (p s : string) : bool :=
  match p, s with
  | EmptyString, _ => true
  | String a p', String b s' => Ascii.eqb a b && is_prefix p' s'
  | String _ _, EmptyString => false
  end.

(** [p in s] for two strings. *)
Fixpoint is_substring (p s : string) : bool :=
  is_prefix p s ||
  match s with
  | EmptyString => false
  | String _ s' => is_substring p s'
  end.

(** [str(n)] for an int. *)
Definition str_of_int (n : Z) : string := NilZero.string_of_int (Z.to_int n).

(** ** [float(s)] and [int(s)] for a string

    A text is kept as its UTF-8 encoding.  Before they parse, [float]
    and [int] put the text in ASCII form: a character below 127 stays, a
    Unicode white space becomes a blank, a Unicode decimal digit becomes
    the ASCII digit of its value, and any other character becomes ["?"]
    and ends the text, which no numeral survives.  Then CPython strips
    the ASCII white space (blank, tab, line feed, vertical tab, form
    feed, carriage return; not the separators 28 to 31), checks that
    every underscore sits between two digits, and reads an optional sign
    followed, for [float], by [inf], [infinity], [nan] (in any case) or
    a decimal numeral with optional fraction and exponent; the numeral
    is rounded to the nearest binary64 value, ties to even, and
    overflows to infinity.  Any other text is a [ValueError] ([None]
    here). *)

(** A continuation byte of UTF-8 and the six bits it carries. *)
Definition continuation (c : ascii) : option Z :=
  let n := code c in
  if (128 <=? n) && (n <? 192) then Some (n - 128) else None.

(** The code points of a text; a byte that starts no character of
    UTF-8 counts as the code point -1, which is no character. *)
Fixpoint code_points (l : list ascii) : list Z :=
  match l with
  | [] => []
  | b0 :: l1 =>
      let n0 := code b0 in
      if n0 <? 128 then n0 :: code_points l1
      else
        match l1 with
        | b1 :: l2 =>
            match continuation b1 with
            | Some c1 =>
                if (192 <=? n0) && (n0 <? 224)
                then ((n0 - 192) * 64 + c1) :: code_points l2
                else
                  match l2 with
                  | b2 :: l3 =>
                      match continuation b2 with
                      | Some c2 =>
                          if (224 <=? n0) && (n0 <? 240)
                          then ((n0 - 224) * 4096 + c1 * 64 + c2)
                                 :: code_points l3
                          else
                            match l3 with
                            | b3 :: l4 =>
                                match continuation b3 with
                                | Some c3 =>
                                    if (240 <=? n0) && (n0 <? 248)
                                    then ((n0 - 240) * 262144 + c1 * 4096
                                          + c2 * 64 + c3) :: code_points l4
                                    else (-1) :: code_points l1
                                | None => (-1) :: code_points l1
                                end
                            | [] => (-1) :: code_points l1
                            end
                      | None => (-1) :: code_points l1
                      end
                  | [] => (-1) :: code_points l1
                  end
            | None => (-1) :: code_points l1
            end
        | [] => [-1]
        end
  end.

(** The white space of Unicode from 127 on ([str.isspace]). *)
Definition unicode_space (c : Z) : bool :=
  (c =? 133) || (c =? 160) || (c =? 5760) ||
  ((8192 <=? c) && (c <=? 8202)) || (c =? 8232) || (c =? 8233) ||
  (c =? 8239) || (c =? 8287) || (c =? 12288).

(** The decimal digits of Unicode 14 beyond ASCII ([str.isdecimal]):
    runs that start at a digit zero, given by first code point and
    length. *)
Definition decimal_runs : list (Z * Z) :=
  [(1632, 10); (1776, 10); (1984, 10); (2406, 10); (2534, 10); (2662, 10);
   (2790, 10); (2918, 10); (3046, 10); (3174, 10); (3302, 10); (3430, 10);
   (3558, 10); (3664, 10); (3792, 10); (3872, 10); (4160, 10); (4240, 10);
   (6112, 10); (6160, 10); (6470, 10); (6608, 10); (6784, 10); (6800, 10);
   (6992, 10); (7088, 10); (7232, 10); (7248, 10); (42528, 10);
   (43216, 10); (43264, 10); (43472, 10); (43504, 10); (43600, 10);
   (44016, 10); (65296, 10); (66720, 10); (68912, 10); (69734, 10);
   (69872, 10); (69942, 10); (70096, 10); (70384, 10); (70736, 10);
   (70864, 10); (71248, 10); (71360, 10); (71472, 10); (71904, 10);
   (72016, 10); (72784, 10); (73040, 10); (73120, 10); (92768, 10);
   (92864, 10); (93008, 10); (120782, 50); (123200, 10); (123632, 10);
   (125264, 10); (130032, 10)].

Definition unicode_decimal (c : Z) : option Z :=
  match List.find (fun r => (fst r <=? c) && (c <? fst r + snd r))
                  decimal_runs with
  | Some r => Some ((c - fst r) mod 10)
  | None => None
  end.

Definition ascii_of_code (n : Z) : ascii := ascii_of_N (Z.to_N n).

Fixpoint ascii_form (cps : list Z) : list ascii :=
  match cps with
  | [] => []
  | c :: rest =>
      if (0 <=? c) && (c <? 127) then ascii_of_code c :: ascii_form rest
      else if unicode_space c then " "%char :: ascii_form rest
      else match unicode_decimal c with
           | Some d => ascii_of_code (48 + d) :: ascii_form rest
           | None => ["?"%char]
           end
  end.

(** The text as [float] and [int] read it. *)
Definition ascii_text (s : string) : list ascii :=
  ascii_form (code_points (list_ascii_of_string s)).

Definition is_space (c : ascii) : bool :=
  let n := code c in
  (n =? 32) || ((9 <=? n) && (n <=? 13)).

Definition digit_of (c : ascii) : option Z :=
  let n := code c in
  if (48 <=? n) && (n <=? 57) then Some (n - 48) else None.

(** The digits that follow a first digit: each is a digit, or an
    underscore with a digit right behind it.  [acc] is the number read
    so far and [cnt] how many digits it has. *)
Fixpoint digit_run (acc : Z) (cnt : Z) (l : list ascii) : Z * Z * list ascii :=
  match l with
  | c :: l' =>
      match digit_of c with
      | Some d => digit_run (10 * acc + d) (cnt + 1) l'
      | None =>
          if Ascii.eqb c "_"%char then
            match l' with
            | c' :: l'' =>
                match digit_of c' with
                | Some d => digit_run (10 * acc + d) (cnt + 1) l''
                | None => (acc, cnt, l)
                end
            | [] => (acc, cnt, l)
            end
          else (acc, cnt, l)
      end
  | [] => (acc, cnt, [])
  end.

Definition digit_part (acc cnt : Z) (l : list ascii) : option (Z * Z * list ascii) :=
  match l with
  | c :: l' =>
      match digit_of c with
      | Some d => Some (digit_run (10 * acc + d) (cnt + 1) l')
      | None => None
      end
  | [] => None
  end.

Definition read_sign (l : list ascii) : bool * list ascii :=
  match l with
  | c :: l' =>
      if Ascii.eqb c "-"%char then (true, l')
      else if Ascii.eqb c "+"%char then (false, l') else (false, l)
  | [] => (false, [])
  end.

(** The unrounded operand [n] of a division. *)
Definition exact_of_Z (n : Z) : float64 :=
  match n with
  | Z0 => S754_zero false
  | Zpos p => S754_finite false p 0
  | Zneg p => S754_finite true p 0
  end.

(** The binary64 value nearest to [(-1)^neg * m * 10^e], for [0 <= m]. *)
Definition round_decimal (neg : bool) (m e : Z) : float64 :=
  match m with
  | Zpos p =>
      if 0 <=? e
      then binary_normalize prec emax (cond_Zopp neg (m * 10 ^ e)) 0 false
      else SFdiv prec emax (S754_finite neg p 0) (exact_of_Z (10 ^ (- e)))
  | _ => S754_zero neg
  end.

(** The exponent part, if any; the text must end after it. *)
Definition read_exponent (l : list ascii) : option Z :=
  match l with
  | [] => Some 0
  | c :: l' =>
      if Ascii.eqb c "e"%char || Ascii.eqb c "E"%char then
        let '(neg, l'') := read_sign l' in
        match digit_part 0 0 l'' with
        | Some (x, _, []) => Some (cond_Zopp neg x)
        | _ => None
        end
      else None
  end.

Definition read_numeral (neg : bool) (l : list ascii) : option float64 :=
  match digit_part 0 0 l with
  | Some (m, _, rest) =>
      match rest with
      | c :: rest' =>
          if Ascii.eqb c "."%char then
            match digit_part m 0 rest' with
            | Some (m', k, rest'') =>
                x ← read_exponent rest''; Some (round_decimal neg m' (x - k))
            | None => x ← read_exponent rest'; Some (round_decimal neg m x)
            end
          else x ← read_exponent rest; Some (round_decimal neg m x)
      | [] => Some (round_decimal neg m 0)
      end
  | None =>
      match l with
      | c :: rest' =>
          if Ascii.eqb c "."%char then
            match digit_part 0 0 rest' with
            | Some (m', k, rest'') =>
                x ← read_exponent rest''; Some (round_decimal neg m' (x - k))
            | None => None
            end
          else None
      | [] => None
      end
  end.

Definition strip (l : list ascii) : list ascii :=
  let drop := fix drop (l : list ascii) : list ascii :=
    match l with
    | c :: l' => if is_space c then drop l' else l
    | [] => []
    end in
  rev (drop (rev (drop l))).

Definition float_of_string (s : string) : option float64 :=
  let '(neg, l) := read_sign (strip (ascii_text s)) in
  let word := string_of_list_ascii (List.map lower_ascii l) in
  if String.eqb word "inf" || String.eqb word "infinity"
  then Some (S754_infinity neg)
  else if String.eqb word "nan" then Some S754_nan
  else read_numeral neg l.

(** ** Operations on Python values *)

Definition float_is_zero (f : float64) : bool :=
  match f with S754_zero _ => true | _ => false end.

(** [f == n] for a float and an int: Python compares the exact values. *)
Definition float_eq_int (f : float64) (n : Z) : bool :=
  match f with
  | S754_zero _ => n =? 0
  | S754_finite s m e =>
      if 0 <=? e then cond_Zopp s (Zpos m * 2 ^ e) =? n
      else (Zpos m mod 2 ^ (- e) =? 0) && (cond_Zopp s (Zpos m / 2 ^ (- e)) =? n)
  | _ => false
  end.

(** [v == n] for an int [n]. *)
Definition py_eq_int (v : pyval) (n : Z) : bool :=
  match v with
  | PInt k => k =? n
  | PBool b => (if b then 1 else 0) =? n
  | PFloat f => float_eq_int f n
  | _ => false
  end.

(** [v == s] for a string [s]. *)
Definition py_eq_str (v : pyval) (s : string) : bool :=
  match v with
  | PStr t => String.eqb t s
  | _ => false
  end.

(** Truth value of [v], as [or], [if] and [not] take it. *)
Definition py_truthy (v : pyval) : bool :=
  match v with
  | PNone => false
  | PBool b => b
  | PInt n => negb (n =? 0)
  | PFloat f => negb (float_is_zero f)
  | PStr s => negb (String.eqb s "")
  | PList l => match l with [] => false | _ => true end
  | PDict d => match d with [] => false | _ => true end
  end.

(** [a or b]. *)
Definition py_or (a b : pyval) : pyval := if py_truthy a then a else b.

Fixpoint assoc (k : string) (d : list (string * pyval)) : option pyval :=
  match d with
  | [] => None
  | (k', v) :: d' => if String.eqb k' k then Some v else assoc k d'
  end.

(** [d.get(k, dflt)]: only a dict has the method. *)
Definition py_get (d : pyval) (k : string) (dflt : pyval) : res pyval :=
  match d with
  | PDict l => Ok (match assoc k l with Some v => v | None => dflt end)
  | _ => Raise AttributeError
  end.

(** [d[k]] for a string key. *)
Definition py_getitem (d : pyval) (k : string) : res pyval :=
  match d with
  | PDict l => match assoc k l with Some v => Ok v | None => Raise KeyError end
  | _ => Raise TypeError
  end.

(** [d[k] = v]: an existing key keeps its place, a new one goes last. *)
Fixpoint assoc_set (k : string) (v : pyval) (d : list (string * pyval))
  : list (string * pyval) :=
  match d with
  | [] => [(k, v)]
  | (k', v') :: d' =>
      if String.eqb k' k then (k, v) :: d' else (k', v') :: assoc_set k v d'
  end.

Definition chars (s : string) : list pyval :=
  List.map (fun c => PStr (String c EmptyString)) (list_ascii_of_string s).

(** [x[0]]. *)
Definition py_first (x : pyval) : res pyval :=
  match x with
  | PList (v :: _) => Ok v
  | PList [] => Raise IndexError
  | PStr (String c _) => Ok (PStr (String c EmptyString))
  | PStr EmptyString => Raise IndexError
  | PDict _ => Raise KeyError
  | _ => Raise TypeError
  end.

(** [len(x)]. *)
Definition py_len (x : pyval) : res Z :=
  match x with
  | PList l => Ok (Z.of_nat (List.length l))
  | PDict d => Ok (Z.of_nat (List.length d))
  | PStr s => Ok (Z.of_nat (String.length s))
  | _ => Raise TypeError
  end.

(** The elements [for v in x] runs over. *)
Definition py_iter (x : pyval) : res (list pyval) :=
  match x with
  | PList l => Ok l
  | PDict d => Ok (List.map (fun kv => PStr (fst kv)) d)
  | PStr s => Ok (chars s)
  | _ => Raise TypeError
  end.

(** [x.lower()]: only a string has the method. *)
Definition py_lower (x : pyval) : res string :=
  match x with
  | PStr s => Ok (lower s)
  | _ => Raise AttributeError
  end.

(** ["..." in x] for a string on the left. *)
Definition py_str_in (s : string) (x : pyval) : res bool :=
  match x with
  | PStr t => Ok (is_substring s t)
  | PList l => Ok (existsb (fun v => py_eq_str v s) l)
  | PDict d => Ok (existsb (fun kv => String.eqb (fst kv) s) d)
  | _ => Raise TypeError
  end.

(** [float(str(v).replace(",", ""))].  The text of a bool, of [None], of
    a list or of a dict is no numeral; the text of a float holds no comma
    and reads back as the same float. *)
Definition float_of_text_of (v : pyval) : res float64 :=
  match v with
  | PStr s =>
      match float_of_string (strip_commas s) with
      | Some f => Ok f
      | None => Raise ValueError
      end
  | PInt n =>
      match float_of_string (strip_commas (str_of_int n)) with
      | Some f => Ok f
      | None => Raise ValueError
      end
  | PFloat f => Ok f
  | _ => Raise ValueError
  end.

(** [float(n)] for an int: nearest value, [OverflowError] beyond range. *)
Definition float_of_int (n : Z) : res float64 :=
  match binary_normalize prec emax n 0 false with
  | S754_infinity _ => Raise OverflowError
  | f => Ok f
  end.

(** [a / b] for two ints: the exact quotient, correctly rounded. *)
Definition int_truediv (a b : Z) : res float64 :=
  if b =? 0 then Raise ZeroDivisionError
  else if a =? 0 then Ok (S754_zero (b <? 0))
  else match SFdiv prec emax (exact_of_Z a) (exact_of_Z b) with
       | S754_infinity _ => Raise OverflowError
       | f => Ok f
       end.

(** ** The token record, the configuration and the upstream services *)

(** The fields of [class Token(Model)].  A field holds whatever Python
    value was assigned to it; [address] is the primary key and always a
    string. *)
Record Token : Type := mkToken {
  address : string;
  name : pyval;
  symbol : pyval;
  decimals : pyval;
  logoURI : pyval;
  price : pyval;
  stable : pyval;
  liquid_staked_address : pyval
}.

Definition set_price (t : Token) (p : pyval) : Token :=
  mkToken (address t) (name t) (symbol t) (decimals t) (logoURI t) p
          (stable t) (liquid_staked_address t).

Definition set_stable (t : Token) (b : pyval) : Token :=
  mkToken (address t) (name t) (symbol t) (decimals t) (logoURI t) (price t)
          b (liquid_staked_address t).

(** The names imported from [app.settings]. *)
Record Settings : Type := mkSettings {
  STABLE_TOKEN_ADDRESS : string;
  BLUECHIP_TOKEN_ADDRESSES : list string;
  IGNORED_TOKEN_ADDRESSES : list string;
  ROUTER_ADDRESS : string;
  TOKENLISTS : list string
}.

(** What the outside answers.  Each function is the whole outcome of one
    call of the source: the value it evaluates to or the exception it
    raises.  The answers depend on the request only, so the services are
    deterministic. *)
Record World : Type := mkWorld {
  (** [requests.get(DEXSCREENER_ENDPOINT + address).json()] *)
  screener_json : string -> res pyval;
  (** [requests.get(DEFILLAMA_ENDPOINT + chain_token).json()] *)
  oracle_json : string -> res pyval;
  (** [Call(router, ["getAmountOut(...)", amount, token, stable])()] *)
  router_getAmountOut : string -> pyval -> string -> string -> res (Z * bool);
  (** The [Multicall] of [name()], [symbol()] and [decimals()]. *)
  chain_identity : string -> res (string * string * Z);
  (** [requests.get(tlist).json()] *)
  tokenlist_json : string -> res pyval;
  (** [w3.eth.chain_id] *)
  eth_chain_id : res Z;
  (** [10.0 ** x] on floats, which CPython hands to the C library. *)
  float_pow10 : float64 -> res float64
}.

(** One entry per call that leaves the process, and per log line. *)
Inductive event : Type :=
| ScreenerGet (addr : string)
| OracleGet (chain_token : string)
| RouterCall (amount : pyval) (token_in token_out : string)
| IdentityMulticall (addr : string)
| TokenlistGet (url : string)
| ChainIdRead
| LogDebug
| LogError (e : exn).

(** The cache (the Reference Store) and the calls made so far. *)
Record state : Type := mkState {
  store : gmap string Token;
  trace : list event
}.

(** ** Computations: state passing with exceptions

    A raised exception keeps the state reached so far: what was saved
    before the fault stays saved. *)
Definition M (A : Type) : Type := state -> res A * state.

Definition ret {A} (a : A) : M A := fun st => (Ok a, st).
Definition raise {A} (e : exn) : M A := fun st => (Raise e, st).
Definition lift {A} (r : res A) : M A := fun st => (r, st).

Definition bind {A B} (m : M A) (k : A -> M B) : M B :=
  fun st =>
    match m st with
    | (Ok a, st') => k a st'
    | (Raise e, st') => (Raise e, st')
    end.

Notation "'let*' x ':=' m 'in' k" := (bind m (fun x => k))
  (at level 10, x name, m at level 100, k at level 200).

(** [try: body  except <caught>: handler]. *)
Definition try_except {A} (body : M A) (caught : exn -> bool)
  (handler : exn -> M A) : M A :=
  fun st =>
    match body st with
    | (Raise e, st') => if caught e then handler e st' else (Raise e, st')
    | r => r
    end.

Definition emit (ev : event) : M unit :=
  fun st => (Ok tt, mkState (store st) (trace st ++ [ev])).

(** An outside call: it is recorded, then it answers or raises. *)
Definition call {A} (ev : event) (r : res A) : M A :=
  let* _ := emit ev in lift r.

(** [for x in l: body(x)]. *)
Fixpoint for_each {A} (body : A -> M unit) (l : list A) : M unit :=
  match l with
  | [] => ret tt
  | x :: l' => let* _ := body x in for_each body l'
  end.

(** The store is the [walrus] model layer over the cache, a library
    the code imports.  It is modelled as a map from the primary key to
    the record as the object that was saved: the layer's conversion of
    each field to its declared type on the way in and out (the price
    through [float], the decimals through [int], the text fields to
    text) and the faults of that conversion are not part of the model.
    The statements below that speak of what is written either do not
    depend on the conversion or assume values of the declared types
    ([numeric_price], [typed_entry]).

    [cls.load(key)]: the stored record, or [KeyError]. *)
Definition load (key : string) : M Token :=
  fun st =>
    match store st !! key with
    | Some t => (Ok t, st)
    | None => (Raise KeyError, st)
    end.

(** [self.save()]: the record is written under its address. *)
Definition save (t : Token) : M unit :=
  fun st => (Ok tt, mkState (<[address t := t]> (store st)) (trace st)).

(** ** The model's methods *)

Section Model.

Context (cfg : Settings) (w : World).

Definition is_stable_address (a : string) : bool :=
  String.eqb a (STABLE_TOKEN_ADDRESS cfg).

Definition is_bluechip (a : string) : bool :=
  bool_decide (a ∈ BLUECHIP_TOKEN_ADDRESSES cfg).

(** [[pair for pair in pairs if pair["chainId"] == "kava"]]: every pair
    is subscripted, also those behind the first match. *)
Fixpoint pairs_on_kava (pairs : list pyval) : res (list pyval) :=
  match pairs with
  | [] => Ok []
  | pr :: rest =>
      match py_getitem pr "chainId" with
      | Raise e => Raise e
      | Ok c =>
          match pairs_on_kava rest with
          | Raise e => Raise e
          | Ok l => Ok (if py_eq_str c "kava" then pr :: l else l)
          end
      end
  end.

(** [float(str(pair.get("priceUsd") or 0).replace(",", ""))]. *)
Definition pair_price (pr : pyval) : res float64 :=
  match py_get pr "priceUsd" PNone with
  | Raise e => Raise e
  | Ok v => float_of_text_of (py_or v (PInt 0))
  end.

(** What [dexscreener_price_in_stables] makes of the decoded response. *)
Definition screener_price (response : pyval) : res pyval :=
  match py_get response "pairs" PNone with
  | Raise e => Raise e
  | Ok v =>
      let pairs := py_or v (PList []) in
      match py_len pairs with
      | Raise e => Raise e
      | Ok n =>
          if n =? 0 then Ok (PInt 0)
          else
            match py_iter pairs with
            | Raise e => Raise e
            | Ok elements =>
                match pairs_on_kava elements with
                | Raise e => Raise e
                | Ok pairs_in_kava =>
                    let chosen :=
                      match pairs_in_kava with
                      | [] => py_first pairs
                      | pr :: _ => Ok pr
                      end in
                    match chosen with
                    | Raise e => Raise e
                    | Ok pr =>
                        match pair_price pr with
                        | Raise e => Raise e
                        | Ok f => Ok (PFloat f)
                        end
                    end
                end
            end
      end
  end.

Definition dexscreener_price_in_stables (self : Token) : M pyval :=
  if is_stable_address (address self) then ret (PFloat f_one)
  else
    let* response := call (ScreenerGet (address self))
                          (screener_json w (address self)) in
    lift (screener_price response).

(** What [defillama_price_in_stables] makes of the decoded response:
    the price of the first coin, 0 when there is none. *)
Definition oracle_price (response : pyval) : res pyval :=
  match py_get response "coins" (PDict []) with
  | Raise e => Raise e
  | Ok (PDict ((_, coin) :: _)) => py_get coin "price" (PInt 0)
  | Ok (PDict []) => Ok (PInt 0)
  | Ok _ => Raise AttributeError
  end.

Definition defillama_price_in_stables (self : Token) : M pyval :=
  if is_stable_address (address self) then ret (PFloat f_one)
  else
    let chain_token := "kava:" ++ lower (address self) in
    let* response := call (OracleGet chain_token) (oracle_json w chain_token) in
    lift (oracle_price response).

Definition oracle_fault (e : exn) : bool :=
  match e with
  | HTTPError | JSONDecodeError => true
  | _ => false
  end.

Definition aggregated_price_in_stables (self : Token) : M pyval :=
  let* price := dexscreener_price_in_stables self in
  if negb (py_eq_int price 0) && negb (is_bluechip (address self))
  then ret price
  else try_except (defillama_price_in_stables self) oracle_fault
                  (fun _ => ret price).

(** [10 ** d]: an int for a natural exponent, else a float power. *)
Definition pow10 (d : pyval) : res pyval :=
  match d with
  | PInt n =>
      if 0 <=? n then Ok (PInt (10 ^ n))
      else match float_of_int n with
           | Raise e => Raise e
           | Ok x => match float_pow10 w x with
                     | Raise e => Raise e
                     | Ok f => Ok (PFloat f)
                     end
           end
  | PBool b => Ok (PInt (if b then 10 else 1))
  | PFloat x => match float_pow10 w x with
                | Raise e => Raise e
                | Ok f => Ok (PFloat f)
                end
  | _ => Raise TypeError
  end.

(** [amount / q] for the int [amount] the router returned. *)
Definition truediv (amount : Z) (q : pyval) : res pyval :=
  match q with
  | PInt n => match int_truediv amount n with
              | Raise e => Raise e
              | Ok f => Ok (PFloat f)
              end
  | PFloat y =>
      match float_of_int amount with
      | Raise e => Raise e
      | Ok x => if float_is_zero y then Raise ZeroDivisionError
                else Ok (PFloat (SFdiv prec emax x y))
      end
  | _ => Raise TypeError
  end.

Definition is_revert (e : exn) : bool :=
  match e with ContractLogicError => true | _ => false end.

Definition is_key_error (e : exn) : bool :=
  match e with KeyError => true | _ => false end.

(** The methods below call each other through [find]; [find_] stands for
    the [Token.find] they reach. *)
Section Knot.

Variable find_ : option string -> M (option Token).

Definition chain_price_in_stables (self : Token) : M pyval :=
  if is_stable_address (address self) then ret (PFloat f_one)
  else
    let* found := find_ (Some (STABLE_TOKEN_ADDRESS cfg)) in
    match found with
    | None => raise AttributeError
    | Some stablecoin =>
        let* quoted :=
          try_except
            (let* amount_in := lift (pow10 (decimals self)) in
             let* out := call (RouterCall amount_in (address self)
                                          (address stablecoin))
                              (router_getAmountOut w (ROUTER_ADDRESS cfg)
                                 amount_in (address self)
                                 (address stablecoin)) in
             ret (Some out))
            is_revert
            (fun _ => ret None) in
        match quoted with
        | None => ret (PInt 0)
        | Some (amount, is_stable) =>
            let* q := lift (pow10 (decimals stablecoin)) in
            lift (truediv amount q)
        end
    end.

Definition _update_price (self : Token) : M Token :=
  let* p := aggregated_price_in_stables self in
  let self1 := set_price self p in
  let* self2 :=
    if py_eq_int (price self1) 0
    then let* p' := chain_price_in_stables self1 in ret (set_price self1 p')
    else ret self1 in
  let* _ := save self2 in
  ret self2.

(** [cls.create(address=address, **data)]: the new record is stored at
    once, with the defaults of the fields that were not given. *)
Definition create (t : Token) : M Token :=
  let* _ := save t in ret t.

Definition from_chain (address0 : string) : M Token :=
  let addr := lower address0 in
  let* data := call (IdentityMulticall addr) (chain_identity w addr) in
  let '(n, s, d) := data in
  let* token := create (mkToken addr (PStr n) (PStr s) (PInt d)
                                PNone (PInt 0) (PInt 0) PNone) in
  let* token' := _update_price token in
  let* _ := emit LogDebug in
  ret token'.

End Knot.

(** [Token.find].  A missing record is fetched by [from_chain], whose
    price update may itself call [find] for the reference asset; [fuel]
    bounds that nesting the way the interpreter's recursion limit does.
    [find_total] below shows that two levels are all the code ever
    uses. *)
Fixpoint find (fuel : nat) (address0 : option string) : M (option Token) :=
  match address0 with
  | None => ret None
  | Some a =>
      try_except
        (let* t := load (lower a) in ret (Some t))
        is_key_error
        (fun _ =>
           match fuel with
           | O => raise RecursionError
           | S fuel' =>
               let* t := from_chain (find fuel') (lower a) in ret (Some t)
           end)
  end.

(** ** Catalog ingestion *)

Definition field (token_data : list (string * pyval)) (k : string)
  (dflt : pyval) : pyval :=
  match assoc k token_data with Some v => v | None => dflt end.

(** [cls.create] with the entry as keyword arguments: the record takes
    the entry's values for the fields it names, the declared defaults
    for the others. *)
Definition token_of_entry (addr : string) (token_data : list (string * pyval))
  : Token :=
  mkToken addr
          (field token_data "name" PNone)
          (field token_data "symbol" PNone)
          (field token_data "decimals" PNone)
          (field token_data "logoURI" PNone)
          (field token_data "price" (PInt 0))
          (field token_data "stable" (PInt 0))
          (field token_data "liquid_staked_address" PNone).

Definition entry_items (token_data : pyval) : list (string * pyval) :=
  match token_data with
  | PDict d => d
  | _ => []
  end.

(** The body of the inner loop of [from_tokenlists] for one entry. *)
Definition ingest_entry (fuel : nat) (our_chain_id : Z) (token_data : pyval)
  : M unit :=
  let* cid := lift (py_get token_data "chainId" PNone) in
  if negb (py_eq_int cid our_chain_id) then
    let* _ := lift (py_getitem token_data "symbol") in
    emit LogDebug
  else
    let* a := lift (py_getitem token_data "address") in
    let* addr := lift (py_lower a) in
    let data1 := assoc_set "address" (PStr addr) (entry_items token_data) in
    if bool_decide (addr ∈ IGNORED_TOKEN_ADDRESSES cfg) then ret tt
    else
      let* lsa := lift (py_getitem (PDict data1) "liquid_staked_address") in
      let* data2 :=
        if py_truthy lsa
        then let* l := lift (py_lower lsa) in
             ret (assoc_set "liquid_staked_address" (PStr l) data1)
        else ret data1 in
      let* token := create (token_of_entry addr data2) in
      let* tags := lift (py_getitem (PDict data2) "tags") in
      let* tag := lift (py_first tags) in
      let* is_stablecoin := lift (py_str_in "stablecoin" tag) in
      let token' := set_stable token (PInt (if is_stablecoin then 1 else 0)) in
      let* _ := _update_price (find fuel) token' in
      emit LogDebug.

(** The body of the outer loop for one feed, with its [try]. *)
Definition ingest_feed (fuel : nat) (our_chain_id : Z) (tlist : string)
  : M unit :=
  try_except
    (let* response := call (TokenlistGet tlist) (tokenlist_json w tlist) in
     let* tokens := lift (py_getitem response "tokens") in
     let* entries := lift (py_iter tokens) in
     for_each (ingest_entry fuel our_chain_id) entries)
    (fun _ => true)
    (fun error => emit (LogError error)).

Definition from_tokenlists (fuel : nat) : M unit :=
  let* our_chain_id := call ChainIdRead (eth_chain_id w) in
  for_each (ingest_feed fuel our_chain_id) (TOKENLISTS cfg).

End Model.

(** ** The aggregator quote

    [one_inch_price_in_stables] is called by no other method.  It asks
    the aggregator over HTTP; the answer is taken from
    [aggregator_json], the outcome of
    [requests.get(AGGREGATOR_ENDPOINT, params=...).json()] for the three
    parameters, and the request is not entered in the trace, whose
    entries are the calls of the resolution path. *)

(** [int(s)] for a text: the text is put in ASCII form and stripped as
    for [float], then come an optional sign and decimal digits, with
    single underscores between digits; CPython refuses more than 4300
    digits by default. *)
Definition int_of_string (s : string) : option Z :=
  let '(neg, l) := read_sign (strip (ascii_text s)) in
  match digit_part 0 0 l with
  | Some (m, cnt, []) => if cnt <=? 4300 then Some (cond_Zopp neg m) else None
  | _ => None
  end.

(** [int(f)] for a float: truncation towards zero. *)
Definition int_of_float (f : float64) : res Z :=
  match f with
  | S754_zero _ => Ok 0
  | S754_finite s m e =>
      Ok (cond_Zopp s (if 0 <=? e then Zpos m * 2 ^ e
                       else Zpos m / 2 ^ (- e)))
  | S754_infinity _ => Raise OverflowError
  | S754_nan => Raise ValueError
  end.

(** [int(v)]. *)
Definition py_int (v : pyval) : res Z :=
  match v with
  | PInt n => Ok n
  | PBool b => Ok (if b then 1 else 0)
  | PFloat f => int_of_float f
  | PStr s => match int_of_string s with
              | Some n => Ok n
              | None => Raise ValueError
              end
  | _ => Raise TypeError
  end.

Section OneInch.

Context (cfg : Settings) (w : World).
Variable aggregator_json : string -> string -> pyval -> res pyval.
Variable find_ : option string -> M (option Token).

(** [int(res.get("toTokenAmount", 0)) / 10 ** stablecoin.decimals]. *)
Definition one_inch_answer (response : pyval) (stablecoin : Token)
  : res pyval :=
  match py_get response "toTokenAmount" (PInt 0) with
  | Raise e => Raise e
  | Ok amount =>
      match py_int amount with
      | Raise e => Raise e
      | Ok n =>
          match pow10 w (decimals stablecoin) with
          | Raise e => Raise e
          | Ok q => truediv n q
          end
      end
  end.

Definition one_inch_price_in_stables (self : Token) : M pyval :=
  if is_stable_address cfg (address self) then ret (PFloat f_one)
  else
    let* found := find_ (Some (STABLE_TOKEN_ADDRESS cfg)) in
    match found with
    | None => raise AttributeError
    | Some stablecoin =>
        let* amount_in := lift (pow10 w (decimals self)) in
        let* response := lift (aggregator_json (address self)
                                 (address stablecoin) amount_in) in
        lift (one_inch_answer response stablecoin)
    end.

End OneInch.

(** The number a run of decimal digits stands for, read from the left
    with [acc] the number read so far. *)
Fixpoint uint_acc (u : Decimal.uint) (acc : Z) : Z :=
  match u with
  | Nil => acc
  | D0 u => uint_acc u (10 * acc)
  | D1 u => uint_acc u (10 * acc + 1)
  | D2 u => uint_acc u (10 * acc + 2)
  | D3 u => uint_acc u (10 * acc + 3)
  | D4 u => uint_acc u (10 * acc + 4)
  | D5 u => uint_acc u (10 * acc + 5)
  | D6 u => uint_acc u (10 * acc + 6)
  | D7 u => uint_acc u (10 * acc + 7)
  | D8 u => uint_acc u (10 * acc + 8)
  | D9 u => uint_acc u (10 * acc + 9)
  end.

(** ** Sample configurations and services

    Small closed instances on which the methods are run: a configuration
    whose reference asset is ["0xst"], and a few worlds. *)

Definition cfg_ex : Settings :=
  mkSettings "0xst" ["0xbc"] ["0xig"] "0xrouter" ["list1"; "list2"].

Definition st_empty : state := mkState ∅ [].

Definition tok (a : string) : Token :=
  mkToken a (PStr "Token") (PStr "TOK") (PInt 18) PNone (PInt 0) (PInt 0) PNone.

Definition usdc : Token :=
  mkToken "0xst" (PStr "USD Coin") (PStr "USDC") (PInt 6) PNone
          (PFloat f_one) (PInt 1) PNone.

(** A store that holds the reference asset and one token. *)
Definition st_known (a : string) : state :=
  mkState (<[a := tok a]> {["0xst" := usdc]}) [].

Definition one_pair (chain price_text : string) : pyval :=
  PDict [("chainId", PStr chain); ("priceUsd", PStr price_text)].

Definition no_pairs : pyval := PDict [("pairs", PList [])].
Definition no_coins : pyval := PDict [("coins", PDict [])].

(** The float 2.0. *)
Definition f_two : float64 := S754_finite false 4503599627370496 (-51).

(** The floats 3.0, 2.5 and -1.0. *)
Definition f_three : float64 := S754_finite false 6755399441055744 (-51).
Definition f_two_and_half : float64 := S754_finite false 5629499534213120 (-51).
Definition f_minus_one : float64 := S754_finite true 4503599627370496 (-52).

(** Every service is down. *)
Definition w_down : World :=
  mkWorld (fun _ => Raise ConnectionError) (fun _ => Raise Timeout)
          (fun _ _ _ _ => Raise ChainCallError) (fun _ => Raise ChainCallError)
          (fun _ => Raise ConnectionError) (Raise ChainCallError)
          (fun _ => Raise OverflowError).

(** A market: ["0xaa"] trades off chain and on chain, the bluechip
    ["0xbc"] is quoted by the screener and by the oracle, ["0xcc"] is
    known to the router only. *)
Definition w_market : World :=
  mkWorld
    (fun a =>
       if String.eqb a "0xaa" then
         Ok (PDict [("pairs", PList [one_pair "ethereum" "2.5";
                                     one_pair "kava" "140344,272.43";
                                     one_pair "kava" "7"])])
       else if String.eqb a "0xbc" then
         Ok (PDict [("pairs", PList [one_pair "kava" "3"])])
       else Ok no_pairs)
    (fun k =>
       if String.eqb k "kava:0xbc" then
         Ok (PDict [("coins",
                     PDict [("kava:0xbc", PDict [("price", PInt 2)])])])
       else Ok no_coins)
    (fun _ _ a _ =>
       if String.eqb a "0xcc" then Ok (2500000, false)
       else Raise ContractLogicError)
    (fun a =>
       if String.eqb a "0xst" then Ok ("USD Coin", "USDC", 6)
       else Ok ("Token", "TOK", 18))
    (fun _ => Ok (PDict [("tokens", PList [])]))
    (Ok 2222)
    (fun _ => Raise OverflowError).

(** Reading a token's identity from the chain reverts. *)
Definition w_identity_reverts : World :=
  mkWorld (screener_json w_market) (oracle_json w_market)
          (router_getAmountOut w_market) (fun _ => Raise ContractLogicError)
          (tokenlist_json w_market) (eth_chain_id w_market)
          (float_pow10 w_market).

(** The screener's body cannot be decoded. *)
Definition w_screener_fault : World :=
  mkWorld (fun _ => Raise JSONDecodeError) (oracle_json w_market)
          (router_getAmountOut w_market) (chain_identity w_market)
          (tokenlist_json w_market) (eth_chain_id w_market)
          (float_pow10 w_market).

(** The screener quotes a negative price. *)
Definition w_negative : World :=
  mkWorld (fun _ => Ok (PDict [("pairs", PList [one_pair "kava" "-1"])]))
          (oracle_json w_market)
          (router_getAmountOut w_market) (chain_identity w_market)
          (tokenlist_json w_market) (eth_chain_id w_market)
          (float_pow10 w_market).

(** The oracle answers with an HTTP error. *)
Definition w_oracle_fault : World :=
  mkWorld (screener_json w_market) (fun _ => Raise HTTPError)
          (router_getAmountOut w_market) (chain_identity w_market)
          (tokenlist_json w_market) (eth_chain_id w_market)
          (float_pow10 w_market).

Definition entry (a : string) : pyval :=
  PDict [("chainId", PInt 2222); ("address", PStr a); ("name", PStr "Token");
         ("symbol", PStr "TOK"); ("decimals", PInt 18);
         ("liquid_staked_address", PStr ""); ("tags", PList [PStr "token"])].

(** An entry without an address. *)
Definition entry_broken : pyval :=
  PDict [("chainId", PInt 2222); ("symbol", PStr "BAD")].

(** Two feeds: the first entry of ["list1"] is broken and ["0xbb"]
    follows it; ["list2"] lists ["0xdd"]. *)
Definition w_feeds : World :=
  mkWorld (screener_json w_market) (oracle_json w_market)
          (router_getAmountOut w_market) (chain_identity w_market)
          (fun u =>
             if String.eqb u "list1"
             then Ok (PDict [("tokens", PList [entry_broken; entry "0xbb"])])
             else Ok (PDict [("tokens", PList [entry "0xdd"])]))
          (eth_chain_id w_market)
          (float_pow10 w_market).

(** The oracle answers with a null [coins] field. *)
Definition w_null_coins : World :=
  mkWorld (screener_json w_market)
          (fun _ => Ok (PDict [("coins", PNone)]))
          (router_getAmountOut w_market) (chain_identity w_market)
          (tokenlist_json w_market) (eth_chain_id w_market)
          (float_pow10 w_market).

(** The screener's price text is made of commas. *)
Definition w_comma_price : World :=
  mkWorld (fun _ => Ok (PDict [("pairs", PList [one_pair "kava" ",,"])]))
          (oracle_json w_market)
          (router_getAmountOut w_market) (chain_identity w_market)
          (tokenlist_json w_market) (eth_chain_id w_market)
          (float_pow10 w_market).

(** The reference asset configured with capital letters. *)
Definition cfg_upper : Settings :=
  mkSettings "0xST" ["0xbc"] ["0xig"] "0xrouter" ["list1"; "list2"].

(** A record whose decimals were never set. *)
Definition tok_without_decimals (a : string) : Token :=
  mkToken a (PStr "Token") (PStr "TOK") PNone PNone (PInt 0) (PInt 0) PNone.

(** An entry of another chain, an entry of this chain without tags, and
    an aggregator that quotes 2500000 for everything. *)
Definition fields_foreign : list (string * pyval) :=
  [("chainId", PInt 1); ("address", PStr "0xFF"); ("symbol", PStr "ETH")].

Definition fields_without_tags : list (string * pyval) :=
  [("chainId", PInt 2222); ("address", PStr "0xBB"); ("name", PStr "Token");
   ("symbol", PStr "TOK"); ("decimals", PInt 18);
   ("liquid_staked_address", PStr "")].

Definition aggregator_sample : string -> string -> pyval -> res pyval :=
  fun _ _ _ => Ok (PDict [("toTokenAmount", PStr "2500000")]).

(** ** States reached

    The state after one more recorded event, and after a record was
    written. *)

Definition logged (ev : event) (st : state) : state :=
  mkState (store st) (trace st ++ [ev]).

Definition saved (t : Token) (st : state) : state :=
  mkState (<[address t := t]> (store st)) (trace st).

(** A computation that only talks to the outside: its result and the
    calls it records are the same from every state, and the store is
    left alone. *)
Definition net_only {A} (m : M A) : Prop :=
  exists (r : res A) (evs : list event),
    forall st, m st = (r, mkState (store st) (trace st ++ evs)).

(** A computation that only ever appends to the trace. *)
Definition growing {A} (m : M A) : Prop :=
  forall st r st', m st = (r, st') ->
    exists evs, trace st' = (trace st ++ evs)%list.

(** What [chain_price_in_stables] does once [find] has handed it the
    reference asset's record: the guarded router call, then the
    division. *)
Definition router_quote (cfg : Settings) (w : World) (self stablecoin : Token)
  : M pyval :=
  let* quoted :=
    try_except
      (let* amount_in := lift (pow10 w (decimals self)) in
       let* out := call (RouterCall amount_in (address self)
                                    (address stablecoin))
                        (router_getAmountOut w (ROUTER_ADDRESS cfg)
                           amount_in (address self) (address stablecoin)) in
       ret (Some out))
      is_revert
      (fun _ => ret None) in
  match quoted with
  | None => ret (PInt 0)
  | Some (amount, is_stable) =>
      let* q := lift (pow10 w (decimals stablecoin)) in
      lift (truediv amount q)
  end.

(** [allowed k] or nothing new: every key of [st'] holds what it held in
    [st], unless it was free in [st] and is one of the [allowed]. *)
Definition only_adds (allowed : string -> Prop) (st st' : state) : Prop :=
  forall k, store st' !! k = store st !! k \/
            (store st !! k = None /\ allowed k).

(** The key under which the reference asset is stored. *)
Definition is_reference_key (cfg : Settings) (k : string) : Prop :=
  k = lower (STABLE_TOKEN_ADDRESS cfg).

(** A lookup of the reference asset that changes the store at most by
    adding the reference asset's record. *)
Definition adds_reference_only (cfg : Settings)
  (find_ : option string -> M (option Token)) : Prop :=
  forall st r st',
    find_ (Some (STABLE_TOKEN_ADDRESS cfg)) st = (r, st') ->
    only_adds (is_reference_key cfg) st st'.

(** [0 <= v] for a price: a number that is not below zero (so neither a
    negative number nor a NaN, a string or [None]). *)
Definition py_nonneg (v : pyval) : bool :=
  match v with
  | PInt n => 0 <=? n
  | PBool _ => true
  | PFloat f => SFleb f_zero f
  | _ => false
  end.

(** A computation all of whose runs relate the state they start from to
    the state they end in by [R]. *)
Definition respects {A} (R : state -> state -> Prop) (m : M A) : Prop :=
  forall st r st', m st = (r, st') -> R st st'.

(** Every record sits under its own address. *)
Definition keyed_by_address (st : state) : Prop :=
  forall k t, store st !! k = Some t -> address t = k.

Definition keeps_keyed (st st' : state) : Prop :=
  keyed_by_address st -> keyed_by_address st'.

(** Shapes of decoded values. *)
Definition is_dict (v : pyval) : bool :=
  match v with PDict _ => true | _ => false end.

Definition is_list (v : pyval) : bool :=
  match v with PList _ => true | _ => false end.

(** A value [10 ** v] is not defined on. *)
Definition not_a_number (v : pyval) : bool :=
  match v with
  | PNone | PStr _ | PList _ | PDict _ => true
  | _ => false
  end.

(** What the screener pass comes to for an address other than the
    reference asset's. *)
Definition screener_outcome (w : World) (a : string) : res pyval :=
  match screener_json w a with
  | Ok resp => screener_price resp
  | Raise e => Raise e
  end.

(** The keyword arguments [from_tokenlists] builds from an entry [d]
    whose address is the text [a] and whose [liquid_staked_address] is
    [lsa]: both are put in lowercase, the second only when it is a
    non-empty text. *)
Definition entry_data (d : list (string * pyval)) (a : string) (lsa : pyval)
  : list (string * pyval) :=
  let data1 := assoc_set "address" (PStr (lower a)) d in
  match lsa with
  | PStr l =>
      if py_truthy lsa
      then assoc_set "liquid_staked_address" (PStr (lower l)) data1
      else data1
  | _ => data1
  end.

(** The entry is for chain [n]. *)
Definition on_chain (d : list (string * pyval)) (n : Z) : bool :=
  py_eq_int (field d "chainId" PNone) n.

(** A float that is a number: neither an infinity nor a NaN. *)
Definition is_finite_float (f : float64) : bool :=
  match f with
  | S754_zero _ | S754_finite _ _ _ => true
  | _ => false
  end.

(** What the oracle pass comes to for an address other than the
    reference asset's. *)
Definition oracle_outcome (w : World) (a : string) : res pyval :=
  match oracle_json w ("kava:" ++ lower a) with
  | Ok resp => oracle_price resp
  | Raise e => Raise e
  end.

(** A fault of one of the three passes of a price resolution on [self]
    from [st]: of the first two passes or, when they yield 0, of the
    router pass, the lookup of the reference asset included.  Such a
    fault leaves [_update_price] before its [save]. *)
Definition pass_fault (cfg : Settings) (w : World)
  (find_ : option string -> M (option Token)) (self : Token) (st : state)
  (e : exn) (st' : state) : Prop :=
  aggregated_price_in_stables cfg w self st = (Raise e, st') \/
  exists p st1,
    aggregated_price_in_stables cfg w self st = (Ok p, st1) /\
    py_eq_int p 0 = true /\
    chain_price_in_stables cfg w find_ (set_price self p) st1 = (Raise e, st').

(** The fields are declared [TextField], [IntegerField], [FloatField]
    and [BooleanField], and the storage layer converts a value to the
    type of its field when it writes it: the price goes through
    [float].  A price that is a float, a bool or an int within the range
    of binary64 is written as the number it is. *)
Definition numeric_price (v : pyval) : bool :=
  match v with
  | PFloat _ | PBool _ => true
  | PInt n => match float_of_int n with Ok _ => true | Raise _ => false end
  | _ => false
  end.

(** An entry names the field [k] with a text, or not at all. *)
Definition text_field (d : list (string * pyval)) (k : string) : bool :=
  match assoc k d with
  | None | Some (PStr _) => true
  | _ => false
  end.

(** An entry whose fields have the declared types, so that the storage
    layer converts nothing: texts for the text fields it names, an int
    for [decimals], a number for [price], a bool for [stable]. *)
Definition typed_entry (d : list (string * pyval)) : bool :=
  text_field d "name" && text_field d "symbol" && text_field d "logoURI" &&
  match assoc "decimals" d with
  | None | Some (PInt _) => true
  | _ => false
  end &&
  match assoc "price" d with
  | None => true
  | Some v => numeric_price v
  end &&
  match assoc "stable" d with
  | None | Some (PBool _) => true
  | _ => false
  end.

(** Every stored price is a number not below zero. *)
Definition prices_nonneg (st : state) : Prop :=
  forall k t, store st !! k = Some t -> py_nonneg (price t) = true.

Definition keeps_nonneg (st st' : state) : Prop :=
  prices_nonneg st -> prices_nonneg st'.

(** No source reports a negative or non-numeric value: the screener's
    prices, the oracle's prices, the router's amounts, the float powers
    of ten and the price fields of the feeds' entries. *)
Definition sources_nonneg (w : World) : Prop :=
  (forall a resp p, screener_json w a = Ok resp ->
                    screener_price resp = Ok p -> py_nonneg p = true) /\
  (forall k resp q, oracle_json w k = Ok resp ->
                    oracle_price resp = Ok q -> py_nonneg q = true) /\
  (forall r a x y amount b,
     router_getAmountOut w r a x y = Ok (amount, b) -> 0 <= amount) /\
  (forall x y, float_pow10 w x = Ok y -> SFleb f_zero y = true) /\
  (forall u resp tokens entries d,
     tokenlist_json w u = Ok resp ->
     py_getitem resp "tokens" = Ok tokens ->
     py_iter tokens = Ok entries ->
     PDict d ∈ entries ->
     py_nonneg (field d "price" (PInt 0)) = true).

(** ** Rounding

    A shift record [(m, r, s)] over a denominator [D] locates the
    rational [N / D]: it lies in [[m, m + 1)], and the two flags tell
    where: at [m], below the middle, at the middle or above it. *)
Definition locates (N D : Z) (mrs : shr_record) : Prop :=
  match shr_r mrs, shr_s mrs with
  | false, false => N = shr_m mrs * D
  | false, true => shr_m mrs * D < N /\ 2 * N < (2 * shr_m mrs + 1) * D
  | true, false => 2 * N = (2 * shr_m mrs + 1) * D
  | true, true => (2 * shr_m mrs + 1) * D < 2 * N /\ N < (shr_m mrs + 1) * D
  end.

(** [f] is a binary64 number within half a unit in its last place of
    the quotient [num / den], for [0 < den]: [|f - num / den| <= 2^e / 2]
    for [f = m * 2^e], and [|num / den| <= 2^-1075] for a zero. *)
Definition nearest_quotient (f : float64) (num den : Z) : bool :=
  match f with
  | S754_zero _ => 2 * Z.abs num * 2 ^ 1074 <=? den
  | S754_finite s m e =>
      if 0 <=? e
      then 2 * Z.abs (den * cond_Zopp s (Z.pos m) * 2 ^ e - num)
           <=? den * 2 ^ e
      else 2 * Z.abs (den * cond_Zopp s (Z.pos m) - num * 2 ^ (- e)) <=? den
  | _ => false
  end.

(** ** The primary pass in the words of its description

    "If zero pairs are reported the result is 0; else prefer the pairs on
    this chain and fall back to the first reported pair overall."  These
    definitions follow that sentence; [screener_price] above follows the
    code, and the two are compared below. *)

Definition has_chain_id (pr : pyval) : bool :=
  match py_getitem pr "chainId" with
  | Ok _ => true
  | Raise _ => false
  end.

Definition on_this_chain (pr : pyval) : bool :=
  match py_getitem pr "chainId" with
  | Ok c => py_eq_str c "kava"
  | Raise _ => false
  end.

Definition selected_pair (pairs : list pyval) : option pyval :=
  match List.find on_this_chain pairs with
  | Some pr => Some pr
  | None => head pairs
  end.

Definition described_screener_price (pairs : list pyval) : res pyval :=
  match selected_pair pairs with
  | None => Ok (PInt 0)
  | Some pr =>
      match pair_price pr with
      | Ok f => Ok (PFloat f)
      | Raise e => Raise e
      end
  end.

Definition has_comma (s : string) : bool :=
  existsb (fun c => Ascii.eqb c ","%char) (list_ascii_of_string s).

(** The binary64 number 140344272.43: [4709172345841910 * 2^-25]. *)
Definition f_quoted : float64 := S754_finite false 4709172345841910 (-25).

(** [f] is positive with a fraction and lies within half a unit in the
    last place of [num / den]: [|m * 2^e - num / den| <= 2^e / 2]. *)
Definition within_half_ulp (f : float64) (num den : Z) : bool :=
  match f with
  | S754_finite false m e =>
      (e <? 0) && (2 * Z.abs (den * Zpos m - num * 2 ^ (- e)) <=? den)
  | _ => false
  end.

(** A price field that is missing, null or empty. *)
Definition no_price_text (pd : list (string * pyval)) : bool :=
  match assoc "priceUsd" pd with
  | None | Some PNone | Some (PStr "") => true
  | _ => false
  end.

(** A [pairs] field that is missing, null or empty. *)
Definition no_pairs_reported (d : list (string * pyval)) : bool :=
  match assoc "pairs" d with
  | None | Some PNone | Some (PList []) => true
  | _ => false
  end.

(** ** Properties *)

(** *** Division is correctly rounded

    [SFdiv] divides the mantissas, records where the exact quotient
    lies, shifts to the exponent of the format and rounds to nearest,
    ties to even.  The lemmas follow the quotient through the shifts;
    the outcome is a float within half a unit in the last place of the
    exact quotient. *)

Lemma shr_1_locates N D mrs :
  0 < D -> 0 <= shr_m mrs -> locates N D mrs ->
  locates N (2 * D) (shr_1 mrs) /\ 0 <= shr_m (shr_1 mrs) /\
  shr_m (shr_1 mrs) = shr_m mrs / 2.
Proof.
  intros HD Hm. destruct mrs as [m r s]. cbn [shr_m] in Hm.
  unfold locates. destruct m as [|[p|p|]|p]; [| | | |lia];
    destruct r, s; cbn [shr_1 shr_m shr_r shr_s orb]; intros H;
    (split; [|split]); try lia.
  all: clear H; Z.to_euclidean_division_equations; lia.
Qed.

Lemma pow2_xO p : 2 ^ Z.pos p~0 = 2 ^ Z.pos p * 2 ^ Z.pos p.
Proof.
  rewrite <- (Pos.add_diag p), Pos2Z.inj_add, Z.pow_add_r by lia. reflexivity.
Qed.

Lemma pow2_xI p : 2 ^ Z.pos p~1 = 2 * 2 ^ Z.pos p * 2 ^ Z.pos p.
Proof.
  rewrite Pos.xI_succ_xO, Pos2Z.inj_succ, Z.pow_succ_r, pow2_xO by lia. ring.
Qed.

Lemma iter_shr_1_locates N p : forall D mrs,
  0 < D -> 0 <= shr_m mrs -> locates N D mrs ->
  locates N (D * 2 ^ Z.pos p) (SpecFloat.iter_pos shr_1 p mrs) /\
  0 <= shr_m (SpecFloat.iter_pos shr_1 p mrs) /\
  shr_m (SpecFloat.iter_pos shr_1 p mrs) = shr_m mrs / 2 ^ Z.pos p.
Proof.
  induction p as [p IH|p IH|]; intros D mrs HD Hm Hl;
    cbn [SpecFloat.iter_pos].
  - destruct (shr_1_locates N D mrs HD Hm Hl) as (H1 & H2 & H3).
    destruct (IH (2 * D) _ ltac:(lia) H2 H1) as (H4 & H5 & H6).
    assert (Hp : 0 < 2 ^ Z.pos p) by (apply Z.pow_pos_nonneg; lia).
    destruct (IH (2 * D * 2 ^ Z.pos p) _ ltac:(nia) H5 H4) as (H7 & H8 & H9).
    rewrite pow2_xI.
    split; [|split; [exact H8|]].
    + replace (D * (2 * 2 ^ Z.pos p * 2 ^ Z.pos p))
        with (2 * D * 2 ^ Z.pos p * 2 ^ Z.pos p) by ring.
      exact H7.
    + rewrite H9, H6, H3, !Z.div_div by lia. f_equal. ring.
  - destruct (IH D _ HD Hm Hl) as (H4 & H5 & H6).
    assert (Hp : 0 < 2 ^ Z.pos p) by (apply Z.pow_pos_nonneg; lia).
    destruct (IH (D * 2 ^ Z.pos p) _ ltac:(nia) H5 H4) as (H7 & H8 & H9).
    rewrite pow2_xO.
    split; [|split; [exact H8|]].
    + replace (D * (2 ^ Z.pos p * 2 ^ Z.pos p))
        with (D * 2 ^ Z.pos p * 2 ^ Z.pos p) by ring.
      exact H7.
    + rewrite H9, H6, !Z.div_div by lia. reflexivity.
  - destruct (shr_1_locates N D mrs HD Hm Hl) as (H1 & H2 & H3).
    rewrite Z.pow_1_r. replace (D * 2) with (2 * D) by ring. auto.
Qed.

Lemma digits2_pos_bounds m :
  2 ^ (Z.pos (digits2_pos m) - 1) <= Z.pos m < 2 ^ Z.pos (digits2_pos m).
Proof.
  induction m as [m IH|m IH|]; cbn [digits2_pos].
  - rewrite Pos2Z.inj_succ.
    replace (Z.succ (Z.pos (digits2_pos m)) - 1)
      with (Z.succ (Z.pos (digits2_pos m) - 1)) by lia.
    rewrite !Z.pow_succ_r by lia. lia.
  - rewrite Pos2Z.inj_succ.
    replace (Z.succ (Z.pos (digits2_pos m)) - 1)
      with (Z.succ (Z.pos (digits2_pos m) - 1)) by lia.
    rewrite !Z.pow_succ_r by lia. lia.
  - cbn. lia.
Qed.

Lemma Zdigits2_nonneg m : 0 <= m -> 0 <= Zdigits2 m.
Proof. destruct m; cbn; lia. Qed.

Lemma Zdigits2_upper m : 0 <= m -> m < 2 ^ Zdigits2 m.
Proof.
  destruct m as [|p|p]; cbn [Zdigits2]; [cbn; lia| |lia].
  intros _. apply digits2_pos_bounds.
Qed.

Lemma Zdigits2_lower m : 0 < m -> 2 ^ (Zdigits2 m - 1) <= m.
Proof.
  destruct m as [|p|p]; cbn [Zdigits2]; [lia| |lia].
  intros _. apply digits2_pos_bounds.
Qed.

Lemma Zdigits2_le m k : 0 <= m -> 0 <= k -> m < 2 ^ k -> Zdigits2 m <= k.
Proof.
  intros Hm Hk Hlt. destruct (Z.eq_dec m 0) as [->|Hne]; [cbn; lia|].
  pose proof (Zdigits2_lower m ltac:(lia)) as Hlo.
  pose proof (Zdigits2_nonneg m Hm) as Hd.
  destruct (Z.le_gt_cases (Zdigits2 m) k) as [H|H]; [exact H|].
  exfalso. assert (2 ^ k <= 2 ^ (Zdigits2 m - 1))
    by (apply Z.pow_le_mono_r; lia). lia.
Qed.

Lemma shr_m_of_loc m l : shr_m (shr_record_of_loc m l) = m.
Proof. now destruct l as [|[]]. Qed.

Lemma shr_fexp_locates N D m e l :
  0 < D -> 0 <= m -> locates N D (shr_record_of_loc m l) ->
  exists n mrs,
    shr_fexp prec emax m e l = (mrs, e + n) /\
    n = Z.max 0 (fexp prec emax (Zdigits2 m + e) - e) /\
    locates N (D * 2 ^ n) mrs /\ 0 <= shr_m mrs /\ shr_m mrs = m / 2 ^ n.
Proof.
  intros HD Hm Hl. unfold shr_fexp, shr.
  destruct (fexp prec emax (Zdigits2 m + e) - e) as [|p|p] eqn:Hn.
  - exists 0, (shr_record_of_loc m l).
    rewrite Z.add_0_r, Z.pow_0_r, Z.mul_1_r, Z.div_1_r, shr_m_of_loc.
    repeat split; try assumption.
  - exists (Z.pos p), (SpecFloat.iter_pos shr_1 p (shr_record_of_loc m l)).
    rewrite <- (shr_m_of_loc m l) in Hm.
    destruct (iter_shr_1_locates N p D _ HD Hm Hl) as (H1 & H2 & H3).
    rewrite shr_m_of_loc in H3. repeat split; try assumption.
  - exists 0, (shr_record_of_loc m l).
    rewrite Z.add_0_r, Z.pow_0_r, Z.mul_1_r, Z.div_1_r, shr_m_of_loc.
    repeat split; try assumption.
Qed.

Lemma shifted_fits m e n :
  0 <= m -> n = Z.max 0 (fexp prec emax (Zdigits2 m + e) - e) ->
  fexp prec emax (Zdigits2 (m / 2 ^ n) + (e + n)) <= e + n /\
  -1074 <= e + n.
Proof.
  intros Hm Hn.
  pose proof (Zdigits2_upper m Hm) as Hup.
  pose proof (Zdigits2_nonneg m Hm) as Hd.
  assert (H0n : 0 <= n) by lia.
  assert (Hp : 0 < 2 ^ n) by (apply Z.pow_pos_nonneg; lia).
  assert (Hq : 0 <= m / 2 ^ n) by (apply Z.div_pos; lia).
  assert (Hdq : Zdigits2 (m / 2 ^ n) <= Z.max (Zdigits2 m - n) 0).
  { destruct (Z.le_gt_cases n (Zdigits2 m)) as [Hle|Hgt].
    - rewrite Z.max_l by lia. apply Zdigits2_le; [exact Hq|lia|].
      apply Z.div_lt_upper_bound; [exact Hp|].
      rewrite <- Z.pow_add_r by lia.
      now replace (n + (Zdigits2 m - n)) with (Zdigits2 m) by lia.
    - rewrite Z.div_small; [cbn; lia|]. split; [exact Hm|].
      apply Z.lt_le_trans with (2 ^ Zdigits2 m); [exact Hup|].
      apply Z.pow_le_mono_r; lia. }
  pose proof (Zdigits2_nonneg _ Hq) as Hdq0.
  revert Hn. unfold fexp, SpecFloat.emin, prec, emax. lia.
Qed.

Lemma round_nearest_even_near N D mrs :
  0 < D -> locates N D mrs ->
  2 * Z.abs (round_nearest_even (shr_m mrs) (loc_of_shr_record mrs) * D - N)
    <= D /\
  shr_m mrs <= round_nearest_even (shr_m mrs) (loc_of_shr_record mrs)
            <= shr_m mrs + 1.
Proof.
  intros HD. destruct mrs as [m r s]. unfold locates.
  destruct r, s; cbn [shr_m shr_r shr_s loc_of_shr_record round_nearest_even];
    intros H; try destruct (Z.even m); lia.
Qed.

Lemma second_shift m1 e1 mr :
  0 <= m1 -> m1 <= mr <= m1 + 1 ->
  fexp prec emax (Zdigits2 m1 + e1) <= e1 -> -1074 <= e1 ->
  exists mrs2 k,
    shr_fexp prec emax mr e1 loc_Exact = (mrs2, e1 + k) /\
    (k = 0 \/ k = 1) /\ shr_m mrs2 * 2 ^ k = mr.
Proof.
  intros Hm1 Hmr Hfit Hmin.
  pose proof (Zdigits2_upper m1 Hm1) as Hup.
  pose proof (Zdigits2_nonneg m1 Hm1) as Hd1.
  assert (Hdr : Zdigits2 mr <= Zdigits2 m1 + 1).
  { apply Zdigits2_le; [lia|lia|]. rewrite Z.pow_add_r, Z.pow_1_r by lia. lia. }
  unfold shr_fexp, shr. cbn [shr_record_of_loc].
  destruct (fexp prec emax (Zdigits2 mr + e1) - e1) as [|p|p] eqn:Hn.
  - eexists _, 0. rewrite Z.add_0_r. split; [reflexivity|].
    split; [now left|]. cbn [shr_m]. now rewrite Z.pow_0_r, Z.mul_1_r.
  - assert (Hp : p = 1%positive /\ Zdigits2 mr = 54 /\ Zdigits2 m1 = 53).
    { revert Hn Hfit. unfold fexp, SpecFloat.emin, prec, emax. lia. }
    destruct Hp as (-> & Hr54 & H153).
    assert (Hmr53 : mr = 2 ^ 53).
    { assert (0 < mr) by (destruct mr; cbn in Hr54; lia).
      pose proof (Zdigits2_lower mr H) as Hlo. rewrite Hr54 in Hlo.
      rewrite H153 in Hup. change (54 - 1) with 53 in Hlo. lia. }
    subst mr. eexists _, 1. split; [reflexivity|]. split; [now right|].
    reflexivity.
  - eexists _, 0. rewrite Z.add_0_r. split; [reflexivity|].
    split; [now left|]. cbn [shr_m]. now rewrite Z.pow_0_r, Z.mul_1_r.
Qed.

(** What [binary_round_aux] returns for a mantissa [m] at exponent [e]
    that stands, with its location, for [N / D] units of [2^e]. *)
Lemma binary_round_aux_rounds s N D m e l :
  0 < D -> 0 <= m -> locates N D (shr_record_of_loc m l) ->
  let n := Z.max 0 (fexp prec emax (Zdigits2 m + e) - e) in
  match binary_round_aux prec emax s m e l with
  | S754_zero s' => s' = s /\ 2 * Z.abs N <= D * 2 ^ n /\ m / 2 ^ n = 0
  | S754_finite s' m2 e2 =>
      s' = s /\
      exists k, (k = 0 \/ k = 1) /\ e2 = e + n + k /\
                2 * Z.abs (Z.pos m2 * 2 ^ k * (D * 2 ^ n) - N) <= D * 2 ^ n
  | S754_infinity s' => s' = s
  | S754_nan => False
  end.
Proof.
  intros HD Hm Hl n.
  destruct (shr_fexp_locates N D m e l HD Hm Hl)
    as (n' & mrs & Hs & Hn & Hloc & Hm1 & Hdiv).
  fold n in Hn. subst n'.
  assert (H0n : 0 <= n) by (unfold n; lia).
  assert (HDn : 0 < D * 2 ^ n)
    by (apply Z.mul_pos_pos; [exact HD|apply Z.pow_pos_nonneg; lia]).
  destruct (round_nearest_even_near N _ mrs HDn Hloc) as [Hnear Hmr].
  destruct (shifted_fits m e n Hm eq_refl) as [Hfit Hmin].
  rewrite <- Hdiv in Hfit.
  destruct (second_shift (shr_m mrs) (e + n) _ Hm1 Hmr Hfit Hmin)
    as (mrs2 & k & Hs2 & Hk & Hval).
  unfold binary_round_aux. rewrite Hs, Hs2.
  assert (Hk0 : 0 < 2 ^ k) by (destruct Hk as [->| ->]; reflexivity).
  destruct (shr_m mrs2) as [|m2|m2] eqn:Hm2.
  - split; [reflexivity|]. rewrite Z.mul_0_l in Hval. rewrite <- Hval in *.
    split; [|lia]. revert Hnear. rewrite Z.mul_0_l. lia.
  - destruct (e + n + k <=? emax - prec); [|reflexivity].
    split; [reflexivity|]. exists k. split; [exact Hk|]. split; [reflexivity|].
    now rewrite Hval.
  - exfalso. assert (Z.neg m2 * 2 ^ k < 0) by nia. lia.
Qed.

Lemma new_location_locates b q r :
  0 < b -> 0 <= r < b ->
  locates (b * q + r) b (shr_record_of_loc q (new_location b r)).
Proof.
  intros Hb Hr. unfold new_location, new_location_even, new_location_odd.
  destruct (Z.even b) eqn:Heven.
  - destruct (Z.eqb_spec r 0) as [->|Hr0]; [unfold locates; cbn; lia|].
    destruct (Z.compare_spec (2 * r) b); unfold locates; cbn; lia.
  - assert (Hodd : exists k, b = 2 * k + 1).
    { apply Z.odd_spec. now rewrite <- Z.negb_even, Heven. }
    destruct Hodd as [k Hk].
    destruct (Z.eqb_spec r 0) as [->|Hr0]; [unfold locates; cbn; lia|].
    destruct (Z.compare_spec (2 * r + 1) b); unfold locates; cbn; lia.
Qed.

Lemma SFdiv_rounds s1 s2 pa pb :
  match SFdiv prec emax (S754_finite s1 pa 0) (S754_finite s2 pb 0) with
  | S754_zero s' => s' = xorb s1 s2 /\ 2 * Z.pos pa * 2 ^ 1074 <= Z.pos pb
  | S754_finite s' m e =>
      s' = xorb s1 s2 /\
      if 0 <=? e
      then 2 * Z.abs (Z.pos pb * Z.pos m * 2 ^ e - Z.pos pa) <= Z.pos pb * 2 ^ e
      else 2 * Z.abs (Z.pos pb * Z.pos m - Z.pos pa * 2 ^ (- e)) <= Z.pos pb
  | S754_infinity s' => s' = xorb s1 s2
  | S754_nan => False
  end.
Proof.
  cbn [SFdiv]. unfold SFdiv_core_binary.
  set (a := Z.pos pa). set (b := Z.pos pb).
  set (d1 := Zdigits2 a). set (d2 := Zdigits2 b).
  set (e' := Z.min (fexp prec emax (d1 + 0 - (d2 + 0))) (0 - 0)).
  set (s := 0 - 0 - e').
  assert (Ha : 0 < a) by (unfold a; lia).
  assert (Hb : 0 < b) by (unfold b; lia).
  assert (He' : -1074 <= e' <= 0 /\ s = - e' /\
                (-1074 < e' -> e' <= d1 - d2 - 53)).
  { unfold s, e', fexp, SpecFloat.emin, prec, emax. lia. }
  destruct He' as (He' & Hs & Hnorm).
  assert (Hs0 : 0 <= s) by lia.
  assert (HP : 0 < 2 ^ s) by (apply Z.pow_pos_nonneg; lia).
  set (m' := match s with
             | 0 => a
             | Z.pos _ => Z.shiftl a s
             | Z.neg _ => 0
             end).
  assert (Hm' : m' = a * 2 ^ s).
  { unfold m'. destruct s as [|p|p] eqn:Hsp; [cbn; lia| |lia].
    now rewrite Z.shiftl_mul_pow2 by lia. }
  pose proof (Z_div_mod m' b ltac:(lia)) as Hdm.
  destruct (Z.div_eucl m' b) as [q r]. destruct Hdm as [Hdm Hr].
  assert (Hq : 0 <= q) by nia.
  pose proof (binary_round_aux_rounds (xorb s1 s2) (b * q + r) b q e'
                (new_location b r) Hb Hq
                (new_location_locates b q r Hb Hr)) as H.
  cbv zeta in H.
  set (n := Z.max 0 (fexp prec emax (Zdigits2 q + e') - e')) in H.
  assert (Hn0 : 0 <= n) by (unfold n; lia).
  assert (Hn : 0 < 2 ^ n) by (apply Z.pow_pos_nonneg; lia).
  rewrite <- Hdm, Hm' in H.
  destruct (binary_round_aux prec emax (xorb s1 s2) q e' (new_location b r))
    as [s'|s'| |s' m2 e2]; try exact H.
  - (* zero *)
    destruct H as (-> & Hbound & Hq0). split; [reflexivity|].
    assert (He1 : e' + n = -1074).
    { destruct (Z.eq_dec q 0) as [->|Hqne].
      - assert (Hn' : n = 0)
          by (unfold n, fexp, SpecFloat.emin, prec, emax; cbn [Zdigits2]; lia).
        destruct (Z.eq_dec e' (-1074)) as [E|E]; [lia|]. exfalso.
        assert (Hle : e' <= d1 - d2 - 53) by (apply Hnorm; lia).
        pose proof (Zdigits2_lower a Ha) as Hlo. fold d1 in Hlo.
        pose proof (Zdigits2_upper b ltac:(lia)) as Hup. fold d2 in Hup.
        assert (Hd1 : 1 <= d1) by (unfold d1, a; cbn; lia).
        assert (Hd2 : 1 <= d2) by (unfold d2, b; cbn; lia).
        assert (H1 : 2 ^ (d1 - 1) * 2 ^ s <= a * 2 ^ s) by nia.
        rewrite <- Z.pow_add_r in H1 by lia.
        assert (H2 : 2 ^ d2 <= 2 ^ (d1 - 1 + s))
          by (apply Z.pow_le_mono_r; lia).
        lia.
      - assert (Hqpos : 0 < q) by lia.
        assert (Hlt : q < 2 ^ n).
        { destruct (Z.lt_ge_cases q (2 ^ n)) as [Hlt|Hge]; [exact Hlt|].
          exfalso. assert (1 <= q / 2 ^ n)
            by (apply Z.div_le_lower_bound; lia). lia. }
        pose proof (Zdigits2_le q n Hq Hn0 Hlt) as Hdq.
        assert (Hnpos : 0 < n).
        { destruct (Z.eq_dec n 0) as [E|E]; [|lia].
          rewrite E in Hlt. cbn in Hlt. lia. }
        pose proof (Zdigits2_nonneg q Hq) as Hdq0.
        revert Hnpos Hdq. unfold n, fexp, SpecFloat.emin, prec, emax. lia. }
    assert (Hsn : s = n + 1074) by lia.
    rewrite Hsn, Z.pow_add_r in Hbound by lia.
    rewrite Z.abs_eq in Hbound by nia.
    assert (Hfin : 2 * a * 2 ^ 1074 * 2 ^ n <= b * 2 ^ n) by lia.
    apply (Z.mul_le_mono_pos_r _ _ (2 ^ n)); [exact Hn|exact Hfin].
  - (* finite *)
    destruct H as (-> & k & Hk & He2 & Hbound). split; [reflexivity|].
    assert (Hk0 : 0 <= k) by lia.
    assert (HK : 1 <= 2 ^ k) by (destruct Hk as [->| ->]; cbn; lia).
    destruct (Z.leb_spec 0 e2) as [Hpos|Hneg].
    + assert (Hnk : n + k = s + e2) by lia.
      assert (Hpow : 2 ^ k * 2 ^ n = 2 ^ s * 2 ^ e2).
      { rewrite <- !Z.pow_add_r by lia. f_equal. lia. }
      assert (HQ : 0 < 2 ^ e2) by (apply Z.pow_pos_nonneg; lia).
      replace (Z.pos m2 * 2 ^ k * (b * 2 ^ n) - a * 2 ^ s)
        with ((b * Z.pos m2 * 2 ^ e2 - a) * 2 ^ s) in Hbound
        by (replace (Z.pos m2 * 2 ^ k * (b * 2 ^ n))
              with (Z.pos m2 * b * (2 ^ k * 2 ^ n)) by ring;
            rewrite Hpow; ring).
      rewrite Z.abs_mul, (Z.abs_eq (2 ^ s)) in Hbound by lia.
      assert (Hle : b * 2 ^ n <= b * 2 ^ e2 * 2 ^ s).
      { replace (b * 2 ^ e2 * 2 ^ s) with (b * (2 ^ s * 2 ^ e2)) by ring.
        rewrite <- Hpow. nia. }
      apply (Z.mul_le_mono_pos_r _ _ (2 ^ s)); [exact HP|]. lia.
    + assert (Hnk : s = n + k + - e2) by lia.
      assert (Hpow : 2 ^ s = 2 ^ k * 2 ^ n * 2 ^ (- e2)).
      { rewrite <- !Z.pow_add_r by lia. f_equal. lia. }
      replace (Z.pos m2 * 2 ^ k * (b * 2 ^ n) - a * 2 ^ s)
        with ((b * Z.pos m2 - a * 2 ^ (- e2)) * (2 ^ k * 2 ^ n)) in Hbound
        by (rewrite Hpow; ring).
      assert (HKN : 0 < 2 ^ k * 2 ^ n) by nia.
      rewrite Z.abs_mul, (Z.abs_eq (2 ^ k * 2 ^ n)) in Hbound by lia.
      assert (Hle : b * 2 ^ n <= b * (2 ^ k * 2 ^ n)) by nia.
      apply (Z.mul_le_mono_pos_r _ _ (2 ^ k * 2 ^ n)); [exact HKN|]. lia.
Qed.

Lemma int_truediv_rounds a b f :
  0 < b -> int_truediv a b = Ok f -> nearest_quotient f a b = true.
Proof.
  intros Hb. unfold int_truediv.
  destruct (Z.eqb_spec b 0) as [->|_]; [lia|].
  destruct (Z.eqb_spec a 0) as [->|Ha].
  { intros [= <-]. cbn [nearest_quotient]. apply Z.leb_le. cbn. lia. }
  destruct b as [|pb|pb]; try lia.
  destruct a as [|pa|pa]; [lia|..]; cbn [exact_of_Z].
  - pose proof (SFdiv_rounds false false pa pb) as H.
    destruct (SFdiv prec emax _ _) as [s|s| |s m e]; try discriminate;
      try (exfalso; exact H); intros [= <-]; cbn [nearest_quotient].
    + apply Z.leb_le. cbn [Z.abs]. now destruct H.
    + destruct H as [-> H]. cbn [xorb cond_Zopp].
      destruct (0 <=? e); apply Z.leb_le; exact H.
  - pose proof (SFdiv_rounds true false pa pb) as H.
    destruct (SFdiv prec emax _ _) as [s|s| |s m e]; try discriminate;
      try (exfalso; exact H); intros [= <-]; cbn [nearest_quotient].
    + apply Z.leb_le. cbn [Z.abs]. now destruct H.
    + destruct H as [-> H]. cbn [xorb cond_Zopp].
      destruct (0 <=? e); apply Z.leb_le.
      * replace (Z.pos pb * - Z.pos m * 2 ^ e - Z.neg pa)
          with (- (Z.pos pb * Z.pos m * 2 ^ e - Z.pos pa)) by lia.
        now rewrite Z.abs_opp.
      * replace (Z.pos pb * - Z.pos m - Z.neg pa * 2 ^ (- e))
          with (- (Z.pos pb * Z.pos m - Z.pos pa * 2 ^ (- e))) by lia.
        now rewrite Z.abs_opp.
Qed.

Section Properties.

Context (cfg : Settings) (w : World).

(** *** The computations, step by step *)

Lemma bind_ok {A B} (m : M A) (k : A -> M B) st a st' :
  m st = (Ok a, st') -> bind m k st = k a st'.
Proof. intros H. unfold bind. now rewrite H. Qed.

Lemma bind_raise {A B} (m : M A) (k : A -> M B) st e st' :
  m st = (Raise e, st') -> bind m k st = (Raise e, st').
Proof. intros H. unfold bind. now rewrite H. Qed.

Lemma try_ok {A} (m : M A) c h st a st' :
  m st = (Ok a, st') -> try_except m c h st = (Ok a, st').
Proof. intros H. unfold try_except. now rewrite H. Qed.

Lemma try_caught {A} (m : M A) c h st e st' :
  m st = (Raise e, st') -> c e = true -> try_except m c h st = h e st'.
Proof. intros H Hc. unfold try_except. now rewrite H, Hc. Qed.

Lemma try_passed {A} (m : M A) c h st e st' :
  m st = (Raise e, st') -> c e = false ->
  try_except m c h st = (Raise e, st').
Proof. intros H Hc. unfold try_except. now rewrite H, Hc. Qed.

Lemma call_eq {A} ev (r : res A) st : call ev r st = (r, logged ev st).
Proof. reflexivity. Qed.

Lemma is_stable_address_true a :
  a = STABLE_TOKEN_ADDRESS cfg -> is_stable_address cfg a = true.
Proof. intros ->. apply String.eqb_refl. Qed.

Lemma is_stable_address_false a :
  a <> STABLE_TOKEN_ADDRESS cfg -> is_stable_address cfg a = false.
Proof. intros H. now apply String.eqb_neq. Qed.

(** *** The peg *)

Lemma one_is_not_zero : py_eq_int (PFloat f_one) 0 = false.
Proof. vm_compute. reflexivity. Qed.

(** C2. For the token whose address equals the configured reference
    asset address, every price method returns exactly 1.0 and leaves the
    trace of outside calls as it was, whatever the services would have
    answered; price resolution stores that 1.0 and nothing else. *)
Theorem reference_asset_is_pegged (fuel : nat) (self : Token) (st : state) :
  address self = STABLE_TOKEN_ADDRESS cfg ->
  dexscreener_price_in_stables cfg w self st = (Ok (PFloat f_one), st) /\
  defillama_price_in_stables cfg w self st = (Ok (PFloat f_one), st) /\
  chain_price_in_stables cfg w (find cfg w fuel) self st
    = (Ok (PFloat f_one), st) /\
  aggregated_price_in_stables cfg w self st = (Ok (PFloat f_one), st) /\
  _update_price cfg w (find cfg w fuel) self st
    = (Ok (set_price self (PFloat f_one)),
       mkState (<[address self := set_price self (PFloat f_one)]> (store st))
               (trace st)).
Proof.
  intros Hpeg.
  assert (Hd : dexscreener_price_in_stables cfg w self st
               = (Ok (PFloat f_one), st)).
  { unfold dexscreener_price_in_stables.
    now rewrite (is_stable_address_true _ Hpeg). }
  assert (Ho : defillama_price_in_stables cfg w self st
               = (Ok (PFloat f_one), st)).
  { unfold defillama_price_in_stables.
    now rewrite (is_stable_address_true _ Hpeg). }
  assert (Ha : aggregated_price_in_stables cfg w self st
               = (Ok (PFloat f_one), st)).
  { unfold aggregated_price_in_stables.
    rewrite (bind_ok _ _ _ _ _ Hd), one_is_not_zero.
    destruct (is_bluechip cfg (address self)); cbn [negb andb]; [|reflexivity].
    now rewrite (try_ok _ _ _ _ _ _ Ho). }
  repeat split; try assumption.
  - unfold chain_price_in_stables.
    now rewrite (is_stable_address_true _ Hpeg).
  - unfold _update_price. rewrite (bind_ok _ _ _ _ _ Ha).
    cbn [set_price price]. rewrite one_is_not_zero. reflexivity.
Qed.

(** *** Primary and secondary pass *)

Lemma defillama_trace (self : Token) (st : state) :
  address self <> STABLE_TOKEN_ADDRESS cfg ->
  trace (snd (defillama_price_in_stables cfg w self st))
    = (trace st ++ [OracleGet ("kava:" ++ lower (address self))])%list.
Proof.
  intros Hne. unfold defillama_price_in_stables.
  rewrite (is_stable_address_false _ Hne).
  unfold bind. rewrite call_eq.
  destruct (oracle_json w _); reflexivity.
Qed.

(** C1. Once the screener pass has returned a price [p], that price is
    the result of [aggregated_price_in_stables], with no oracle call,
    exactly when [p != 0] and the address is not a bluechip; in every
    other case the oracle pass is run and decides (its price when it
    returns, [p] when it raises one of the two caught faults), and for a
    bluechip whose oracle pass returns [q] the result is [q] whatever [p]
    was. *)
Theorem screener_price_final_iff_trusted
  (self : Token) (st st1 : state) (p : pyval) :
  dexscreener_price_in_stables cfg w self st = (Ok p, st1) ->
  let trusted :=
    negb (py_eq_int p 0) && negb (is_bluechip cfg (address self)) in
  (trusted = true ->
     aggregated_price_in_stables cfg w self st = (Ok p, st1)) /\
  (trusted = false ->
     forall r st2,
       defillama_price_in_stables cfg w self st1 = (r, st2) ->
       aggregated_price_in_stables cfg w self st
         = (match r with
            | Ok q => Ok q
            | Raise e => if oracle_fault e then Ok p else Raise e
            end, st2)) /\
  (trusted = false -> address self <> STABLE_TOKEN_ADDRESS cfg ->
     trace (snd (aggregated_price_in_stables cfg w self st))
       = (trace st1 ++ [OracleGet ("kava:" ++ lower (address self))])%list) /\
  (is_bluechip cfg (address self) = true ->
     forall q st2,
       defillama_price_in_stables cfg w self st1 = (Ok q, st2) ->
       aggregated_price_in_stables cfg w self st = (Ok q, st2)).
Proof.
  intros Hd trusted.
  assert (Hother : trusted = false ->
     forall r st2,
       defillama_price_in_stables cfg w self st1 = (r, st2) ->
       aggregated_price_in_stables cfg w self st
         = (match r with
            | Ok q => Ok q
            | Raise e => if oracle_fault e then Ok p else Raise e
            end, st2)).
  { intros Ht r st2 Ho. unfold aggregated_price_in_stables.
    rewrite (bind_ok _ _ _ _ _ Hd). fold trusted. rewrite Ht.
    unfold try_except. rewrite Ho.
    destruct r as [q|e]; [reflexivity|]. now destruct (oracle_fault e). }
  repeat split.
  - intros Ht. unfold aggregated_price_in_stables.
    rewrite (bind_ok _ _ _ _ _ Hd). fold trusted. now rewrite Ht.
  - exact Hother.
  - intros Ht Hne.
    pose proof (defillama_trace self st1 Hne) as Htr.
    destruct (defillama_price_in_stables cfg w self st1) as [r st2] eqn:Ho.
    rewrite (Hother Ht r st2 eq_refl). exact Htr.
  - intros Hb q st2 Ho. apply (Hother) with (r := Ok q); [|exact Ho].
    subst trusted. rewrite Hb. now rewrite andb_false_r.
Qed.

(** *** The screener pass on a decoded response *)

Lemma pairs_on_kava_filter (pairs : list pyval) :
  forallb has_chain_id pairs = true ->
  pairs_on_kava pairs = Ok (List.filter on_this_chain pairs).
Proof.
  induction pairs as [|pr rest IH]; [reflexivity|].
  cbn [forallb]. intros [Hpr Hrest]%andb_prop.
  cbn [pairs_on_kava List.filter]. rewrite (IH Hrest).
  unfold has_chain_id in Hpr. unfold on_this_chain.
  destruct (py_getitem pr "chainId") as [c|e]; [|discriminate].
  now destruct (py_eq_str c "kava").
Qed.

(** A pair without a chain id stops the pass, wherever it stands. *)
Lemma pairs_on_kava_missing_chain_id (pre post : list pyval)
  (pd : list (string * pyval)) :
  forallb has_chain_id pre = true ->
  assoc "chainId" pd = None ->
  pairs_on_kava (pre ++ PDict pd :: post) = Raise KeyError.
Proof.
  intros Hpre Hpd. induction pre as [|pr pre IH]; cbn [app pairs_on_kava].
  - cbn [py_getitem]. now rewrite Hpd.
  - cbn [forallb] in Hpre. apply andb_prop in Hpre as [Hpr Hpre].
    unfold has_chain_id in Hpr.
    destruct (py_getitem pr "chainId"); [|discriminate].
    now rewrite (IH Hpre).
Qed.

Lemma head_filter_find {A} (f : A -> bool) (l : list A) :
  head (List.filter f l) = List.find f l.
Proof.
  induction l as [|x l IH]; [reflexivity|].
  cbn [List.filter List.find]. now destruct (f x).
Qed.

(** On a response whose pairs all carry a chain id, the code computes
    what the description says. *)
Lemma screener_price_described (d : list (string * pyval)) (pairs : list pyval) :
  assoc "pairs" d = Some (PList pairs) ->
  forallb has_chain_id pairs = true ->
  screener_price (PDict d) = described_screener_price pairs.
Proof.
  intros Hd Hwf. unfold screener_price, described_screener_price, selected_pair.
  cbn [py_get]. rewrite Hd.
  destruct pairs as [|pr0 rest]; [reflexivity|].
  cbn [py_or py_truthy py_len py_iter].
  replace (Z.of_nat (List.length (pr0 :: rest)) =? 0) with false
    by (symmetry; apply Z.eqb_neq; cbn [List.length]; lia).
  rewrite (pairs_on_kava_filter _ Hwf), <- head_filter_find.
  destruct (List.filter on_this_chain (pr0 :: rest)) as [|pr l]; reflexivity.
Qed.

Lemma strip_commas_no_comma (s : string) : has_comma (strip_commas s) = false.
Proof.
  unfold has_comma. induction s as [|c s IH]; [reflexivity|].
  cbn [strip_commas]. destruct (Ascii.eqb c ",") eqn:Hc; [exact IH|].
  cbn [list_ascii_of_string existsb]. now rewrite Hc.
Qed.

#[local] Set Warnings "-inexact-float".

(** C4 (amended). On a screener response whose [pairs] field is
    missing or empty (null, 0, an empty text, list or object), the
    primary pass yields 0.  On one whose [pairs] field is a list of
    pairs that all carry a [chainId], it yields 0 when no pair is
    reported and otherwise the parsed price of the first pair on this
    chain, or of the first pair reported when none is on this chain; the
    price text is parsed by [float] with every comma removed, and
    ["140344,272.43"] parses to the float 140344272.43, the binary64
    number nearest to that decimal. *)
Theorem screener_price_selection
  (d : list (string * pyval)) (pairs : list pyval) :
  (py_truthy (field d "pairs" PNone) = false ->
   screener_price (PDict d) = Ok (PInt 0)) /\
  (assoc "pairs" d = Some (PList pairs) ->
  forallb has_chain_id pairs = true ->
  screener_price (PDict d) = described_screener_price pairs /\
  (pairs = [] -> screener_price (PDict d) = Ok (PInt 0)) /\
  (forall pre pr post,
     pairs = (pre ++ pr :: post)%list ->
     forallb (fun x => negb (on_this_chain x)) pre = true ->
     on_this_chain pr = true ->
     selected_pair pairs = Some pr) /\
  (forall pr rest,
     pairs = pr :: rest ->
     forallb (fun x => negb (on_this_chain x)) pairs = true ->
     selected_pair pairs = Some pr) /\
  (forall pd s,
     assoc "priceUsd" pd = Some (PStr s) -> s <> "" ->
     has_comma (strip_commas s) = false /\
     pair_price (PDict pd)
       = match float_of_string (strip_commas s) with
         | Some f => Ok f
         | None => Raise ValueError
         end) /\
  (pair_price (one_pair "kava" "140344,272.43") = Ok f_quoted /\
   valid_binary prec emax f_quoted = true /\
   within_half_ulp f_quoted 14034427243 100 = true)).
Proof.
  split.
  { unfold field, screener_price, py_or. cbn [py_get].
    intros Hf. now rewrite Hf. }
  intros Hd Hwf.
  pose proof (screener_price_described d pairs Hd Hwf) as Heq.
  split; [exact Heq|]. split; [|split; [|split; [|split]]].
  - intros ->. now rewrite Heq.
  - intros pre pr post -> Hpre Hpr. unfold selected_pair.
    assert (Hfind : List.find on_this_chain (pre ++ pr :: post) = Some pr).
    { clear Hd Hwf Heq. induction pre as [|x pre IH]; cbn [app List.find].
      - now rewrite Hpr.
      - cbn [forallb] in Hpre. apply andb_prop in Hpre as [Hx Hpre].
        apply negb_true_iff in Hx. rewrite Hx. now apply IH. }
    now rewrite Hfind.
  - intros pr rest -> Hnone. unfold selected_pair.
    assert (Hfind : forall l, forallb (fun x => negb (on_this_chain x)) l = true ->
                              List.find on_this_chain l = None).
    { induction l as [|x l IH]; [reflexivity|].
      cbn [forallb List.find]. intros [Hx Hl]%andb_prop.
      apply negb_true_iff in Hx. rewrite Hx. now apply IH. }
    now rewrite (Hfind _ Hnone).
  - intros pd s Hs Hne. split; [apply strip_commas_no_comma|].
    unfold pair_price. cbn [py_get]. rewrite Hs.
    unfold py_or. cbn [py_truthy].
    replace (String.eqb s "") with false
      by (symmetry; now apply String.eqb_neq).
    reflexivity.
  - repeat split; vm_compute; reflexivity.
Qed.

(** The parser agrees with Rocq's own reading of the literal. *)
Lemma float_of_string_agrees_with_literal :
  float_of_string "140344272.43" = Some (Prim2SF 140344272.43%float) /\
  Prim2SF 140344272.43%float = f_quoted.
Proof. split; vm_compute; reflexivity. Qed.

(** C10. The screener pass is total on the degenerate shapes: a response
    whose [pairs] field is missing, null or empty yields 0, and a
    selected pair whose [priceUsd] field is missing, null or empty
    yields the price 0.0, with no parse error. *)
Theorem screener_price_degenerate
  (d pd : list (string * pyval)) (pairs : list pyval) :
  (no_pairs_reported d = true -> screener_price (PDict d) = Ok (PInt 0)) /\
  (no_price_text pd = true -> pair_price (PDict pd) = Ok f_zero) /\
  (assoc "pairs" d = Some (PList pairs) ->
   forallb has_chain_id pairs = true ->
   selected_pair pairs = Some (PDict pd) ->
   no_price_text pd = true ->
   screener_price (PDict d) = Ok (PFloat f_zero)).
Proof.
  assert (Hprice : no_price_text pd = true -> pair_price (PDict pd) = Ok f_zero).
  { unfold no_price_text, pair_price. cbn [py_get].
    destruct (assoc "priceUsd" pd) as [v|]; [|intros _; vm_compute; reflexivity].
    destruct v as [| | | |s| |]; try discriminate.
    - intros _. vm_compute. reflexivity.
    - destruct s as [|c s]; [|discriminate]. intros _. vm_compute. reflexivity. }
  split; [|split].
  - unfold no_pairs_reported, screener_price. cbn [py_get].
    destruct (assoc "pairs" d) as [[| | | | |l|]|]; try discriminate;
      try (intros _; reflexivity).
    destruct l; [|discriminate]. reflexivity.
  - exact Hprice.
  - intros Hd Hwf Hsel Hnp.
    rewrite (screener_price_described d pairs Hd Hwf).
    unfold described_screener_price. rewrite Hsel, (Hprice Hnp). reflexivity.
Qed.

(** *** The router pass *)

Lemma update_price_eq (find_ : option string -> M (option Token))
  (self : Token) (st st1 : state) (p : pyval) :
  aggregated_price_in_stables cfg w self st = (Ok p, st1) ->
  _update_price cfg w find_ self st
    = if py_eq_int p 0
      then match chain_price_in_stables cfg w find_ (set_price self p) st1 with
           | (Ok p', st2) =>
               (Ok (set_price self p'), saved (set_price self p') st2)
           | (Raise e, st2) => (Raise e, st2)
           end
      else (Ok (set_price self p), saved (set_price self p) st1).
Proof.
  intros Ha. unfold _update_price. rewrite (bind_ok _ _ _ _ _ Ha).
  cbn [set_price price]. destruct (py_eq_int p 0); [|reflexivity].
  unfold bind at 1. unfold bind at 1.
  destruct (chain_price_in_stables cfg w find_ _ st1) as [[p'|e] st2];
    reflexivity.
Qed.

Lemma update_price_raise (find_ : option string -> M (option Token))
  (self : Token) (st st1 : state) (e : exn) :
  aggregated_price_in_stables cfg w self st = (Raise e, st1) ->
  _update_price cfg w find_ self st = (Raise e, st1).
Proof.
  intros Ha. unfold _update_price. now rewrite (bind_raise _ _ _ _ _ Ha).
Qed.

Lemma chain_price_eq (find_ : option string -> M (option Token))
  (self sc : Token) (st st1 : state) (amount_in : pyval) :
  address self <> STABLE_TOKEN_ADDRESS cfg ->
  find_ (Some (STABLE_TOKEN_ADDRESS cfg)) st = (Ok (Some sc), st1) ->
  pow10 w (decimals self) = Ok amount_in ->
  chain_price_in_stables cfg w find_ self st
    = match router_getAmountOut w (ROUTER_ADDRESS cfg) amount_in
              (address self) (address sc) with
      | Ok (amount, _) =>
          (match pow10 w (decimals sc) with
           | Ok q => truediv amount q
           | Raise e => Raise e
           end,
           logged (RouterCall amount_in (address self) (address sc)) st1)
      | Raise e =>
          (if is_revert e then Ok (PInt 0) else Raise e,
           logged (RouterCall amount_in (address self) (address sc)) st1)
      end.
Proof.
  intros Hne Hf Hp. unfold chain_price_in_stables.
  rewrite (is_stable_address_false _ Hne), (bind_ok _ _ _ _ _ Hf).
  unfold bind, try_except, lift, ret. rewrite Hp, call_eq.
  destruct (router_getAmountOut w _ _ _ _) as [[amount b]|e].
  - destruct (pow10 w (decimals sc)); reflexivity.
  - destruct (is_revert e); reflexivity.
Qed.

(** C5. The router pass runs exactly when the price chosen by the first
    two passes compares equal to 0.  A non-zero price ends the
    resolution with no further call: it is the price of the record
    handed to [save], and a price that is a number is returned and
    stored as it is.  On a zero price the result is the router pass's.
    In that pass, once the reference asset is found, a contract-logic
    revert yields 0 and a returned amount yields the amount divided by
    10 to the power of the reference asset's decimals: for decimals
    that are a natural number [d], the float within half a unit in the
    last place of [amount / 10^d], or [OverflowError] when that is
    beyond the floats. *)
Theorem router_pass_iff_zero
  (fuel : nat) (self : Token) (st st1 : state) (p : pyval) :
  aggregated_price_in_stables cfg w self st = (Ok p, st1) ->
  let resolve := _update_price cfg w (find cfg w fuel) self st in
  let quote :=
    chain_price_in_stables cfg w (find cfg w fuel) (set_price self p) st1 in
  (py_eq_int p 0 = false ->
     trace (snd resolve) = trace st1 /\
     (forall t, fst resolve = Ok t -> t = set_price self p) /\
     (numeric_price p = true ->
      resolve = (Ok (set_price self p), saved (set_price self p) st1))) /\
  (py_eq_int p 0 = true ->
     resolve = match quote with
               | (Ok p', st2) =>
                   (Ok (set_price self p'), saved (set_price self p') st2)
               | (Raise e, st2) => (Raise e, st2)
               end) /\
  (forall sc st2 amount_in,
     address self <> STABLE_TOKEN_ADDRESS cfg ->
     find cfg w fuel (Some (STABLE_TOKEN_ADDRESS cfg)) st1
       = (Ok (Some sc), st2) ->
     pow10 w (decimals self) = Ok amount_in ->
     let asked := logged (RouterCall amount_in (address self) (address sc)) st2 in
     let answer :=
       router_getAmountOut w (ROUTER_ADDRESS cfg) amount_in
         (address self) (address sc) in
     (answer = Raise ContractLogicError -> quote = (Ok (PInt 0), asked)) /\
     (forall amount is_stable, answer = Ok (amount, is_stable) ->
        (forall q, pow10 w (decimals sc) = Ok q ->
           quote = (truediv amount q, asked)) /\
        (forall d, decimals sc = PInt d -> 0 <= d ->
           quote = (match int_truediv amount (10 ^ d) with
                    | Ok f => Ok (PFloat f)
                    | Raise e => Raise e
                    end, asked) /\
           (forall f, int_truediv amount (10 ^ d) = Ok f ->
              nearest_quotient f amount (10 ^ d) = true) /\
           (forall e, int_truediv amount (10 ^ d) = Raise e ->
              e = OverflowError)))).
Proof.
  intros Ha resolve quote.
  pose proof (update_price_eq (find cfg w fuel) self st st1 p Ha) as Hu.
  fold resolve in Hu. fold quote in Hu.
  split; [|split].
  - intros Hz. rewrite Hz in Hu. rewrite Hu. cbn [fst snd saved trace].
    split; [reflexivity|]. split; [now intros t [= <-]|reflexivity].
  - intros Hz. now rewrite Hu, Hz.
  - intros sc st2 amount_in Hne Hf Hp asked answer.
    pose proof (chain_price_eq (find cfg w fuel) (set_price self p) sc st1 st2
                  amount_in Hne Hf Hp) as Hc.
    cbn [set_price address] in Hc. fold quote in Hc. fold asked in Hc.
    fold answer in Hc. split.
    + intros Hr. rewrite Hc, Hr. reflexivity.
    + intros amount b Hr. rewrite Hr in Hc. split.
      * intros q Hq. now rewrite Hc, Hq.
      * intros d Hd Hd0.
        assert (Hpos : 0 < 10 ^ d) by (apply Z.pow_pos_nonneg; lia).
        split; [|split].
        -- rewrite Hc, Hd. cbn [pow10].
           replace (0 <=? d) with true by (symmetry; now apply Z.leb_le).
           reflexivity.
        -- intros f. now apply int_truediv_rounds.
        -- intros e. unfold int_truediv.
           destruct (Z.eqb_spec (10 ^ d) 0) as [E|_]; [lia|].
           destruct (amount =? 0); [discriminate|].
           destruct (SFdiv prec emax _ _); try discriminate.
           now intros [= <-].
Qed.

(** *** Computations that leave the store alone *)

Lemma state_eta (st : state) : mkState (store st) (trace st) = st.
Proof. now destruct st. Qed.

Lemma net_only_ret {A} (a : A) : net_only (ret a).
Proof.
  exists (Ok a), []. intros st. unfold ret.
  now rewrite app_nil_r, state_eta.
Qed.

Lemma net_only_lift {A} (r : res A) : net_only (lift r).
Proof.
  exists r, []. intros st. unfold lift.
  now rewrite app_nil_r, state_eta.
Qed.

Lemma net_only_call {A} ev (r : res A) : net_only (call ev r).
Proof. exists r, [ev]. intros st. reflexivity. Qed.

Lemma net_only_bind {A B} (m : M A) (k : A -> M B) :
  net_only m -> (forall a, net_only (k a)) -> net_only (bind m k).
Proof.
  intros (r & evs & Hm) Hk. destruct r as [a|e].
  - destruct (Hk a) as (r' & evs' & Hka).
    exists r', (evs ++ evs')%list. intros st.
    rewrite (bind_ok _ _ _ _ _ (Hm st)), Hka. cbn [store trace].
    now rewrite app_assoc.
  - exists (Raise e), evs. intros st.
    now rewrite (bind_raise _ _ _ _ _ (Hm st)).
Qed.

Lemma net_only_try {A} (m : M A) c (h : exn -> M A) :
  net_only m -> (forall e, net_only (h e)) -> net_only (try_except m c h).
Proof.
  intros (r & evs & Hm) Hh. destruct r as [a|e].
  - exists (Ok a), evs. intros st. now rewrite (try_ok _ _ _ _ _ _ (Hm st)).
  - destruct (c e) eqn:Hc.
    + destruct (Hh e) as (r' & evs' & Hhe).
      exists r', (evs ++ evs')%list. intros st.
      rewrite (try_caught _ _ _ _ _ _ (Hm st) Hc), Hhe. cbn [store trace].
      now rewrite app_assoc.
    + exists (Raise e), evs. intros st.
      now rewrite (try_passed _ _ _ _ _ _ (Hm st) Hc).
Qed.

Lemma net_only_dexscreener self :
  net_only (dexscreener_price_in_stables cfg w self).
Proof.
  unfold dexscreener_price_in_stables.
  destruct (is_stable_address cfg (address self)).
  - apply net_only_ret.
  - apply net_only_bind; [apply net_only_call|intros; apply net_only_lift].
Qed.

Lemma net_only_defillama self :
  net_only (defillama_price_in_stables cfg w self).
Proof.
  unfold defillama_price_in_stables.
  destruct (is_stable_address cfg (address self)).
  - apply net_only_ret.
  - apply net_only_bind; [apply net_only_call|intros; apply net_only_lift].
Qed.

Lemma net_only_aggregated self :
  net_only (aggregated_price_in_stables cfg w self).
Proof.
  unfold aggregated_price_in_stables.
  apply net_only_bind; [apply net_only_dexscreener|].
  intros p. destruct (_ && _).
  - apply net_only_ret.
  - apply net_only_try; [apply net_only_defillama|intros; apply net_only_ret].
Qed.

Lemma net_only_store {A} (m : M A) st r st' :
  net_only m -> m st = (r, st') -> store st' = store st.
Proof.
  intros (r0 & evs & Hm) H. rewrite Hm in H.
  injection H as _ <-. reflexivity.
Qed.



(** *** The router pass, unfolded *)

Lemma chain_price_unfold (find_ : option string -> M (option Token))
  (self : Token) (st : state) :
  chain_price_in_stables cfg w find_ self st
    = if is_stable_address cfg (address self) then (Ok (PFloat f_one), st)
      else match find_ (Some (STABLE_TOKEN_ADDRESS cfg)) st with
           | (Ok (Some sc), st1) => router_quote cfg w self sc st1
           | (Ok None, st1) => (Raise AttributeError, st1)
           | (Raise e, st1) => (Raise e, st1)
           end.
Proof.
  unfold chain_price_in_stables.
  destruct (is_stable_address cfg (address self)); [reflexivity|].
  unfold bind at 1.
  destruct (find_ (Some (STABLE_TOKEN_ADDRESS cfg)) st) as [[[sc|]|e] st1];
    reflexivity.
Qed.

Lemma net_only_router_quote self sc : net_only (router_quote cfg w self sc).
Proof.
  unfold router_quote. apply net_only_bind.
  - apply net_only_try; [|intros; apply net_only_ret].
    apply net_only_bind; [apply net_only_lift|]. intros a.
    apply net_only_bind; [apply net_only_call|intros; apply net_only_ret].
  - intros [[amount b]|]; [|apply net_only_ret].
    apply net_only_bind; [apply net_only_lift|intros; apply net_only_lift].
Qed.


Lemma chain_price_ext (find1 find2 : option string -> M (option Token))
  (self : Token) (st : state) :
  find1 (Some (STABLE_TOKEN_ADDRESS cfg)) st
    = find2 (Some (STABLE_TOKEN_ADDRESS cfg)) st ->
  chain_price_in_stables cfg w find1 self st
    = chain_price_in_stables cfg w find2 self st.
Proof. intros H. rewrite !chain_price_unfold. now rewrite H. Qed.

Lemma update_price_ext (find1 find2 : option string -> M (option Token))
  (self : Token) (st : state) :
  (forall st1, store st1 = store st ->
     find1 (Some (STABLE_TOKEN_ADDRESS cfg)) st1
       = find2 (Some (STABLE_TOKEN_ADDRESS cfg)) st1) ->
  _update_price cfg w find1 self st = _update_price cfg w find2 self st.
Proof.
  intros H.
  destruct (aggregated_price_in_stables cfg w self st) as [[p|e] st1] eqn:Ha.
  - rewrite !(update_price_eq _ _ _ _ _ Ha).
    rewrite (chain_price_ext find1 find2); [reflexivity|].
    apply H. exact (net_only_store _ _ _ _ (net_only_aggregated self) Ha).
  - now rewrite !(update_price_raise _ _ _ _ _ Ha).
Qed.

(** *** [find]: hits, misses and the nesting bound *)

Lemma lower_ascii_idem c : lower_ascii (lower_ascii c) = lower_ascii c.
Proof.
  destruct c as [[] [] [] [] [] [] [] []]; vm_compute; reflexivity.
Qed.

Lemma lower_idem s : lower (lower s) = lower s.
Proof.
  induction s as [|c s IH]; [reflexivity|].
  cbn [lower]. now rewrite lower_ascii_idem, IH.
Qed.

Lemma find_none fuel st : find cfg w fuel None st = (Ok None, st).
Proof. destruct fuel; reflexivity. Qed.

Lemma find_hit fuel a t st :
  store st !! lower a = Some t ->
  find cfg w fuel (Some a) st = (Ok (Some t), st).
Proof.
  intros H. destruct fuel; cbn [find]; unfold try_except, bind, load;
    now rewrite H.
Qed.

Lemma find_miss fuel a st :
  store st !! lower a = None ->
  find cfg w (S fuel) (Some a) st
    = match from_chain cfg w (find cfg w fuel) (lower a) st with
      | (Ok t, st') => (Ok (Some t), st')
      | (Raise e, st') => (Raise e, st')
      end.
Proof.
  intros H. cbn [find]. unfold try_except at 1, bind at 1, load.
  rewrite H. cbn [is_key_error]. unfold bind at 1.
  destruct (from_chain cfg w (find cfg w fuel) (lower a) st) as [[t|e] st'];
    reflexivity.
Qed.

Lemma from_chain_unfold (find_ : option string -> M (option Token)) a st :
  from_chain cfg w find_ a st
    = let st0 := logged (IdentityMulticall (lower a)) st in
      match chain_identity w (lower a) with
      | Raise e => (Raise e, st0)
      | Ok (n, s, d) =>
          let fresh := mkToken (lower a) (PStr n) (PStr s) (PInt d)
                               PNone (PInt 0) (PInt 0) PNone in
          match _update_price cfg w find_ fresh (saved fresh st0) with
          | (Ok t, st1) => (Ok t, logged LogDebug st1)
          | (Raise e, st1) => (Raise e, st1)
          end
      end.
Proof.
  unfold from_chain. unfold bind at 1. rewrite call_eq.
  destruct (chain_identity w (lower a)) as [[[n s] d]|e]; [|reflexivity].
  cbv zeta. unfold bind at 1, create at 1, bind at 1, save at 1, ret at 1.
  unfold bind at 1.
  change (mkState (<[?k := ?t]> (store ?x)) (trace ?x)) with (saved t x).
  destruct (_update_price cfg w find_ _ _) as [[t|e] st1]; reflexivity.
Qed.

(** *** What the methods write *)

Lemma only_adds_refl allowed st st' :
  store st' = store st -> only_adds allowed st st'.
Proof. intros H k. left. now rewrite H. Qed.

Lemma only_adds_store allowed st st1 st' :
  only_adds allowed st st1 -> store st' = store st1 ->
  only_adds allowed st st'.
Proof. intros H Hs k. rewrite Hs. apply H. Qed.

Lemma chain_price_only_adds find_ self st r st' :
  adds_reference_only cfg find_ ->
  chain_price_in_stables cfg w find_ self st = (r, st') ->
  only_adds (is_reference_key cfg) st st'.
Proof.
  intros Hf. rewrite chain_price_unfold.
  destruct (is_stable_address cfg (address self)).
  - intros [= _ <-]. now apply only_adds_refl.
  - destruct (find_ (Some (STABLE_TOKEN_ADDRESS cfg)) st)
      as [[[sc|]|e] st1] eqn:Hfind; pose proof (Hf _ _ _ Hfind) as Hadd.
    + intros Hq. apply (only_adds_store _ _ st1); [exact Hadd|].
      exact (net_only_store _ _ _ _ (net_only_router_quote self sc) Hq).
    + now intros [= _ <-].
    + now intros [= _ <-].
Qed.

(** Price resolution writes the record it was called on, and may add the
    reference asset's record; it returns the record it was given with a
    new price, as stored. *)
Lemma update_price_writes find_ self st r st' :
  adds_reference_only cfg find_ ->
  _update_price cfg w find_ self st = (r, st') ->
  (forall k, k <> address self ->
     store st' !! k = store st !! k \/
     (store st !! k = None /\ is_reference_key cfg k)) /\
  (forall t, r = Ok t ->
     t = set_price self (price t) /\ store st' !! address self = Some t).
Proof.
  intros Hf.
  destruct (aggregated_price_in_stables cfg w self st) as [[p|e] st1] eqn:Ha;
    pose proof (net_only_store _ _ _ _ (net_only_aggregated self) Ha) as Hs1.
  - rewrite (update_price_eq _ _ _ _ _ Ha).
    destruct (py_eq_int p 0).
    + destruct (chain_price_in_stables cfg w find_ (set_price self p) st1)
        as [[p'|e] st2] eqn:Hc;
        pose proof (chain_price_only_adds _ _ _ _ _ Hf Hc) as Hadd;
        intros [= <- <-]; (split; [|intros t [= <-]]).
      * intros k Hk. cbn [saved store set_price address].
        rewrite lookup_insert_ne by congruence.
        rewrite <- Hs1. apply Hadd.
      * split; [reflexivity|]. cbn [saved store set_price address].
        apply lookup_insert_eq.
      * intros k Hk. rewrite <- Hs1. apply Hadd.
    + intros [= <- <-]. split; [|intros t [= <-]].
      * intros k Hk. cbn [saved store set_price address].
        rewrite lookup_insert_ne by congruence. left. now rewrite Hs1.
      * split; [reflexivity|]. cbn [saved store set_price address].
        apply lookup_insert_eq.
  - rewrite (update_price_raise _ _ _ _ _ Ha). intros [= <- <-].
    split; [|discriminate]. intros k _. left. now rewrite Hs1.
Qed.

Lemma from_chain_writes find_ a st r st' :
  adds_reference_only cfg find_ ->
  from_chain cfg w find_ (lower a) st = (r, st') ->
  (forall k, k <> lower a ->
     store st' !! k = store st !! k \/
     (store st !! k = None /\ is_reference_key cfg k)) /\
  (forall t, r = Ok t ->
     store st' !! lower a = Some t /\
     exists n s d,
       chain_identity w (lower a) = Ok (n, s, d) /\
       t = set_price (mkToken (lower a) (PStr n) (PStr s) (PInt d)
                              PNone (PInt 0) (PInt 0) PNone) (price t)).
Proof.
  intros Hf. rewrite from_chain_unfold, lower_idem. cbv zeta.
  destruct (chain_identity w (lower a)) as [[[n s] d]|e].
  - set (fresh := mkToken (lower a) (PStr n) (PStr s) (PInt d)
                          PNone (PInt 0) (PInt 0) PNone).
    set (st0 := saved fresh (logged (IdentityMulticall (lower a)) st)).
    destruct (_update_price cfg w find_ fresh st0) as [r1 st1] eqn:Hu.
    destruct (update_price_writes _ _ _ _ _ Hf Hu) as [Hframe Hres].
    assert (Hk : forall k, k <> lower a ->
               store st1 !! k = store st !! k \/
               (store st !! k = None /\ is_reference_key cfg k)).
    { intros k Hk. specialize (Hframe k Hk).
      unfold st0 in Hframe. cbn [saved logged store fresh address] in Hframe.
      now rewrite lookup_insert_ne in Hframe by congruence. }
    destruct r1 as [t|e]; intros [= <- <-].
    + split; [exact Hk|]. intros t' [= <-].
      destruct (Hres t eq_refl) as [Ht Hst]. split; [exact Hst|].
      exists n, s, d. split; [reflexivity|exact Ht].
    + split; [exact Hk|discriminate].
  - intros [= <- <-]. split; [|discriminate]. intros k _. now left.
Qed.

Lemma find_adds fuel a st r st' :
  find cfg w fuel (Some a) st = (r, st') ->
  only_adds (fun k => k = lower a \/ is_reference_key cfg k) st st'.
Proof.
  revert a st r st'. induction fuel as [|fuel IH]; intros a st r st'.
  - destruct (store st !! lower a) as [t|] eqn:Hl.
    + rewrite (find_hit _ _ _ _ Hl). intros [= _ <-]. now apply only_adds_refl.
    + cbn [find]. unfold try_except, bind, load. rewrite Hl. cbn.
      intros [= _ <-]. now apply only_adds_refl.
  - destruct (store st !! lower a) as [t|] eqn:Hl.
    + rewrite (find_hit _ _ _ _ Hl). intros [= _ <-]. now apply only_adds_refl.
    + rewrite (find_miss _ _ _ Hl).
      destruct (from_chain cfg w (find cfg w fuel) (lower a) st)
        as [r1 st1] eqn:Hc.
      assert (Hf : adds_reference_only cfg (find cfg w fuel)).
      { intros x rx x' Hx k. destruct (IH _ _ _ _ Hx k) as [H|[H1 [H2|H2]]];
          [now left|right; split; [exact H1|exact H2]..]. }
      destruct (from_chain_writes _ _ _ _ _ Hf Hc) as [Hframe _].
      intros Hr. assert (st' = st1) as -> by (destruct r1; now inversion Hr).
      intros k. destruct (decide (k = lower a)) as [->|Hk].
      * right. split; [exact Hl|now left].
      * destruct (Hframe k Hk) as [H|[H1 H2]]; [now left|].
        right. split; [exact H1|now right].
Qed.

Lemma find_adds_reference fuel : adds_reference_only cfg (find cfg w fuel).
Proof.
  intros st r st' H k.
  destruct (find_adds _ _ _ _ _ H k) as [Hk|[H1 [H2|H2]]];
    [now left|right; split; [exact H1|exact H2]..].
Qed.

(** *** Two levels of nesting are enough *)

Lemma update_price_fuel_hit m self st sc :
  store st !! lower (STABLE_TOKEN_ADDRESS cfg) = Some sc ->
  _update_price cfg w (find cfg w m) self st
    = _update_price cfg w (find cfg w 0) self st.
Proof.
  intros H. apply update_price_ext. intros st1 Hs.
  rewrite <- Hs in H. now rewrite !(find_hit _ _ _ _ H).
Qed.

Lemma find_reference_fuel m st :
  find cfg w (S m) (Some (STABLE_TOKEN_ADDRESS cfg)) st
    = find cfg w 1 (Some (STABLE_TOKEN_ADDRESS cfg)) st.
Proof.
  destruct (store st !! lower (STABLE_TOKEN_ADDRESS cfg)) as [t|] eqn:Hl.
  - now rewrite !(find_hit _ _ _ _ Hl).
  - rewrite !(find_miss _ _ _ Hl), !from_chain_unfold, lower_idem. cbv zeta.
    destruct (chain_identity w _) as [[[n s] d]|e]; [|reflexivity].
    erewrite update_price_fuel_hit; [reflexivity|].
    cbn [saved store address]. apply lookup_insert_eq.
Qed.

Lemma update_price_total m self st :
  _update_price cfg w (find cfg w (S m)) self st
    = _update_price cfg w (find cfg w 1) self st.
Proof. apply update_price_ext. intros st1 _. apply find_reference_fuel. Qed.

Lemma from_chain_ext (find1 find2 : option string -> M (option Token)) a st :
  (forall st1, find1 (Some (STABLE_TOKEN_ADDRESS cfg)) st1
               = find2 (Some (STABLE_TOKEN_ADDRESS cfg)) st1) ->
  from_chain cfg w find1 a st = from_chain cfg w find2 a st.
Proof.
  intros H. rewrite !from_chain_unfold. cbv zeta.
  destruct (chain_identity w _) as [[[n s] d]|e]; [|reflexivity].
  erewrite update_price_ext; [reflexivity|]. intros st1 _. apply H.
Qed.

(** [find] never needs more than two levels: with any larger bound it
    returns what it returns with bound 2, so the bound is never what
    stops it. *)
Lemma find_total m a st :
  find cfg w (S (S m)) a st = find cfg w 2 a st.
Proof.
  destruct a as [a|]; [|now rewrite !find_none].
  destruct (store st !! lower a) as [t|] eqn:Hl.
  - now rewrite !(find_hit _ _ _ _ Hl).
  - rewrite !(find_miss _ _ _ Hl).
    erewrite from_chain_ext; [reflexivity|].
    intros st1. apply find_reference_fuel.
Qed.

(** *** The lookup entry point *)

(** C6 (amended). [find] on an absent address returns no record and
    touches nothing; on an address whose lowercase form is in the store
    it returns the stored record and leaves store and trace as they
    were; on an address not in the store, when the chain reads answer
    and price resolution returns, it returns a new record stored under
    the lowercase address, whose name, symbol and decimals are the chain
    reads and whose price is the one just resolved.  Every other record
    is left as it was, and the only other record that may have been
    added is the reference asset's. *)
Theorem find_contract (fuel : nat) (a : string) (st : state) :
  find cfg w fuel None st = (Ok None, st) /\
  (forall t, store st !! lower a = Some t ->
     find cfg w fuel (Some a) st = (Ok (Some t), st)) /\
  (store st !! lower a = None ->
   forall n s d, chain_identity w (lower a) = Ok (n, s, d) ->
     let fresh := mkToken (lower a) (PStr n) (PStr s) (PInt d)
                          PNone (PInt 0) (PInt 0) PNone in
     let st0 := saved fresh (logged (IdentityMulticall (lower a)) st) in
     forall t st1,
       _update_price cfg w (find cfg w (S fuel)) fresh st0 = (Ok t, st1) ->
       find cfg w (S (S fuel)) (Some a) st
         = (Ok (Some t), logged LogDebug st1) /\
       address t = lower a /\ name t = PStr n /\ symbol t = PStr s /\
       decimals t = PInt d /\
       store st1 !! lower a = Some t /\
       (forall k, k <> lower a ->
          store st1 !! k = store st !! k \/
          (store st !! k = None /\ k = lower (STABLE_TOKEN_ADDRESS cfg)))).
Proof.
  split; [apply find_none|]. split; [intros t; apply find_hit|].
  intros Hl n s d Hid fresh st0 t st1 Hu.
  destruct (update_price_writes _ _ _ _ _ (find_adds_reference (S fuel)) Hu)
    as [Hframe Hres].
  destruct (Hres t eq_refl) as [Ht Hst].
  split.
  - rewrite (find_miss _ _ _ Hl), from_chain_unfold, lower_idem. cbv zeta.
    rewrite Hid. fold fresh. fold st0. now rewrite Hu.
  - rewrite Ht. cbn [set_price address name symbol decimals fresh].
    repeat split; try reflexivity.
    + rewrite <- Ht. exact Hst.
    + intros k Hk. specialize (Hframe k Hk).
      unfold st0 in Hframe. cbn [saved logged store fresh address] in Hframe.
      now rewrite lookup_insert_ne in Hframe by congruence.
Qed.

(** *** Price resolution changes the price and nothing else *)

Lemma find_returns_stored fuel a st t st' :
  find cfg w fuel (Some a) st = (Ok (Some t), st') ->
  store st' !! lower a = Some t.
Proof.
  destruct (store st !! lower a) as [t0|] eqn:Hl.
  - rewrite (find_hit _ _ _ _ Hl). now intros [= <- <-].
  - destruct fuel as [|fuel].
    + cbn [find]. unfold try_except, bind, load. rewrite Hl. discriminate.
    + rewrite (find_miss _ _ _ Hl).
      destruct (from_chain cfg w (find cfg w fuel) (lower a) st)
        as [[t1|e] st1] eqn:Hc; [|discriminate].
      intros [= <- <-].
      destruct (from_chain_writes _ _ _ _ _ (find_adds_reference fuel) Hc)
        as [_ Hres].
      now destruct (Hres t1 eq_refl).
Qed.




(** *** Signs of rounded quotients *)

Lemma shr_1_nonneg mrs : 0 <= shr_m mrs -> 0 <= shr_m (shr_1 mrs).
Proof.
  destruct mrs as [m r s0]. cbn [shr_m].
  destruct m as [|[p|p|]|[p|p|]]; cbn; lia.
Qed.

Lemma iter_shr_1_nonneg p : forall mrs,
  0 <= shr_m mrs -> 0 <= shr_m (SpecFloat.iter_pos shr_1 p mrs).
Proof.
  induction p as [p IH|p IH|]; intros mrs H; cbn [SpecFloat.iter_pos].
  - apply IH, IH. now apply shr_1_nonneg.
  - now apply IH, IH.
  - now apply shr_1_nonneg.
Qed.

Lemma shr_fexp_nonneg m e l :
  0 <= m -> 0 <= shr_m (fst (shr_fexp prec emax m e l)).
Proof.
  intros H. unfold shr_fexp, shr.
  assert (H0 : 0 <= shr_m (shr_record_of_loc m l))
    by (destruct l as [|[]]; exact H).
  destruct (fexp prec emax (Zdigits2 m + e) - e); cbn [fst]; try exact H0.
  now apply iter_shr_1_nonneg.
Qed.

Lemma round_nearest_even_nonneg m l : 0 <= m -> 0 <= round_nearest_even m l.
Proof.
  intros H. unfold round_nearest_even.
  destruct l as [|[]]; try destruct (Z.even m); lia.
Qed.

Lemma binary_round_aux_nonneg mx ex lx :
  0 <= mx -> SFleb f_zero (binary_round_aux prec emax false mx ex lx) = true.
Proof.
  intros H. unfold binary_round_aux.
  pose proof (shr_fexp_nonneg mx ex lx H) as H1.
  destruct (shr_fexp prec emax mx ex lx) as [mrs' e']. cbn [fst] in H1.
  pose proof (shr_fexp_nonneg _ e' loc_Exact
                (round_nearest_even_nonneg _ (loc_of_shr_record mrs') H1)) as H2.
  destruct (shr_fexp prec emax (round_nearest_even _ _) e' loc_Exact)
    as [mrs'' e'']. cbn [fst] in H2.
  destruct (shr_m mrs'') as [|m|m]; [reflexivity| |lia].
  destruct (e'' <=? emax - prec); reflexivity.
Qed.

Lemma int_truediv_nonneg a b f :
  0 <= a -> 0 < b -> int_truediv a b = Ok f -> SFleb f_zero f = true.
Proof.
  intros Ha Hb. unfold int_truediv.
  destruct (b =? 0); [discriminate|].
  destruct (Z.eqb_spec a 0) as [->|Hnz]; [now intros [= <-]|].
  destruct a as [|pa|pa]; [lia| |lia].
  destruct b as [|pb|pb]; try lia.
  cbn [exact_of_Z SFdiv xorb].
  assert (Hq : SFleb f_zero
                 (let '(mz, ez, lz) :=
                    SFdiv_core_binary prec emax (Z.pos pa) 0 (Z.pos pb) 0 in
                  binary_round_aux prec emax false mz ez lz) = true).
  { unfold SFdiv_core_binary.
    set (m' := match _ - _ with Z.pos _ => _ | Z0 => _ | Z.neg _ => _ end).
    assert (Hm : 0 <= m').
    { subst m'. destruct (_ - _); try lia. now apply Z.shiftl_nonneg. }
    pose proof (Z.div_pos m' (Z.pos pb) Hm ltac:(lia)) as Hdiv.
    unfold Z.div in Hdiv.
    destruct (Z.div_eucl m' (Z.pos pb)) as [q r].
    now apply binary_round_aux_nonneg. }
  destruct (let '(mz, ez, lz) := SFdiv_core_binary prec emax _ _ _ _ in _);
    try discriminate; now intros [= <-].
Qed.

(** *** Where a stored price comes from *)

Lemma dexscreener_ok self st p st1 :
  dexscreener_price_in_stables cfg w self st = (Ok p, st1) ->
  p = PFloat f_one \/
  exists resp, screener_json w (address self) = Ok resp /\
               screener_price resp = Ok p.
Proof.
  unfold dexscreener_price_in_stables.
  destruct (is_stable_address cfg (address self)).
  - intros [= <- _]. now left.
  - unfold bind. rewrite call_eq.
    destruct (screener_json w (address self)) as [resp|e]; [|discriminate].
    unfold lift. intros [= H _]. right. now exists resp.
Qed.

Lemma defillama_ok self st q st1 :
  defillama_price_in_stables cfg w self st = (Ok q, st1) ->
  q = PFloat f_one \/
  exists resp, oracle_json w ("kava:" ++ lower (address self)) = Ok resp /\
               oracle_price resp = Ok q.
Proof.
  unfold defillama_price_in_stables.
  destruct (is_stable_address cfg (address self)).
  - intros [= <- _]. now left.
  - unfold bind. rewrite call_eq.
    destruct (oracle_json w _) as [resp|e]; [|discriminate].
    unfold lift. intros [= H _]. right. now exists resp.
Qed.

Lemma aggregated_ok self st p st1 :
  aggregated_price_in_stables cfg w self st = (Ok p, st1) ->
  p = PFloat f_one \/
  (exists resp, screener_json w (address self) = Ok resp /\
                screener_price resp = Ok p) \/
  (exists resp, oracle_json w ("kava:" ++ lower (address self)) = Ok resp /\
                oracle_price resp = Ok p).
Proof.
  unfold aggregated_price_in_stables.
  destruct (dexscreener_price_in_stables cfg w self st) as [[p0|e] st0] eqn:Hd;
    [|now rewrite (bind_raise _ _ _ _ _ Hd)].
  rewrite (bind_ok _ _ _ _ _ Hd).
  pose proof (dexscreener_ok _ _ _ _ Hd) as Hp0.
  destruct (_ && _).
  - intros [= <- _]. destruct Hp0; auto.
  - unfold try_except.
    destruct (defillama_price_in_stables cfg w self st0) as [[q|e] st2] eqn:Ho.
    + intros [= <- _]. destruct (defillama_ok _ _ _ _ Ho); auto.
    + destruct (oracle_fault e); [|discriminate].
      intros [= <- _]. destruct Hp0; auto.
Qed.

(** *** Which faults price resolution absorbs *)

Lemma dexscreener_eq self st :
  address self <> STABLE_TOKEN_ADDRESS cfg ->
  dexscreener_price_in_stables cfg w self st
    = (match screener_json w (address self) with
       | Ok resp => screener_price resp
       | Raise e => Raise e
       end, logged (ScreenerGet (address self)) st).
Proof.
  intros Hne. unfold dexscreener_price_in_stables.
  rewrite (is_stable_address_false _ Hne). unfold bind. rewrite call_eq.
  destruct (screener_json w (address self)); reflexivity.
Qed.

Lemma defillama_eq self st :
  address self <> STABLE_TOKEN_ADDRESS cfg ->
  defillama_price_in_stables cfg w self st
    = (match oracle_json w ("kava:" ++ lower (address self)) with
       | Ok resp => oracle_price resp
       | Raise e => Raise e
       end, logged (OracleGet ("kava:" ++ lower (address self))) st).
Proof.
  intros Hne. unfold defillama_price_in_stables.
  rewrite (is_stable_address_false _ Hne). unfold bind. rewrite call_eq.
  destruct (oracle_json w _); reflexivity.
Qed.

(** C3 (amended). For a token other than the reference asset.  A fault
    of the screener pass (of the call, or of reading its answer) is not
    caught: it ends price resolution after that one call.  Once the
    screener pass has returned a price [p]: when the oracle pass raises
    [HTTPError] or [JSONDecodeError], the first two passes return [p];
    any other fault of the oracle pass, when the oracle is consulted,
    ends price resolution.  When the first two passes yield 0, the
    router pass runs: a fault of looking up the reference asset, a fault
    of [10 ** decimals], a router fault other than a contract-logic
    revert and a fault of the final division end price resolution; when
    the lookup returns the reference asset and the router call reverts,
    price resolution returns the record with price 0 and stores it. *)
Theorem resolution_absorbs_oracle_faults_and_reverts
  (fuel : nat) (self : Token) (st : state) :
  address self <> STABLE_TOKEN_ADDRESS cfg ->
  let asked_screener := logged (ScreenerGet (address self)) st in
  let asked_oracle :=
    logged (OracleGet ("kava:" ++ lower (address self))) asked_screener in
  let resolve := _update_price cfg w (find cfg w fuel) self st in
  (forall e, screener_outcome w (address self) = Raise e ->
     resolve = (Raise e, asked_screener)) /\
  (forall p, screener_outcome w (address self) = Ok p ->
     (forall e, oracle_outcome w (address self) = Raise e ->
        oracle_fault e = true ->
        exists st1, aggregated_price_in_stables cfg w self st = (Ok p, st1)) /\
     (forall e,
        negb (py_eq_int p 0) && negb (is_bluechip cfg (address self)) = false ->
        oracle_outcome w (address self) = Raise e ->
        oracle_fault e = false ->
        resolve = (Raise e, asked_oracle))) /\
  (forall v st1,
     aggregated_price_in_stables cfg w self st = (Ok v, st1) ->
     py_eq_int v 0 = true ->
     (forall e st2,
        find cfg w fuel (Some (STABLE_TOKEN_ADDRESS cfg)) st1 = (Raise e, st2) ->
        resolve = (Raise e, st2)) /\
     (forall sc st2,
        find cfg w fuel (Some (STABLE_TOKEN_ADDRESS cfg)) st1
          = (Ok (Some sc), st2) ->
        (forall e, pow10 w (decimals self) = Raise e -> is_revert e = false ->
           resolve = (Raise e, st2)) /\
        (forall amount_in, pow10 w (decimals self) = Ok amount_in ->
           let asked :=
             logged (RouterCall amount_in (address self) (address sc)) st2 in
           let answer :=
             router_getAmountOut w (ROUTER_ADDRESS cfg) amount_in
               (address self) (address sc) in
           (answer = Raise ContractLogicError ->
              resolve = (Ok (set_price self (PInt 0)),
                         saved (set_price self (PInt 0)) asked)) /\
           (forall e, answer = Raise e -> is_revert e = false ->
              resolve = (Raise e, asked)) /\
           (forall amount b e, answer = Ok (amount, b) ->
              match pow10 w (decimals sc) with
              | Ok q => truediv amount q
              | Raise e' => Raise e'
              end = Raise e ->
              resolve = (Raise e, asked))))).
Proof.
  intros Hne asked_screener asked_oracle resolve.
  assert (Hd : dexscreener_price_in_stables cfg w self st
               = (screener_outcome w (address self), asked_screener))
    by (now rewrite (dexscreener_eq _ _ Hne)).
  assert (Ho : defillama_price_in_stables cfg w self asked_screener
               = (oracle_outcome w (address self), asked_oracle))
    by (now rewrite (defillama_eq _ _ Hne)).
  split; [|split].
  - intros e He. rewrite He in Hd. unfold resolve.
    apply update_price_raise. unfold aggregated_price_in_stables.
    now rewrite (bind_raise _ _ _ _ _ Hd).
  - intros p Hp. rewrite Hp in Hd. split.
    + intros e He Hc. unfold aggregated_price_in_stables.
      rewrite (bind_ok _ _ _ _ _ Hd). destruct (_ && _); [now eexists|].
      unfold try_except. rewrite Ho, He, Hc. now eexists.
    + intros e Hu He Hc. unfold resolve. apply update_price_raise.
      unfold aggregated_price_in_stables.
      rewrite (bind_ok _ _ _ _ _ Hd), Hu.
      unfold try_except. now rewrite Ho, He, Hc.
  - intros v st1 Ha Hv.
    assert (Hr : resolve
                 = match chain_price_in_stables cfg w (find cfg w fuel)
                           (set_price self v) st1 with
                   | (Ok p', st2) =>
                       (Ok (set_price self p'), saved (set_price self p') st2)
                   | (Raise e, st2) => (Raise e, st2)
                   end).
    { unfold resolve. now rewrite (update_price_eq _ _ _ _ _ Ha), Hv. }
    rewrite chain_price_unfold in Hr. cbn [set_price address] in Hr.
    rewrite (is_stable_address_false _ Hne) in Hr.
    split.
    + intros e st2 Hf. now rewrite Hf in Hr.
    + intros sc st2 Hf. rewrite Hf in Hr.
      unfold router_quote, bind, try_except, lift, ret in Hr.
      cbn [set_price address decimals] in Hr. split.
      * intros e Hp Hrev. now rewrite Hp, Hrev in Hr.
      * intros amount_in Hp asked answer. rewrite Hp, call_eq in Hr.
        fold asked in Hr. fold answer in Hr. split; [|split].
        -- intros Hans. now rewrite Hans in Hr.
        -- intros e Hans Hrev. now rewrite Hans, Hrev in Hr.
        -- intros amount b e Hans Hdiv. rewrite Hans in Hr.
           destruct (pow10 w (decimals sc)) as [q|e'];
             [now rewrite Hdiv in Hr|injection Hdiv as ->; exact Hr].
Qed.

(** *** The trace only grows *)

Lemma growing_ret {A} (a : A) : growing (ret a).
Proof. intros st r st' [= _ <-]. exists []. now rewrite app_nil_r. Qed.

Lemma growing_raise {A} (e : exn) : growing (@raise A e).
Proof. intros st r st' [= _ <-]. exists []. now rewrite app_nil_r. Qed.

Lemma growing_lift {A} (x : res A) : growing (lift x).
Proof. intros st r st' [= _ <-]. exists []. now rewrite app_nil_r. Qed.

Lemma growing_emit ev : growing (emit ev).
Proof. intros st r st' [= _ <-]. now exists [ev]. Qed.

Lemma growing_save t : growing (save t).
Proof. intros st r st' [= _ <-]. exists []. cbn. now rewrite app_nil_r. Qed.

Lemma growing_load k : growing (load k).
Proof.
  intros st r st'. unfold load.
  destruct (store st !! k); intros [= _ <-]; exists []; now rewrite app_nil_r.
Qed.

Lemma growing_bind {A B} (m : M A) (k : A -> M B) :
  growing m -> (forall a, growing (k a)) -> growing (bind m k).
Proof.
  intros Hm Hk st r st'. unfold bind.
  destruct (m st) as [[a|e] st1] eqn:H1; destruct (Hm _ _ _ H1) as [evs Hevs].
  - intros H2. destruct (Hk a _ _ _ H2) as [evs' Hevs'].
    exists (evs ++ evs')%list. now rewrite Hevs', Hevs, app_assoc.
  - intros [= _ <-]. now exists evs.
Qed.

Lemma growing_try {A} (m : M A) c (h : exn -> M A) :
  growing m -> (forall e, growing (h e)) -> growing (try_except m c h).
Proof.
  intros Hm Hh st r st'. unfold try_except.
  destruct (m st) as [[a|e] st1] eqn:H1; destruct (Hm _ _ _ H1) as [evs Hevs].
  - intros [= _ <-]. now exists evs.
  - destruct (c e).
    + intros H2. destruct (Hh e _ _ _ H2) as [evs' Hevs'].
      exists (evs ++ evs')%list. now rewrite Hevs', Hevs, app_assoc.
    + intros [= _ <-]. now exists evs.
Qed.

Lemma growing_call {A} ev (x : res A) : growing (call ev x).
Proof.
  apply growing_bind; [apply growing_emit|intros; apply growing_lift].
Qed.

Lemma growing_for_each {A} (body : A -> M unit) l :
  (forall x, growing (body x)) -> growing (for_each body l).
Proof.
  intros Hb. induction l as [|x l IH]; cbn [for_each].
  - apply growing_ret.
  - apply growing_bind; [apply Hb|intros; apply IH].
Qed.

Ltac grow :=
  repeat first
    [ assumption
    | apply growing_ret | apply growing_raise | apply growing_lift
    | apply growing_emit | apply growing_call | apply growing_save
    | apply growing_load
    | apply growing_bind; [|intros ?]
    | apply growing_try; [|intros ?]
    | progress cbv zeta
    | match goal with
      | |- growing (if ?b then _ else _) => destruct b
      | |- growing (match ?x with _ => _ end) => destruct x
      end ].

Lemma growing_aggregated self : growing (aggregated_price_in_stables cfg w self).
Proof.
  unfold aggregated_price_in_stables, dexscreener_price_in_stables,
    defillama_price_in_stables. grow.
Qed.

Lemma growing_update_price find_ self :
  (forall a, growing (find_ a)) -> growing (_update_price cfg w find_ self).
Proof.
  intros Hf. unfold _update_price.
  apply growing_bind; [apply growing_aggregated|intros p].
  unfold chain_price_in_stables. grow; apply Hf.
Qed.

Lemma growing_from_chain find_ a :
  (forall x, growing (find_ x)) -> growing (from_chain cfg w find_ a).
Proof.
  intros Hf. unfold from_chain, create.
  apply growing_bind; [apply growing_call|intros [[n s] d]].
  apply growing_bind; [grow|intros t].
  apply growing_bind; [now apply growing_update_price|intros t']. grow.
Qed.

Lemma growing_find fuel a : growing (find cfg w fuel a).
Proof.
  revert a. induction fuel as [|fuel IH]; intros [a|]; cbn [find];
    try apply growing_ret;
    (apply growing_try;
     [apply growing_bind; [apply growing_load|intros; apply growing_ret]
     |intros e]).
  - apply growing_raise.
  - apply growing_bind; [|intros; apply growing_ret].
    apply growing_from_chain. exact IH.
Qed.

Lemma growing_ingest_entry fuel n x : growing (ingest_entry cfg w fuel n x).
Proof.
  unfold ingest_entry, create.
  repeat first
    [ apply growing_update_price; intros; apply growing_find
    | apply growing_ret | apply growing_lift | apply growing_emit
    | apply growing_save
    | apply growing_bind; [|intros ?]
    | match goal with
      | |- growing (if ?b then _ else _) => destruct b
      end ].
Qed.

Lemma ingest_feed_trace fuel n u st :
  exists evs,
    trace (snd (ingest_feed cfg w fuel n u st))
      = (trace st ++ TokenlistGet u :: evs)%list.
Proof.
  unfold ingest_feed, try_except. unfold bind at 1. rewrite call_eq.
  destruct (tokenlist_json w u) as [resp|e].
  - match goal with
    | |- context [bind ?m ?k ?s] =>
        destruct (bind m k s) as [[[]|e] st1] eqn:Hb;
        assert (Hg : growing (bind m k))
    end.
    1,3: apply growing_bind; [apply growing_lift|intros tokens];
         apply growing_bind; [apply growing_lift|intros entries];
         apply growing_for_each; intros x; apply growing_ingest_entry.
    + destruct (Hg _ _ _ Hb) as [evs Hevs]. exists evs. cbn [snd].
      rewrite Hevs. cbn [logged trace]. now rewrite <- app_assoc.
    + destruct (Hg _ _ _ Hb) as [evs Hevs]. exists (evs ++ [LogError e])%list.
      cbn [snd emit trace]. rewrite Hevs. cbn [logged trace].
      now rewrite <- !app_assoc.
  - exists [LogError e]. cbn [snd emit trace logged].
    now rewrite <- app_assoc.
Qed.

Lemma feeds_are_fetched fuel n feeds : forall st,
  (forall ev, ev ∈ trace st ->
     ev ∈ trace (fold_left (fun s u => snd (ingest_feed cfg w fuel n u s))
                           feeds st)) /\
  (forall u, u ∈ feeds ->
     TokenlistGet u
       ∈ trace (fold_left (fun s u => snd (ingest_feed cfg w fuel n u s))
                          feeds st)).
Proof.
  induction feeds as [|u0 feeds IH]; intros st; cbn [fold_left].
  - split; [auto|]. intros u Hu. inversion Hu.
  - destruct (ingest_feed_trace fuel n u0 st) as [evs Hevs].
    destruct (IH (snd (ingest_feed cfg w fuel n u0 st))) as [Hmono Hin].
    split.
    + intros ev Hev. apply Hmono. rewrite Hevs. apply elem_of_app. now left.
    + intros u [->|Hu]%elem_of_cons.
      * apply Hmono. rewrite Hevs. apply elem_of_app. right.
        apply elem_of_cons. now left.
      * now apply Hin.
Qed.

(** *** Ingestion, feed by feed *)

Lemma ingest_feed_returns fuel n u st :
  exists st', ingest_feed cfg w fuel n u st = (Ok tt, st').
Proof.
  unfold ingest_feed, try_except.
  destruct (bind _ _ st) as [[[]|e] st1]; [now eexists|].
  unfold emit. now eexists.
Qed.

Lemma for_each_feeds fuel n feeds st :
  for_each (ingest_feed cfg w fuel n) feeds st
    = (Ok tt, fold_left (fun s u => snd (ingest_feed cfg w fuel n u s)) feeds st).
Proof.
  revert st. induction feeds as [|u feeds IH]; intros st; [reflexivity|].
  cbn [for_each fold_left].
  destruct (ingest_feed_returns fuel n u st) as [st1 H1].
  rewrite (bind_ok _ _ _ _ _ H1), H1. apply IH.
Qed.

(** C9 (amended). Ingestion never stops at a feed: each feed of
    [TOKENLISTS] is run in turn from the state its predecessor left and
    is fetched, and the run of a feed always returns.  When fetching the feed fails
    the fault is logged; when one of its entries raises, the fault is
    logged too and that ends the feed: its remaining entries are not
    run, and ingestion goes on with the next feed. *)
Theorem ingestion_continues_with_next_feed
  (fuel : nat) (n : Z) (st : state) :
  eth_chain_id w = Ok n ->
  from_tokenlists cfg w fuel st
    = (Ok tt, fold_left (fun s u => snd (ingest_feed cfg w fuel n u s))
                        (TOKENLISTS cfg) (logged ChainIdRead st)) /\
  (forall u, u ∈ TOKENLISTS cfg ->
     TokenlistGet u ∈ trace (snd (from_tokenlists cfg w fuel st))) /\
  (forall u st0, exists st1, ingest_feed cfg w fuel n u st0 = (Ok tt, st1)) /\
  (forall u st0 e,
     tokenlist_json w u = Raise e ->
     ingest_feed cfg w fuel n u st0
       = (Ok tt, logged (LogError e) (logged (TokenlistGet u) st0))) /\
  (forall u st0 d done x rest st1 e st2,
     tokenlist_json w u = Ok (PDict d) ->
     assoc "tokens" d = Some (PList (done ++ x :: rest)%list) ->
     for_each (ingest_entry cfg w fuel n) done (logged (TokenlistGet u) st0)
       = (Ok tt, st1) ->
     ingest_entry cfg w fuel n x st1 = (Raise e, st2) ->
     ingest_feed cfg w fuel n u st0 = (Ok tt, logged (LogError e) st2)).
Proof.
  intros Hid.
  assert (Hrun : from_tokenlists cfg w fuel st
    = (Ok tt, fold_left (fun s u => snd (ingest_feed cfg w fuel n u s))
                        (TOKENLISTS cfg) (logged ChainIdRead st))).
  { unfold from_tokenlists. unfold bind at 1. rewrite call_eq, Hid.
    apply for_each_feeds. }
  split; [exact Hrun|]. split; [|split; [|split]].
  - intros u Hu. rewrite Hrun. cbn [snd].
    now apply (feeds_are_fetched fuel n (TOKENLISTS cfg)).
  - intros u st0. apply ingest_feed_returns.
  - intros u st0 e He. unfold ingest_feed, try_except.
    unfold bind at 1. now rewrite call_eq, He.
  - intros u st0 d done x rest st1 e st2 Hu Hd Hdone Hx.
    unfold ingest_feed, try_except.
    unfold bind at 1. rewrite call_eq, Hu.
    unfold bind at 1, lift at 1. cbn [py_getitem]. rewrite Hd.
    unfold bind at 1, lift at 1. cbn [py_iter].
    assert (Hloop : forall l s s',
              for_each (ingest_entry cfg w fuel n) l s = (Ok tt, s') ->
              ingest_entry cfg w fuel n x s' = (Raise e, st2) ->
              for_each (ingest_entry cfg w fuel n) (l ++ x :: rest) s
                = (Raise e, st2)).
    { induction l as [|y l IH]; intros s s'; cbn [for_each app].
      - intros [= <-] Hr. now rewrite (bind_raise _ _ _ _ _ Hr).
      - unfold bind at 1.
        destruct (ingest_entry cfg w fuel n y s) as [[[]|e'] s1] eqn:Hy;
          [|discriminate].
        intros Hl Hr. unfold bind at 1. rewrite Hy. now apply (IH s1 s'). }
    now rewrite (Hloop done _ st1 Hdone Hx).
Qed.

End Properties.

(** ** The properties on the sample services *)

(** The reference asset under total outage: still 1.0, no call made. *)
Lemma reference_asset_is_pegged_during_outage :
  address usdc = STABLE_TOKEN_ADDRESS cfg_ex /\
  aggregated_price_in_stables cfg_ex w_down usdc st_empty
    = (Ok (PFloat f_one), st_empty) /\
  _update_price cfg_ex w_down (find cfg_ex w_down 0) usdc st_empty
    = (Ok (set_price usdc (PFloat f_one)),
       mkState (<[address usdc := set_price usdc (PFloat f_one)]> ∅) []).
Proof.
  pose proof (reference_asset_is_pegged cfg_ex w_down 0 usdc st_empty eq_refl)
    as (_ & _ & _ & Ha & Hu).
  split; [reflexivity|]. split; [exact Ha|exact Hu].
Defined.

(** The bluechip ["0xbc"]: the screener says 3.0, the oracle says 2, and
    2 it is. *)
Lemma bluechip_takes_the_oracle_price :
  dexscreener_price_in_stables cfg_ex w_market (tok "0xbc") st_empty
    = (Ok (PFloat f_three), logged (ScreenerGet "0xbc") st_empty) /\
  is_bluechip cfg_ex (address (tok "0xbc")) = true /\
  aggregated_price_in_stables cfg_ex w_market (tok "0xbc") st_empty
    = (Ok (PInt 2),
       logged (OracleGet "kava:0xbc") (logged (ScreenerGet "0xbc") st_empty)).
Proof.
  assert (Hd : dexscreener_price_in_stables cfg_ex w_market (tok "0xbc") st_empty
               = (Ok (PFloat f_three), logged (ScreenerGet "0xbc") st_empty))
    by (vm_compute; reflexivity).
  assert (Hb : is_bluechip cfg_ex (address (tok "0xbc")) = true)
    by (vm_compute; reflexivity).
  split; [exact Hd|]. split; [exact Hb|].
  apply (screener_price_final_iff_trusted cfg_ex w_market (tok "0xbc")
           st_empty _ _ Hd); [exact Hb|].
  vm_compute. reflexivity.
Defined.

(** The response for ["0xaa"]: an off-chain pair first, then two pairs
    on this chain; the first of these is selected. *)
Lemma market_response_selects_first_pair_on_chain :
  let pairs := [one_pair "ethereum" "2.5"; one_pair "kava" "140344,272.43";
                one_pair "kava" "7"] in
  assoc "pairs" [("pairs", PList pairs)] = Some (PList pairs) /\
  forallb has_chain_id pairs = true /\
  screener_price (PDict [("pairs", PList pairs)])
    = described_screener_price pairs /\
  selected_pair pairs = Some (one_pair "kava" "140344,272.43").
Proof.
  intros pairs.
  destruct (screener_price_selection [("pairs", PList pairs)] pairs)
    as [_ H].
  destruct (H eq_refl eq_refl) as (Heq & _ & Hsel & _).
  split; [reflexivity|]. split; [reflexivity|]. split; [exact Heq|].
  apply (Hsel [one_pair "ethereum" "2.5"] _ [one_pair "kava" "7"]);
    reflexivity.
Defined.

(** ["0xcc"] is unknown to screener and oracle: the router pass runs,
    and the router's 2500000 over [10^6] is the price 2.5. *)
Lemma unknown_token_reaches_the_router :
  let self := tok "0xcc" in
  let st1 := logged (OracleGet "kava:0xcc")
                    (logged (ScreenerGet "0xcc") (st_known "0xcc")) in
  let asked := logged (RouterCall (PInt (10 ^ 18)) "0xcc" "0xst") st1 in
  aggregated_price_in_stables cfg_ex w_market self (st_known "0xcc")
    = (Ok (PInt 0), st1) /\
  py_eq_int (PInt 0) 0 = true /\
  chain_price_in_stables cfg_ex w_market (find cfg_ex w_market 2)
    (set_price self (PInt 0)) st1 = (Ok (PFloat f_two_and_half), asked) /\
  nearest_quotient f_two_and_half 2500000 (10 ^ 6) = true /\
  _update_price cfg_ex w_market (find cfg_ex w_market 2) self (st_known "0xcc")
    = (Ok (set_price self (PFloat f_two_and_half)),
       saved (set_price self (PFloat f_two_and_half)) asked).
Proof.
  intros self st1 asked.
  assert (Ha : aggregated_price_in_stables cfg_ex w_market self (st_known "0xcc")
               = (Ok (PInt 0), st1)) by (vm_compute; reflexivity).
  assert (Hne : address self <> STABLE_TOKEN_ADDRESS cfg_ex)
    by (intros H; discriminate H).
  assert (Hf : find cfg_ex w_market 2 (Some (STABLE_TOKEN_ADDRESS cfg_ex)) st1
               = (Ok (Some usdc), st1)) by (vm_compute; reflexivity).
  assert (Hdiv : int_truediv 2500000 (10 ^ 6) = Ok f_two_and_half)
    by (vm_compute; reflexivity).
  pose proof (router_pass_iff_zero cfg_ex w_market 2 self (st_known "0xcc")
                st1 (PInt 0) Ha) as H.
  cbv zeta in H. destruct H as (_ & H2 & H3).
  destruct (H3 usdc st1 (PInt (10 ^ 18)) Hne Hf eq_refl) as (_ & H4).
  destruct (H4 2500000 false eq_refl) as (_ & H5).
  assert (Hd0 : 0 <= 6) by discriminate.
  destruct (H5 6 eq_refl Hd0) as (Hq & Hnear & _).
  rewrite Hdiv in Hq.
  split; [exact Ha|]. split; [reflexivity|]. split; [exact Hq|].
  split; [exact (Hnear _ Hdiv)|].
  rewrite (H2 eq_refl), Hq. reflexivity.
Defined.

(** Looking up the unseen ["0xCC"] in an empty store. *)
Lemma find_unseen_token_creates_it :
  let fresh := tok "0xcc" in
  let st0 := saved fresh (logged (IdentityMulticall "0xcc") st_empty) in
  let t := set_price fresh (PFloat f_two_and_half) in
  let st1 := snd (_update_price cfg_ex w_market (find cfg_ex w_market 1)
                                fresh st0) in
  store st_empty !! lower "0xCC" = None /\
  chain_identity w_market (lower "0xCC") = Ok ("Token", "TOK", 18) /\
  _update_price cfg_ex w_market (find cfg_ex w_market 1) fresh st0
    = (Ok t, st1) /\
  find cfg_ex w_market 2 (Some "0xCC") st_empty
    = (Ok (Some t), logged LogDebug st1) /\
  store st1 !! lower "0xCC" = Some t.
Proof.
  intros fresh st0 t st1.
  assert (Hl : store st_empty !! lower "0xCC" = None) by reflexivity.
  assert (Hid : chain_identity w_market (lower "0xCC") = Ok ("Token", "TOK", 18))
    by reflexivity.
  assert (Hu : _update_price cfg_ex w_market (find cfg_ex w_market 1) fresh st0
               = (Ok t, st1)) by (vm_compute; reflexivity).
  split; [exact Hl|]. split; [exact Hid|]. split; [exact Hu|].
  pose proof (find_contract cfg_ex w_market 0 "0xCC" st_empty) as (_ & _ & H).
  destruct (H Hl _ _ _ Hid t st1 Hu) as (Hf & _ & _ & _ & _ & Hs & _).
  split; [exact Hf|exact Hs].
Defined.

(** ["0xee"] has no market, the oracle answers with an HTTP error and
    the router reverts: the price is 0. *)
Lemma unknown_token_resolves_to_zero :
  let self := tok "0xee" in
  let st1 := logged (OracleGet "kava:0xee")
                    (logged (ScreenerGet "0xee") (st_known "0xee")) in
  let asked := logged (RouterCall (PInt (10 ^ 18)) "0xee" "0xst") st1 in
  address self <> STABLE_TOKEN_ADDRESS cfg_ex /\
  screener_outcome w_oracle_fault "0xee" = Ok (PInt 0) /\
  oracle_outcome w_oracle_fault "0xee" = Raise HTTPError /\
  aggregated_price_in_stables cfg_ex w_oracle_fault self (st_known "0xee")
    = (Ok (PInt 0), st1) /\
  _update_price cfg_ex w_oracle_fault (find cfg_ex w_oracle_fault 2) self
                (st_known "0xee")
    = (Ok (set_price self (PInt 0)), saved (set_price self (PInt 0)) asked).
Proof.
  intros self st1 asked.
  assert (Hne : address self <> STABLE_TOKEN_ADDRESS cfg_ex)
    by (intros H; discriminate H).
  assert (Ha : aggregated_price_in_stables cfg_ex w_oracle_fault self
                 (st_known "0xee") = (Ok (PInt 0), st1))
    by (vm_compute; reflexivity).
  assert (Hf : find cfg_ex w_oracle_fault 2 (Some (STABLE_TOKEN_ADDRESS cfg_ex))
                 st1 = (Ok (Some usdc), st1)) by (vm_compute; reflexivity).
  pose proof (resolution_absorbs_oracle_faults_and_reverts cfg_ex
                w_oracle_fault 2 self (st_known "0xee") Hne) as H.
  cbv zeta in H. destruct H as (_ & H2 & H3).
  destruct (H2 (PInt 0) eq_refl) as (Habs & _).
  destruct (Habs HTTPError eq_refl eq_refl) as (stx & Hx).
  destruct (H3 (PInt 0) st1 Ha eq_refl) as (_ & H4).
  destruct (H4 usdc st1 Hf) as (_ & H5).
  destruct (H5 (PInt (10 ^ 18)) eq_refl) as (H6 & _).
  split; [exact Hne|]. split; [reflexivity|]. split; [reflexivity|].
  split; [exact Ha|exact (H6 eq_refl)].
Defined.


(** Both feeds of the sample are run, the first one failing. *)
Lemma both_sample_feeds_are_run :
  eth_chain_id w_feeds = Ok 2222 /\
  from_tokenlists cfg_ex w_feeds 2 st_empty
    = (Ok tt,
       fold_left (fun s u => snd (ingest_feed cfg_ex w_feeds 2 2222 u s))
                 (TOKENLISTS cfg_ex) (logged ChainIdRead st_empty)).
Proof.
  split; [reflexivity|].
  apply (ingestion_continues_with_next_feed cfg_ex w_feeds 2 2222 st_empty
           eq_refl).
Defined.

(** A null [pairs] field, and a pair whose price is null. *)
Lemma null_fields_give_zero :
  no_pairs_reported [("pairs", PNone)] = true /\
  no_price_text [("chainId", PStr "kava"); ("priceUsd", PNone)] = true /\
  screener_price (PDict [("pairs", PNone)]) = Ok (PInt 0) /\
  pair_price (PDict [("chainId", PStr "kava"); ("priceUsd", PNone)])
    = Ok f_zero.
Proof.
  pose proof (screener_price_degenerate [("pairs", PNone)]
                [("chainId", PStr "kava"); ("priceUsd", PNone)] [])
    as (H1 & H2 & _).
  split; [reflexivity|]. split; [reflexivity|].
  split; [exact (H1 eq_refl)|exact (H2 eq_refl)].
Defined.

(** ** Where the description says more than the code does *)

(** C3, as stated, fails: the screener's body cannot be decoded, and the
    [JSONDecodeError] leaves price resolution. *)
Lemma screener_fault_escapes_resolution :
  address (tok "0xaa") <> STABLE_TOKEN_ADDRESS cfg_ex /\
  screener_json w_screener_fault "0xaa" = Raise JSONDecodeError /\
  _update_price cfg_ex w_screener_fault (find cfg_ex w_screener_fault 2)
                (tok "0xaa") st_empty
    = (Raise JSONDecodeError, logged (ScreenerGet "0xaa") st_empty).
Proof.
  split; [intros H; discriminate H|]. split; reflexivity.
Qed.

(** C4, as stated, fails: the first pair is on this chain and quotes 2,
    so the description selects it; the pair behind it carries no
    [chainId], and the pass raises [KeyError].  And a [pairs] field that
    is a text is neither zero pairs nor a first pair: the pass raises
    [TypeError]. *)
Lemma pair_without_chain_id_stops_the_pass :
  let pairs := [one_pair "kava" "2"; PDict [("priceUsd", PStr "1")]] in
  selected_pair pairs = Some (one_pair "kava" "2") /\
  described_screener_price pairs = Ok (PFloat f_two) /\
  screener_price (PDict [("pairs", PList pairs)]) = Raise KeyError /\
  screener_price (PDict [("pairs", PStr "none")]) = Raise TypeError.
Proof. vm_compute. repeat split. Qed.

(** C6, as stated, fails: looking up the unseen ["0xCC"] in an empty
    store adds two records, its own and the reference asset's. *)
Lemma find_unseen_token_adds_two_records :
  let r := find cfg_ex w_market 2 (Some "0xCC") st_empty in
  size (store st_empty) = 0%nat /\
  fst r = Ok (Some (set_price (tok "0xcc") (PFloat f_two_and_half))) /\
  is_Some (store (snd r) !! "0xcc") /\
  is_Some (store (snd r) !! "0xst") /\
  size (store (snd r)) = 2%nat.
Proof.
  vm_compute. repeat split; eexists; reflexivity.
Qed.


(** C8, as stated, fails: the screener quotes -1 for ["0xaa"], and -1.0
    is the price that is stored. *)
Lemma negative_quote_is_stored :
  let r := _update_price cfg_ex w_negative (find cfg_ex w_negative 2)
                         (tok "0xaa") st_empty in
  address (tok "0xaa") <> STABLE_TOKEN_ADDRESS cfg_ex /\
  fst r = Ok (set_price (tok "0xaa") (PFloat f_minus_one)) /\
  store (snd r) !! "0xaa" = Some (set_price (tok "0xaa") (PFloat f_minus_one)) /\
  py_nonneg (PFloat f_minus_one) = false.
Proof.
  split; [intros H; discriminate H|]. vm_compute. repeat split.
Qed.

(** C9, as stated, fails: the first entry of ["list1"] has no address,
    and ["0xbb"], which follows it in the same feed and would be
    ingested on its own, is never reached; the next feed is. *)
Lemma broken_entry_ends_its_feed :
  let r := from_tokenlists cfg_ex w_feeds 2 st_empty in
  fst (ingest_entry cfg_ex w_feeds 2 2222 entry_broken st_empty)
    = Raise KeyError /\
  is_Some (store (snd (ingest_entry cfg_ex w_feeds 2 2222 (entry "0xbb")
                                    st_empty)) !! "0xbb") /\
  fst r = Ok tt /\
  store (snd r) !! "0xbb" = None /\
  is_Some (store (snd r) !! "0xdd") /\
  trace (snd r)
    = [ChainIdRead; TokenlistGet "list1"; LogError KeyError;
       TokenlistGet "list2"; ScreenerGet "0xdd"; OracleGet "kava:0xdd";
       IdentityMulticall "0xst"; LogDebug;
       RouterCall (PInt (10 ^ 18)) "0xdd" "0xst"; LogDebug].
Proof.
  vm_compute. repeat split; eexists; reflexivity.
Qed.

(** ** Further properties of the methods *)

(** *** Relations every step respects *)

Section Respects.

Context (cfg : Settings) (w : World).

Variable R : state -> state -> Prop.
Hypothesis R_refl : forall st, R st st.
Hypothesis R_trans : forall a b c, R a b -> R b c -> R a c.
Hypothesis R_logged : forall ev st, R st (logged ev st).
Hypothesis R_saved : forall t st, R st (saved t st).

Lemma respects_ret {A} (a : A) : respects R (ret a).
Proof. intros st r st' [= _ <-]. apply R_refl. Qed.

Lemma respects_raise {A} (e : exn) : respects R (@raise A e).
Proof. intros st r st' [= _ <-]. apply R_refl. Qed.

Lemma respects_lift {A} (x : res A) : respects R (lift x).
Proof. intros st r st' [= _ <-]. apply R_refl. Qed.

Lemma respects_emit ev : respects R (emit ev).
Proof. intros st r st' [= _ <-]. apply R_logged. Qed.

Lemma respects_save t : respects R (save t).
Proof. intros st r st' [= _ <-]. apply R_saved. Qed.

Lemma respects_load k : respects R (load k).
Proof.
  intros st r st'. unfold load.
  destruct (store st !! k); intros [= _ <-]; apply R_refl.
Qed.

Lemma respects_bind {A B} (m : M A) (k : A -> M B) :
  respects R m -> (forall a, respects R (k a)) -> respects R (bind m k).
Proof.
  intros Hm Hk st r st'. unfold bind.
  destruct (m st) as [[a|e] st1] eqn:H1; pose proof (Hm _ _ _ H1) as H.
  - intros H2. exact (R_trans _ _ _ H (Hk a _ _ _ H2)).
  - now intros [= _ <-].
Qed.

Lemma respects_try {A} (m : M A) c (h : exn -> M A) :
  respects R m -> (forall e, respects R (h e)) -> respects R (try_except m c h).
Proof.
  intros Hm Hh st r st'. unfold try_except.
  destruct (m st) as [[a|e] st1] eqn:H1; pose proof (Hm _ _ _ H1) as H.
  - now intros [= _ <-].
  - destruct (c e).
    + intros H2. exact (R_trans _ _ _ H (Hh e _ _ _ H2)).
    + now intros [= _ <-].
Qed.

Lemma respects_call {A} ev (x : res A) : respects R (call ev x).
Proof.
  apply respects_bind; [apply respects_emit|intros; apply respects_lift].
Qed.

Lemma respects_for_each {A} (body : A -> M unit) l :
  (forall x, respects R (body x)) -> respects R (for_each body l).
Proof.
  intros Hb. induction l as [|x l IH]; cbn [for_each].
  - apply respects_ret.
  - apply respects_bind; [apply Hb|intros; apply IH].
Qed.

Ltac respect :=
  repeat first
    [ assumption
    | apply respects_ret | apply respects_raise | apply respects_lift
    | apply respects_emit | apply respects_call | apply respects_save
    | apply respects_load
    | apply respects_bind; [|intros ?]
    | apply respects_try; [|intros ?]
    | progress cbv zeta
    | match goal with
      | |- respects R (if ?b then _ else _) => destruct b
      | |- respects R (match ?x with _ => _ end) => destruct x
      end ].

Lemma respects_aggregated self :
  respects R (aggregated_price_in_stables cfg w self).
Proof.
  unfold aggregated_price_in_stables, dexscreener_price_in_stables,
    defillama_price_in_stables. respect.
Qed.

Lemma respects_update_price find_ self :
  (forall a, respects R (find_ a)) ->
  respects R (_update_price cfg w find_ self).
Proof.
  intros Hf. unfold _update_price.
  apply respects_bind; [apply respects_aggregated|intros p].
  unfold chain_price_in_stables. respect; apply Hf.
Qed.

Lemma respects_from_chain find_ a :
  (forall x, respects R (find_ x)) -> respects R (from_chain cfg w find_ a).
Proof.
  intros Hf. unfold from_chain, create.
  apply respects_bind; [apply respects_call|intros [[n s] d]].
  apply respects_bind; [respect|intros t].
  apply respects_bind; [now apply respects_update_price|intros t']. respect.
Qed.

Lemma respects_find fuel a : respects R (find cfg w fuel a).
Proof.
  revert a. induction fuel as [|fuel IH]; intros [a|]; cbn [find];
    try apply respects_ret;
    (apply respects_try;
     [apply respects_bind; [apply respects_load|intros; apply respects_ret]
     |intros e]).
  - apply respects_raise.
  - apply respects_bind; [|intros; apply respects_ret].
    apply respects_from_chain. exact IH.
Qed.

Lemma respects_ingest_entry fuel n x :
  respects R (ingest_entry cfg w fuel n x).
Proof.
  unfold ingest_entry, create.
  repeat first
    [ apply respects_update_price; intros; apply respects_find
    | apply respects_ret | apply respects_lift | apply respects_emit
    | apply respects_save
    | apply respects_bind; [|intros ?]
    | match goal with
      | |- respects R (if ?b then _ else _) => destruct b
      end ].
Qed.

Lemma respects_ingest_feed fuel n u : respects R (ingest_feed cfg w fuel n u).
Proof.
  unfold ingest_feed.
  apply respects_try; [|intros; apply respects_emit].
  apply respects_bind; [apply respects_call|intros resp].
  apply respects_bind; [apply respects_lift|intros tokens].
  apply respects_bind; [apply respects_lift|intros entries].
  apply respects_for_each. intros x. apply respects_ingest_entry.
Qed.

Lemma respects_from_tokenlists fuel : respects R (from_tokenlists cfg w fuel).
Proof.
  unfold from_tokenlists.
  apply respects_bind; [apply respects_call|intros n].
  apply respects_for_each. intros u. apply respects_ingest_feed.
Qed.

End Respects.

Section MoreProperties.

Context (cfg : Settings) (w : World).

(** *** The store stays keyed by address and never loses a record *)

Lemma keeps_keyed_saved t st : keeps_keyed st (saved t st).
Proof.
  intros Hk k r. cbn [saved store]. rewrite lookup_insert.
  destruct (decide (address t = k)) as [Heq|Hne].
  - now intros [= <-].
  - apply Hk.
Qed.

Lemma keeps_keyed_refl st : keeps_keyed st st.
Proof. intros H. exact H. Qed.

Lemma keeps_keyed_trans a b c :
  keeps_keyed a b -> keeps_keyed b c -> keeps_keyed a c.
Proof. intros H1 H2 H. exact (H2 (H1 H)). Qed.

Lemma keeps_keyed_logged ev st : keeps_keyed st (logged ev st).
Proof. intros H. exact H. Qed.

Lemma find_keeps_keyed fuel a : respects keeps_keyed (find cfg w fuel a).
Proof.
  apply respects_find;
    [apply keeps_keyed_refl | apply keeps_keyed_trans
    | apply keeps_keyed_logged | apply keeps_keyed_saved].
Qed.

(** *** Computations that agree step by step *)

Lemma bind_ext {A B} (m : M A) (k1 k2 : A -> M B) st :
  (forall a st1, k1 a st1 = k2 a st1) -> bind m k1 st = bind m k2 st.
Proof. intros H. unfold bind. destruct (m st) as [[a|e] st1]; [apply H|reflexivity]. Qed.

Lemma try_ext {A} (m1 m2 : M A) c h st :
  m1 st = m2 st -> try_except m1 c h st = try_except m2 c h st.
Proof. intros H. unfold try_except. now rewrite H. Qed.

Lemma for_each_ext {A} (b1 b2 : A -> M unit) l : forall st,
  (forall x st1, b1 x st1 = b2 x st1) -> for_each b1 l st = for_each b2 l st.
Proof.
  induction l as [|x l IH]; intros st H; [reflexivity|].
  cbn [for_each]. unfold bind. rewrite H.
  destruct (b2 x st) as [[[]|e] st1]; [now apply IH|reflexivity].
Qed.

Lemma ingest_entry_fuel m n x st :
  ingest_entry cfg w (S m) n x st = ingest_entry cfg w 1 n x st.
Proof.
  unfold ingest_entry.
  apply bind_ext. intros cid st1. destruct (negb _); [reflexivity|].
  apply bind_ext. intros a st2. apply bind_ext. intros addr st3. cbv zeta.
  destruct (bool_decide _); [reflexivity|].
  apply bind_ext. intros lsa st4. apply bind_ext. intros data2 st5.
  apply bind_ext. intros token st6. apply bind_ext. intros tags st7.
  apply bind_ext. intros tag st8. apply bind_ext. intros flag st9.
  unfold bind. now rewrite update_price_total.
Qed.

(** X1. The nesting of [find] through [from_chain], [_update_price] and
    [chain_price_in_stables] back into [find] stops after two levels:
    whatever the bound on the nesting is, from 2 on for [find] and from
    1 on for [_update_price] and [from_tokenlists], the outcome is the
    same, so the lookup of the reference asset inside a price update
    never recurses further. *)
Theorem find_nesting_is_bounded (m : nat) (a : option string) (self : Token)
  (st : state) :
  find cfg w (S (S m)) a st = find cfg w 2 a st /\
  _update_price cfg w (find cfg w (S m)) self st
    = _update_price cfg w (find cfg w 1) self st /\
  from_tokenlists cfg w (S m) st = from_tokenlists cfg w 1 st.
Proof.
  split; [apply find_total|]. split; [apply update_price_total|].
  unfold from_tokenlists. apply bind_ext. intros n st1.
  apply for_each_ext. intros u st2. unfold ingest_feed. apply try_ext.
  apply bind_ext. intros resp st3. apply bind_ext. intros tokens st4.
  apply bind_ext. intros entries st5. apply for_each_ext.
  intros x st6. apply ingest_entry_fuel.
Qed.

(** *** What [find] hands back *)

Lemma find_by_lower fuel a b st :
  lower b = lower a ->
  find cfg w fuel (Some b) st = find cfg w fuel (Some a) st.
Proof. intros H. destruct fuel; cbn [find]; now rewrite H. Qed.

(** X4. On a store keyed by address, the record [find] returns for an
    address carries the lowercase form of that address and is the one
    stored under it afterwards; and [find] gives the same outcome for
    every spelling of the address that has the same lowercase form. *)
Theorem find_returns_the_lowercase_record
  (fuel : nat) (a b : string) (t : Token) (st st' : state) :
  keyed_by_address st ->
  find cfg w fuel (Some a) st = (Ok (Some t), st') ->
  address t = lower a /\
  store st' !! lower a = Some t /\
  (lower b = lower a ->
   find cfg w fuel (Some b) st = (Ok (Some t), st')).
Proof.
  intros Hk Hf.
  pose proof (find_returns_stored cfg w _ _ _ _ _ Hf) as Hs.
  pose proof (find_keeps_keyed fuel _ _ _ _ Hf Hk) as Hk'.
  split; [exact (Hk' _ _ Hs)|]. split; [exact Hs|].
  intros Hb. now rewrite (find_by_lower fuel a b st Hb).
Qed.

(** *** When price resolution or creation fails *)

Lemma update_price_raise_only_adds find_ self st e st' :
  adds_reference_only cfg find_ ->
  _update_price cfg w find_ self st = (Raise e, st') ->
  only_adds (is_reference_key cfg) st st'.
Proof.
  intros Hf.
  destruct (aggregated_price_in_stables cfg w self st) as [[p|e0] st1] eqn:Ha;
    pose proof (net_only_store _ _ _ _ (net_only_aggregated cfg w self) Ha)
      as Hs1.
  - rewrite (update_price_eq cfg w _ _ _ _ _ Ha).
    destruct (py_eq_int p 0); [|discriminate].
    destruct (chain_price_in_stables cfg w find_ (set_price self p) st1)
      as [[p'|e1] st2] eqn:Hc; [discriminate|].
    intros [= _ <-].
    pose proof (chain_price_only_adds cfg w _ _ _ _ _ Hf Hc) as Hadd.
    intros k. rewrite <- Hs1. apply Hadd.
  - rewrite (update_price_raise cfg w _ _ _ _ _ Ha). intros [= _ <-].
    now apply only_adds_refl.
Qed.

Lemma pass_fault_raises find_ self st e st' :
  pass_fault cfg w find_ self st e st' ->
  _update_price cfg w find_ self st = (Raise e, st').
Proof.
  intros [Ha|(p & st1 & Ha & Hz & Hc)].
  - exact (update_price_raise cfg w _ _ _ _ _ Ha).
  - now rewrite (update_price_eq cfg w _ _ _ _ _ Ha), Hz, Hc.
Qed.

(** X5. A fault of one of the passes of a price resolution (of the
    first two passes or, when they yield 0, of the router pass with its
    lookup of the reference asset) is raised by the resolution before
    anything is written for the record: every record that was stored is
    still stored unchanged, the record it was called on included, and
    the only key that may be new is the reference asset's. *)
Theorem failed_resolution_writes_no_price
  (fuel : nat) (self : Token) (st st' : state) (e : exn) :
  pass_fault cfg w (find cfg w fuel) self st e st' ->
  _update_price cfg w (find cfg w fuel) self st = (Raise e, st') /\
  (forall k r, store st !! k = Some r -> store st' !! k = Some r) /\
  (forall k, store st !! k = None -> k <> lower (STABLE_TOKEN_ADDRESS cfg) ->
     store st' !! k = None).
Proof.
  intros Hp. pose proof (pass_fault_raises _ _ _ _ _ Hp) as Hu.
  pose proof (update_price_raise_only_adds _ _ _ _ _
                (find_adds_reference cfg w fuel) Hu) as Hadd.
  split; [exact Hu|]. split.
  - intros k r Hr. destruct (Hadd k) as [H|[H _]]; congruence.
  - intros k Hn Hk. destruct (Hadd k) as [H|[_ H]]; [congruence|].
    now elim Hk.
Qed.

(** X6. [find] on an address that is not stored: when the chain reads
    fail, the fault reaches the caller and nothing is stored; when they
    answer but one of the passes of the price resolution raises, the
    fault reaches the caller too, yet the record created before it
    stays in the store with price 0, so that the next [find] for the
    address is a hit that returns this unpriced record without any
    call. *)
Theorem find_failure_modes (fuel fuel' : nat) (a : string) (st : state) :
  store st !! lower a = None ->
  (forall e,
     chain_identity w (lower a) = Raise e ->
     find cfg w (S fuel) (Some a) st
       = (Raise e, logged (IdentityMulticall (lower a)) st)) /\
  (forall n s d e st1,
     chain_identity w (lower a) = Ok (n, s, d) ->
     let fresh := mkToken (lower a) (PStr n) (PStr s) (PInt d)
                          PNone (PInt 0) (PInt 0) PNone in
     pass_fault cfg w (find cfg w fuel) fresh
       (saved fresh (logged (IdentityMulticall (lower a)) st)) e st1 ->
     find cfg w (S fuel) (Some a) st = (Raise e, st1) /\
     store st1 !! lower a = Some fresh /\
     find cfg w fuel' (Some a) st1 = (Ok (Some fresh), st1)).
Proof.
  intros Hl. split.
  - intros e He.
    rewrite (find_miss cfg w _ _ _ Hl), from_chain_unfold, lower_idem.
    cbv zeta. now rewrite He.
  - intros n s d e st1 Hid fresh Hp.
    pose proof (pass_fault_raises _ _ _ _ _ Hp) as Hu.
    assert (Hs : store st1 !! lower a = Some fresh).
    { destruct (update_price_raise_only_adds _ _ _ _ _
                  (find_adds_reference cfg w fuel) Hu (lower a)) as [H|[H _]];
        cbn [saved store logged address] in H; unfold fresh in H;
        cbn [address] in H; rewrite lookup_insert_eq in H;
        [exact H|discriminate]. }
    split; [|split; [exact Hs|exact (find_hit cfg w _ _ _ _ Hs)]].
    rewrite (find_miss cfg w _ _ _ Hl), from_chain_unfold, lower_idem.
    cbv zeta. rewrite Hid. fold fresh. now rewrite Hu.
Qed.

(** *** Calls of the first two passes *)

(** X7. [aggregated_price_in_stables] never writes the store and never
    calls the router.  For the reference asset it makes no call; for any
    other address it asks the screener first and, only when the screener
    pass returned a price that is 0 or the address is a bluechip, the
    oracle once; a fault of the screener pass is its result. *)
Theorem first_two_passes_call_pattern (self : Token) (st : state) :
  exists r evs,
    aggregated_price_in_stables cfg w self st
      = (r, mkState (store st) (trace st ++ evs)) /\
    if is_stable_address cfg (address self)
    then r = Ok (PFloat f_one) /\ evs = []
    else
      match screener_outcome w (address self) with
      | Raise e => r = Raise e /\ evs = [ScreenerGet (address self)]
      | Ok p =>
          if negb (py_eq_int p 0) && negb (is_bluechip cfg (address self))
          then r = Ok p /\ evs = [ScreenerGet (address self)]
          else evs = [ScreenerGet (address self);
                      OracleGet ("kava:" ++ lower (address self))]
      end.
Proof.
  destruct (is_stable_address cfg (address self)) eqn:Hst.
  - exists (Ok (PFloat f_one)), []. split; [|now split].
    rewrite app_nil_r, state_eta.
    unfold aggregated_price_in_stables, dexscreener_price_in_stables,
      defillama_price_in_stables, bind, try_except, ret.
    rewrite Hst, one_is_not_zero. cbn [negb andb].
    now destruct (is_bluechip cfg (address self)).
  - assert (Hne : address self <> STABLE_TOKEN_ADDRESS cfg)
      by (now apply String.eqb_neq).
    unfold aggregated_price_in_stables, bind.
    rewrite (dexscreener_eq cfg w _ _ Hne). fold (screener_outcome w (address self)).
    destruct (screener_outcome w (address self)) as [p|e].
    + destruct (negb (py_eq_int p 0) && negb (is_bluechip cfg (address self))).
      * exists (Ok p), [ScreenerGet (address self)]. now repeat split.
      * unfold try_except. rewrite (defillama_eq cfg w _ _ Hne).
        destruct (match oracle_json w _ with Ok resp => _ | Raise e => _ end)
          as [q|e]; [|destruct (oracle_fault e)]; eexists;
          exists [ScreenerGet (address self);
                  OracleGet ("kava:" ++ lower (address self))];
          (split; [|reflexivity]); unfold ret, logged; cbn [store trace];
          now rewrite <- app_assoc.
    + exists (Raise e), [ScreenerGet (address self)]. now repeat split.
Qed.

(** *** Malformed answers *)

Lemma aggregated_untrusted_eq self st resp p :
  address self <> STABLE_TOKEN_ADDRESS cfg ->
  screener_json w (address self) = Ok resp ->
  screener_price resp = Ok p ->
  negb (py_eq_int p 0) && negb (is_bluechip cfg (address self)) = false ->
  aggregated_price_in_stables cfg w self st
    = try_except (defillama_price_in_stables cfg w self) oracle_fault
                 (fun _ => ret p) (logged (ScreenerGet (address self)) st).
Proof.
  intros Hne Hs Hp Ht. unfold aggregated_price_in_stables, bind.
  now rewrite (dexscreener_eq cfg w _ _ Hne), Hs, Hp, Ht.
Qed.

(** X8. An oracle answer whose [coins] field is not an object (null, a
    list, a string) or whose first coin is not an object makes the
    oracle pass raise [AttributeError]; that fault is none of the two
    the fallback catches, so whenever the oracle is consulted price
    resolution raises it, and nothing is written. *)
Theorem malformed_oracle_answer_escapes
  (fuel : nat) (self : Token) (st : state) (resp p : pyval)
  (d : list (string * pyval)) :
  address self <> STABLE_TOKEN_ADDRESS cfg ->
  screener_json w (address self) = Ok resp ->
  screener_price resp = Ok p ->
  negb (py_eq_int p 0) && negb (is_bluechip cfg (address self)) = false ->
  oracle_json w ("kava:" ++ lower (address self)) = Ok (PDict d) ->
  (exists v, assoc "coins" d = Some v /\ is_dict v = false) \/
  (exists k c rest, assoc "coins" d = Some (PDict ((k, c) :: rest)) /\
                    is_dict c = false) ->
  _update_price cfg w (find cfg w fuel) self st
    = (Raise AttributeError,
       logged (OracleGet ("kava:" ++ lower (address self)))
              (logged (ScreenerGet (address self)) st)).
Proof.
  intros Hne Hs Hp Ht Ho Hbad.
  assert (Hor : oracle_price (PDict d) = Raise AttributeError).
  { unfold oracle_price. cbn [py_get].
    destruct Hbad as [(v & Hv & Hnd)|(k & c & rest & Hv & Hnd)]; rewrite Hv.
    - destruct v; try reflexivity; discriminate.
    - destruct c; try reflexivity; discriminate. }
  apply update_price_raise.
  rewrite (aggregated_untrusted_eq _ _ _ _ Hne Hs Hp Ht).
  unfold try_except. now rewrite (defillama_eq cfg w _ _ Hne), Ho, Hor.
Qed.

(** X9. In a screener response whose pairs all carry a [chainId], a
    selected pair whose price text is not empty and is not read by
    [float] once its commas are removed (a text made of commas only,
    for one) makes the screener pass raise [ValueError], unlike the
    empty text, which counts as 0; the fault leaves price resolution
    after the one screener call, with the oracle not consulted and
    nothing written. *)
Theorem unparsable_price_text_escapes
  (fuel : nat) (self : Token) (st : state) (d pd : list (string * pyval))
  (pairs : list pyval) (s : string) :
  address self <> STABLE_TOKEN_ADDRESS cfg ->
  screener_json w (address self) = Ok (PDict d) ->
  assoc "pairs" d = Some (PList pairs) ->
  forallb has_chain_id pairs = true ->
  selected_pair pairs = Some (PDict pd) ->
  assoc "priceUsd" pd = Some (PStr s) ->
  s <> "" ->
  float_of_string (strip_commas s) = None ->
  pair_price (PDict pd) = Raise ValueError /\
  _update_price cfg w (find cfg w fuel) self st
    = (Raise ValueError, logged (ScreenerGet (address self)) st).
Proof.
  intros Hne Hs Hd Hwf Hsel Hpr Hnz Hbad.
  assert (Hpp : pair_price (PDict pd) = Raise ValueError).
  { unfold pair_price. cbn [py_get]. rewrite Hpr. unfold py_or.
    cbn [py_truthy].
    replace (String.eqb s "") with false
      by (symmetry; now apply String.eqb_neq).
    cbn [negb float_of_text_of]. now rewrite Hbad. }
  split; [exact Hpp|].
  apply update_price_raise. unfold aggregated_price_in_stables.
  apply bind_raise. rewrite (dexscreener_eq cfg w _ _ Hne), Hs.
  rewrite (screener_price_described d pairs Hd Hwf).
  unfold described_screener_price. now rewrite Hsel, Hpp.
Qed.

(** X10. A [pairs] field that is neither empty (null, 0, an empty text,
    list or object all count as no pairs) nor a list makes the screener
    pass raise [TypeError]. *)
Theorem pairs_must_be_a_list (d : list (string * pyval)) (v : pyval) :
  assoc "pairs" d = Some v ->
  (py_truthy v = false -> screener_price (PDict d) = Ok (PInt 0)) /\
  (py_truthy v = true -> is_list v = false ->
   screener_price (PDict d) = Raise TypeError).
Proof.
  intros Hd. unfold screener_price. cbn [py_get]. rewrite Hd. unfold py_or.
  split.
  - intros Ht. now rewrite Ht.
  - intros Ht Hl. rewrite Ht.
    destruct v as [|b|n|f|s|l|kv]; try discriminate; try reflexivity.
    + destruct s as [|c s]; [discriminate|]. cbn [py_len String.length].
      replace (Z.of_nat (S (String.length s)) =? 0) with false
        by (symmetry; apply Z.eqb_neq; lia).
      reflexivity.
    + destruct kv as [|[k x] kv]; [discriminate|]. cbn [py_len List.length].
      replace (Z.of_nat (S (List.length kv)) =? 0) with false
        by (symmetry; apply Z.eqb_neq; lia).
      reflexivity.
Qed.

(** X11. The router pass needs the record's decimals to be a number:
    for a record whose decimals are unset or a text, a list or an
    object, [10 ** self.decimals] raises [TypeError] before the router
    is called; the handler of the pass catches reverts only, so a price
    resolution that reaches the router pass raises, right after the
    lookup of the reference asset and with no price written. *)
Theorem router_pass_needs_numeric_decimals
  (fuel : nat) (self sc : Token) (st st1 st2 : state) (p : pyval) :
  address self <> STABLE_TOKEN_ADDRESS cfg ->
  aggregated_price_in_stables cfg w self st = (Ok p, st1) ->
  py_eq_int p 0 = true ->
  not_a_number (decimals self) = true ->
  find cfg w fuel (Some (STABLE_TOKEN_ADDRESS cfg)) st1 = (Ok (Some sc), st2) ->
  _update_price cfg w (find cfg w fuel) self st = (Raise TypeError, st2).
Proof.
  intros Hne Ha Hz Hd Hf.
  rewrite (update_price_eq cfg w _ _ _ _ _ Ha), Hz, chain_price_unfold.
  cbn [set_price address]. rewrite (is_stable_address_false cfg _ Hne), Hf.
  unfold router_quote, bind, try_except, lift. cbn [set_price decimals].
  assert (Hp : pow10 w (decimals self) = Raise TypeError)
    by (destruct (decimals self); try discriminate; reflexivity).
  now rewrite Hp.
Qed.

(** X12. The peg compares the record's address with the configured
    reference address as it is written, while [find] stores and returns
    records under lowercase addresses.  So when the configured address
    is not all lowercase, no record that [find] returns is pegged: the
    screener is asked for each of them, the reference asset included. *)
Theorem peg_needs_a_lowercase_setting
  (fuel : nat) (a : string) (t : Token) (st st' st2 : state) :
  lower (STABLE_TOKEN_ADDRESS cfg) <> STABLE_TOKEN_ADDRESS cfg ->
  keyed_by_address st ->
  find cfg w fuel (Some a) st = (Ok (Some t), st') ->
  is_stable_address cfg (address t) = false /\
  dexscreener_price_in_stables cfg w t st2
    = (screener_outcome w (address t), logged (ScreenerGet (address t)) st2).
Proof.
  intros Hcase Hk Hf.
  pose proof (find_returns_stored cfg w _ _ _ _ _ Hf) as Hs.
  pose proof (find_keeps_keyed fuel _ _ _ _ Hf Hk _ _ Hs) as Ha.
  assert (Hne : address t <> STABLE_TOKEN_ADDRESS cfg).
  { intros Heq. apply Hcase. rewrite <- Heq, Ha. apply lower_idem. }
  split; [now apply is_stable_address_false|].
  now rewrite (dexscreener_eq cfg w _ _ Hne).
Qed.

(** *** Ingestion, entry by entry *)

(** X13. [from_tokenlists] raises exactly when reading the chain id
    does, and then before any feed is fetched; every fault met later,
    in fetching a feed or in one of its entries, is absorbed. *)
Theorem ingestion_raises_iff_chain_id_fails (fuel : nat) (st : state) :
  (forall e, eth_chain_id w = Raise e ->
     from_tokenlists cfg w fuel st = (Raise e, logged ChainIdRead st)) /\
  (forall e st', from_tokenlists cfg w fuel st = (Raise e, st') ->
     eth_chain_id w = Raise e /\ st' = logged ChainIdRead st).
Proof.
  split.
  - intros e He. unfold from_tokenlists, bind. now rewrite call_eq, He.
  - intros e st'. unfold from_tokenlists, bind. rewrite call_eq.
    destruct (eth_chain_id w) as [n|e0].
    + rewrite for_each_feeds. discriminate.
    + now intros [= <- <-].
Qed.

Lemma assoc_set_same k v d : assoc k (assoc_set k v d) = Some v.
Proof.
  induction d as [|[k' v'] d IH]; cbn [assoc_set assoc].
  - now rewrite String.eqb_refl.
  - destruct (String.eqb k' k) eqn:Hk; cbn [assoc].
    + now rewrite String.eqb_refl.
    + now rewrite Hk.
Qed.

Lemma assoc_set_other k k' v d :
  k' <> k -> assoc k' (assoc_set k v d) = assoc k' d.
Proof.
  intros Hne. induction d as [|[k0 v0] d IH]; cbn [assoc_set assoc].
  - replace (String.eqb k k') with false; [reflexivity|].
    symmetry. apply String.eqb_neq. congruence.
  - destruct (String.eqb k0 k) eqn:Hk; cbn [assoc].
    + apply String.eqb_eq in Hk. subst k0.
      replace (String.eqb k k') with false; [reflexivity|].
      symmetry. apply String.eqb_neq. congruence.
    + now rewrite IH.
Qed.

(** X14. An entry of another chain (or with no chain id) is only
    logged: no record is created and no call is made.  The log line
    reads the entry's symbol, so such an entry without a symbol raises
    [KeyError], which ends its feed: the entries behind it are not
    ingested. *)
Theorem foreign_chain_entry_is_skipped
  (fuel : nat) (n : Z) (d : list (string * pyval)) (st : state) :
  on_chain d n = false ->
  (is_Some (assoc "symbol" d) ->
   ingest_entry cfg w fuel n (PDict d) st = (Ok tt, logged LogDebug st)) /\
  (assoc "symbol" d = None ->
   ingest_entry cfg w fuel n (PDict d) st = (Raise KeyError, st) /\
   forall u d0 rest st0,
     tokenlist_json w u = Ok (PDict d0) ->
     assoc "tokens" d0 = Some (PList (PDict d :: rest)) ->
     ingest_feed cfg w fuel n u st0
       = (Ok tt, logged (LogError KeyError) (logged (TokenlistGet u) st0))).
Proof.
  intros Hc.
  assert (Hhead : forall s, ingest_entry cfg w fuel n (PDict d) s
            = match assoc "symbol" d with
              | Some _ => (Ok tt, logged LogDebug s)
              | None => (Raise KeyError, s)
              end).
  { intros s. unfold ingest_entry, bind, lift. cbn [py_get].
    unfold on_chain, field in Hc. rewrite Hc. cbn [negb py_getitem].
    now destruct (assoc "symbol" d). }
  split.
  - intros [v Hv]. now rewrite Hhead, Hv.
  - intros Hn. split; [now rewrite Hhead, Hn|].
    intros u d0 rest st0 Hu Hd0. unfold ingest_feed, try_except.
    unfold bind at 1. rewrite call_eq, Hu.
    unfold bind at 1, lift at 1. cbn [py_getitem]. rewrite Hd0.
    unfold bind at 1, lift at 1. cbn [py_iter for_each].
    unfold bind at 1. now rewrite Hhead, Hn.
Qed.

(** X15. An entry of this chain is turned away before anything is
    written or called when its address is on the ignore list (compared
    in lowercase; the entry is then skipped without a fault), when it
    has no address ([KeyError]) or one that is no text
    ([AttributeError]), and when it has no [liquid_staked_address] key
    ([KeyError]) or a non-empty value there that is no text
    ([AttributeError]). *)
Theorem entry_rejected_before_any_write
  (fuel : nat) (n : Z) (d : list (string * pyval)) (st : state) :
  on_chain d n = true ->
  (assoc "address" d = None ->
   ingest_entry cfg w fuel n (PDict d) st = (Raise KeyError, st)) /\
  (forall v, assoc "address" d = Some v -> (forall a, v <> PStr a) ->
   ingest_entry cfg w fuel n (PDict d) st = (Raise AttributeError, st)) /\
  (forall a, assoc "address" d = Some (PStr a) ->
   (lower a ∈ IGNORED_TOKEN_ADDRESSES cfg ->
    ingest_entry cfg w fuel n (PDict d) st = (Ok tt, st)) /\
   (lower a ∉ IGNORED_TOKEN_ADDRESSES cfg ->
    (assoc "liquid_staked_address" d = None ->
     ingest_entry cfg w fuel n (PDict d) st = (Raise KeyError, st)) /\
    (forall lsa, assoc "liquid_staked_address" d = Some lsa ->
     py_truthy lsa = true -> (forall l, lsa <> PStr l) ->
     ingest_entry cfg w fuel n (PDict d) st = (Raise AttributeError, st)))).
Proof.
  intros Hc. unfold on_chain, field in Hc.
  assert (Hlsa : forall a, assoc "liquid_staked_address"
                   (assoc_set "address" (PStr (lower a)) d)
                 = assoc "liquid_staked_address" d)
    by (intros a; now apply assoc_set_other).
  split; [|split].
  - intros Ha. unfold ingest_entry, bind, lift. cbn [py_get].
    rewrite Hc. cbn [negb py_getitem]. now rewrite Ha.
  - intros v Hv Hns. unfold ingest_entry, bind, lift. cbn [py_get].
    rewrite Hc. cbn [negb py_getitem]. rewrite Hv.
    destruct v; try reflexivity. now elim (Hns s).
  - intros a Ha. split.
    + intros Hig. unfold ingest_entry, bind, lift. cbn [py_get].
      rewrite Hc. cbn [negb py_getitem]. rewrite Ha. cbn [py_lower].
      now rewrite (bool_decide_eq_true_2 _ Hig).
    + intros Hig. split.
      * intros Hn. unfold ingest_entry, bind, lift. cbn [py_get].
        rewrite Hc. cbn [negb py_getitem]. rewrite Ha. cbn [py_lower].
        rewrite (bool_decide_eq_false_2 _ Hig). cbn [entry_items py_getitem].
        now rewrite Hlsa, Hn.
      * intros lsa Hl Ht Hns. unfold ingest_entry, bind, lift. cbn [py_get].
        rewrite Hc. cbn [negb py_getitem]. rewrite Ha. cbn [py_lower].
        rewrite (bool_decide_eq_false_2 _ Hig). cbn [entry_items py_getitem].
        rewrite Hlsa, Hl, Ht.
        destruct lsa; try reflexivity. now elim (Hns s).
Qed.

Lemma ingest_entry_created
  (fuel : nat) (n : Z) (d : list (string * pyval)) (a : string) (lsa : pyval)
  (st : state) :
  on_chain d n = true ->
  assoc "address" d = Some (PStr a) ->
  lower a ∉ IGNORED_TOKEN_ADDRESSES cfg ->
  assoc "liquid_staked_address" d = Some lsa ->
  (py_truthy lsa = false \/ exists l, lsa = PStr l) ->
  ingest_entry cfg w fuel n (PDict d) st
    = let token := token_of_entry (lower a) (entry_data d a lsa) in
      match assoc "tags" d with
      | None => (Raise KeyError, saved token st)
      | Some tags =>
          match py_first tags with
          | Raise e => (Raise e, saved token st)
          | Ok tag =>
              match py_str_in "stablecoin" tag with
              | Raise e => (Raise e, saved token st)
              | Ok b =>
                  match _update_price cfg w (find cfg w fuel)
                          (set_stable token (PInt (if b then 1 else 0)))
                          (saved token st) with
                  | (Ok _, st1) => (Ok tt, logged LogDebug st1)
                  | (Raise e, st1) => (Raise e, st1)
                  end
              end
          end
      end.
Proof.
  intros Hc Ha Hig Hl Hok. unfold on_chain, field in Hc.
  assert (Htags : assoc "tags" (entry_data d a lsa) = assoc "tags" d).
  { unfold entry_data. cbv zeta.
    destruct lsa; try destruct (py_truthy _);
      rewrite ?(assoc_set_other "liquid_staked_address" "tags") by discriminate;
      now apply assoc_set_other. }
  unfold ingest_entry. unfold bind at 1, lift at 1. cbn [py_get].
  rewrite Hc. cbn [negb]. unfold bind at 1, lift at 1. cbn [py_getitem].
  rewrite Ha. unfold bind at 1, lift at 1. cbn [py_lower]. cbv zeta.
  rewrite (bool_decide_eq_false_2 _ Hig). cbn [entry_items].
  unfold bind at 1, lift at 1. cbn [py_getitem].
  rewrite (assoc_set_other "address" "liquid_staked_address") by discriminate.
  rewrite Hl.
  assert (Hdata : (if py_truthy lsa
                   then bind (lift (py_lower lsa))
                          (fun l => ret (assoc_set "liquid_staked_address"
                                           (PStr l)
                                           (assoc_set "address" (PStr (lower a)) d)))
                   else ret (assoc_set "address" (PStr (lower a)) d)) st
                  = (Ok (entry_data d a lsa), st)).
  { unfold entry_data. cbv zeta.
    destruct Hok as [Hf|[l ->]].
    - rewrite Hf. now destruct lsa.
    - destruct (py_truthy (PStr l)); reflexivity. }
  unfold bind at 1. rewrite Hdata.
  unfold bind at 1, create at 1, bind at 1, save at 1, ret at 1.
  change (mkState (<[?k := ?t]> (store ?x)) (trace ?x)) with (saved t x).
  unfold bind at 1, lift at 1. cbn [py_getitem]. rewrite Htags.
  destruct (assoc "tags" d) as [tags|]; [|reflexivity].
  unfold bind at 1, lift at 1.
  destruct (py_first tags) as [tag|e]; [|reflexivity].
  unfold bind at 1, lift at 1.
  destruct (py_str_in "stablecoin" tag) as [b|e]; [|reflexivity].
  unfold bind at 1.
  destruct (_update_price cfg w (find cfg w fuel) _ _) as [[t|e] st1];
    reflexivity.
Qed.

(** X16. An entry that passes the address checks is stored before its
    tags are read.  For an entry whose fields have the declared types
    (texts for the text fields it names, the liquid-staking address
    included, an int for the decimals, a number for the price), with an
    address that is not empty: when it has no [tags] key ([KeyError])
    or an empty tag list ([IndexError]), the fault is raised with the
    record already in the store, built from the entry's fields with the
    price the entry gave or else 0, and with no call made to resolve
    one; a later [find] for the address returns that record as it
    is. *)
Theorem entry_without_tags_leaves_unpriced_record
  (fuel fuel' : nat) (n : Z) (d : list (string * pyval)) (a l : string)
  (st : state) :
  on_chain d n = true ->
  typed_entry d = true ->
  assoc "address" d = Some (PStr a) ->
  a <> "" ->
  lower a ∉ IGNORED_TOKEN_ADDRESSES cfg ->
  assoc "liquid_staked_address" d = Some (PStr l) ->
  let token := token_of_entry (lower a) (entry_data d a (PStr l)) in
  ((assoc "tags" d = None ->
    ingest_entry cfg w fuel n (PDict d) st = (Raise KeyError, saved token st)) /\
   (assoc "tags" d = Some (PList []) ->
    ingest_entry cfg w fuel n (PDict d) st
      = (Raise IndexError, saved token st))) /\
  price token = field d "price" (PInt 0) /\
  trace (saved token st) = trace st /\
  find cfg w fuel' (Some a) (saved token st) = (Ok (Some token), saved token st).
Proof.
  intros Hc _ Ha _ Hig Hl token.
  pose proof (ingest_entry_created fuel n d a (PStr l) st Hc Ha Hig Hl
                (or_intror (ex_intro _ l eq_refl))) as He.
  cbv zeta in He. fold token in He.
  split; [split|split; [|split]].
  - intros Ht. now rewrite He, Ht.
  - intros Ht. now rewrite He, Ht.
  - unfold token, token_of_entry, field. cbn [price].
    replace (assoc "price" (entry_data d a (PStr l))) with (assoc "price" d);
      [reflexivity|].
    unfold entry_data. cbv zeta.
    destruct (py_truthy _);
      rewrite ?(assoc_set_other "liquid_staked_address" "price") by discriminate;
      symmetry; now apply assoc_set_other.
  - reflexivity.
  - apply find_hit. cbn [saved store token token_of_entry address].
    apply lookup_insert_eq.
Qed.

(** *** The stable flag *)

Lemma is_prefix_spec p : forall s,
  is_prefix p s = true <-> exists post, s = p ++ post.
Proof.
  induction p as [|a p IH]; intros s; cbn [is_prefix].
  - split; [intros _; now exists s|reflexivity].
  - destruct s as [|b s].
    + split; [discriminate|]. intros [post H]. discriminate H.
    + rewrite andb_true_iff, IH, Ascii.eqb_eq. split.
      * intros [-> [post ->]]. now exists post.
      * intros [post H]. cbn in H. injection H as -> ->. split; [reflexivity|].
        now exists post.
Qed.

Lemma is_substring_spec p : forall s,
  is_substring p s = true <-> exists pre post, s = pre ++ p ++ post.
Proof.
  induction s as [|c s IH].
  - cbn [is_substring]. rewrite orb_false_r, is_prefix_spec. split.
    + intros [post H]. now exists "", post.
    + intros (pre & post & H). destruct pre as [|x pre]; [|discriminate H].
      now exists post.
  - cbn [is_substring]. rewrite orb_true_iff, is_prefix_spec, IH. split.
    + intros [[post H]|(pre & post & H)].
      * now exists "", post.
      * exists (String c pre), post. cbn. now rewrite H.
    + intros (pre & post & H). destruct pre as [|x pre].
      * left. now exists post.
      * right. cbn in H. injection H as _ H. now exists pre, post.
Qed.

(** X17. An entry that is ingested replaces whatever was stored for its
    address.  For an entry whose fields have the declared types (texts
    for the text fields it names, the liquid-staking address included,
    an int for the decimals, a number for the price), with an address
    that is not empty and a first tag that is a text: after an [ingest]
    whose price resolution returns a record with a numeric price, the
    record stored under the lowercase address has the entry's name,
    symbol, decimals and logo, the price just resolved, and a stable
    flag that is 1 exactly when ["stablecoin"] occurs somewhere inside
    the first tag (the other tags are not looked at), and 0
    otherwise. *)
Theorem ingested_entry_record
  (fuel : nat) (n : Z) (d : list (string * pyval)) (a l : string)
  (tag : string) (more : list pyval) (st st1 : state) (t : Token) :
  on_chain d n = true ->
  typed_entry d = true ->
  assoc "address" d = Some (PStr a) ->
  a <> "" ->
  lower a ∉ IGNORED_TOKEN_ADDRESSES cfg ->
  assoc "liquid_staked_address" d = Some (PStr l) ->
  assoc "tags" d = Some (PList (PStr tag :: more)) ->
  let token := token_of_entry (lower a) (entry_data d a (PStr l)) in
  _update_price cfg w (find cfg w fuel)
    (set_stable token (PInt (if is_substring "stablecoin" tag then 1 else 0)))
    (saved token st) = (Ok t, st1) ->
  numeric_price (price t) = true ->
  ingest_entry cfg w fuel n (PDict d) st = (Ok tt, logged LogDebug st1) /\
  store st1 !! lower a = Some t /\
  address t = lower a /\
  name t = field d "name" PNone /\
  symbol t = field d "symbol" PNone /\
  decimals t = field d "decimals" PNone /\
  logoURI t = field d "logoURI" PNone /\
  (stable t = PInt 1 <-> exists pre post, tag = pre ++ "stablecoin" ++ post) /\
  (stable t = PInt 1 \/ stable t = PInt 0).
Proof.
  intros Hc _ Ha _ Hig Hl Ht token Hu _.
  pose proof (ingest_entry_created fuel n d a (PStr l) st Hc Ha Hig Hl
                (or_intror (ex_intro _ l eq_refl))) as He.
  cbv zeta in He. fold token in He.
  rewrite Ht in He. cbn [py_first py_str_in] in He. rewrite Hu in He.
  split; [exact He|].
  destruct (update_price_writes cfg w _ _ _ _ _
              (find_adds_reference cfg w fuel) Hu) as [_ Hres].
  destruct (Hres t eq_refl) as [Heq Hst].
  assert (Hother : forall k, k <> "address" -> k <> "liquid_staked_address" ->
            field (entry_data d a (PStr l)) k PNone = field d k PNone).
  { intros k H1 H2. unfold field, entry_data. cbv zeta.
    destruct (py_truthy _);
      rewrite ?(assoc_set_other "liquid_staked_address" k) by exact H2;
      now rewrite (assoc_set_other "address" k) by exact H1. }
  rewrite Heq. cbn [set_price set_stable address name symbol decimals logoURI
                    stable token token_of_entry].
  split; [rewrite <- Heq; exact Hst|].
  split; [reflexivity|].
  repeat (split; [apply Hother; discriminate|]).
  rewrite <- is_substring_spec.
  destruct (is_substring "stablecoin" tag); split.
  - now split.
  - now left.
  - split; discriminate.
  - now right.
Qed.

End MoreProperties.

(** *** No storage operation lets a negative price in *)

Section PriceSigns.

Context (cfg : Settings) (w : World).
Hypothesis sources : sources_nonneg w.

Lemma keeps_nonneg_refl st : keeps_nonneg st st.
Proof. intros H. exact H. Qed.

Lemma keeps_nonneg_trans a b c :
  keeps_nonneg a b -> keeps_nonneg b c -> keeps_nonneg a c.
Proof. intros H1 H2 H. exact (H2 (H1 H)). Qed.

Lemma keeps_nonneg_logged ev st : keeps_nonneg st (logged ev st).
Proof. intros H. exact H. Qed.

Lemma keeps_nonneg_store st st' : store st' = store st -> keeps_nonneg st st'.
Proof. intros Hs H k t. rewrite Hs. apply H. Qed.

Lemma keeps_nonneg_saved t st :
  py_nonneg (price t) = true -> keeps_nonneg st (saved t st).
Proof.
  intros Ht H k r. cbn [saved store]. rewrite lookup_insert.
  destruct (decide (address t = k)); [now intros [= <-]|apply H].
Qed.

Lemma binary_round_aux_sign s mx ex lx :
  0 <= mx ->
  match binary_round_aux prec emax s mx ex lx with
  | S754_zero s' | S754_infinity s' | S754_finite s' _ _ => s' = s
  | S754_nan => False
  end.
Proof.
  intros H. unfold binary_round_aux.
  pose proof (shr_fexp_nonneg mx ex lx H) as H1.
  destruct (shr_fexp prec emax mx ex lx) as [mrs' e']. cbn [fst] in H1.
  pose proof (shr_fexp_nonneg _ e' loc_Exact
                (round_nearest_even_nonneg _ (loc_of_shr_record mrs') H1)) as H2.
  destruct (shr_fexp prec emax (round_nearest_even _ _) e' loc_Exact)
    as [mrs'' e'']. cbn [fst] in H2.
  destruct (shr_m mrs'') as [|m|m]; [reflexivity| |lia].
  destruct (e'' <=? emax - prec); reflexivity.
Qed.

Lemma float_of_int_nonneg n x :
  0 <= n -> float_of_int n = Ok x ->
  is_finite_float x = true /\ SFleb f_zero x = true.
Proof.
  intros Hn. unfold float_of_int. destruct n as [|p|p]; [| |lia].
  - intros [= <-]. split; reflexivity.
  - cbn [binary_normalize]. unfold binary_round.
    destruct (shl_align _ _ _) as [mz ez].
    pose proof (binary_round_aux_sign false (Z.pos mz) ez loc_Exact
                  ltac:(lia)) as Hs.
    destruct (binary_round_aux prec emax false (Z.pos mz) ez loc_Exact)
      as [s|s| |s m e]; try discriminate; try (now destruct Hs);
      intros [= <-]; subst s; split; reflexivity.
Qed.

(** A quotient of two floats that are not below zero is not below
    zero. *)
Lemma SFdiv_nonneg x y :
  is_finite_float x = true -> SFleb f_zero x = true ->
  SFleb f_zero y = true -> float_is_zero y = false ->
  SFleb f_zero (SFdiv prec emax x y) = true.
Proof.
  destruct x as [sx|sx| |sx mx ex]; try discriminate;
    destruct y as [sy|sy| |sy my ey]; try discriminate; intros _ Hx Hy _.
  - destruct sx, sy; try discriminate Hy; reflexivity.
  - destruct sx, sy; reflexivity.
  - destruct sx, sy; try discriminate Hx; try discriminate Hy; reflexivity.
  - destruct sx; [discriminate Hx|]. destruct sy; [discriminate Hy|].
    cbn [SFdiv xorb]. unfold SFdiv_core_binary.
    set (m' := match _ - _ - _ with Z.pos _ => _ | Z0 => _ | Z.neg _ => _ end).
    assert (Hm : 0 <= m').
    { subst m'. destruct (_ - _ - _); try lia. now apply Z.shiftl_nonneg. }
    pose proof (Z.div_pos m' (Z.pos my) Hm ltac:(lia)) as Hdiv.
    unfold Z.div in Hdiv.
    destruct (Z.div_eucl m' (Z.pos my)) as [q r].
    now apply binary_round_aux_nonneg.
Qed.

Lemma pow10_positive v q :
  pow10 w v = Ok q ->
  (exists n, q = PInt n /\ 0 < n) \/
  (exists y, q = PFloat y /\ SFleb f_zero y = true).
Proof.
  destruct sources as (_ & _ & _ & Hpow & _).
  destruct v as [|b|n|x|s|l|d]; cbn [pow10]; try discriminate.
  - intros [= <-]. left. eexists. split; [reflexivity|]. now destruct b.
  - destruct (Z.leb_spec 0 n) as [Hn|Hn].
    + intros [= <-]. left. eexists. split; [reflexivity|].
      apply Z.pow_pos_nonneg; lia.
    + destruct (float_of_int n) as [x|e]; [|discriminate].
      destruct (float_pow10 w x) as [f|e] eqn:Hf; [|discriminate].
      intros [= <-]. right. exists f. split; [reflexivity|]. exact (Hpow _ _ Hf).
  - destruct (float_pow10 w x) as [f|e] eqn:Hf; [|discriminate].
    intros [= <-]. right. exists f. split; [reflexivity|]. exact (Hpow _ _ Hf).
Qed.

Lemma truediv_nonneg amount q p :
  0 <= amount ->
  (exists n, q = PInt n /\ 0 < n) \/
  (exists y, q = PFloat y /\ SFleb f_zero y = true) ->
  truediv amount q = Ok p -> py_nonneg p = true.
Proof.
  intros Ha [(n & -> & Hn)|(y & -> & Hy)]; cbn [truediv].
  - destruct (int_truediv amount n) as [f|e] eqn:Hdiv; [|discriminate].
    intros [= <-]. cbn [py_nonneg].
    exact (int_truediv_nonneg amount n f Ha Hn Hdiv).
  - destruct (float_of_int amount) as [x|e] eqn:Hx; [|discriminate].
    destruct (float_is_zero y) eqn:Hz; [discriminate|].
    intros [= <-]. cbn [py_nonneg].
    destruct (float_of_int_nonneg _ _ Ha Hx) as [Hfin Hpos].
    now apply SFdiv_nonneg.
Qed.

Lemma router_quote_sign self sc st p st' :
  router_quote cfg w self sc st = (Ok p, st') -> py_nonneg p = true.
Proof.
  destruct sources as (_ & _ & Hrt & _).
  unfold router_quote, bind, try_except, lift, ret.
  destruct (pow10 w (decimals self)) as [a|e].
  - rewrite call_eq.
    destruct (router_getAmountOut w _ a _ _) as [[amount b]|e] eqn:Hcall.
    + destruct (pow10 w (decimals sc)) as [q|e] eqn:Hq; [|discriminate].
      intros [= H _].
      apply (truediv_nonneg amount q);
        [|exact (pow10_positive _ _ Hq)|exact H].
      exact (Hrt _ _ _ _ _ _ Hcall).
    + destruct (is_revert e); [|discriminate]. now intros [= <- _].
  - destruct (is_revert e); [|discriminate]. now intros [= <- _].
Qed.

Lemma aggregated_sign self st p st1 :
  aggregated_price_in_stables cfg w self st = (Ok p, st1) ->
  py_nonneg p = true.
Proof.
  destruct sources as (Hscr & Horc & _).
  intros Ha. destruct (aggregated_ok cfg w _ _ _ _ Ha)
    as [->|[(resp & H1 & H2)|(resp & H1 & H2)]]; eauto.
Qed.

Lemma update_price_keeps_nonneg find_ self :
  (forall a, respects keeps_nonneg (find_ a)) ->
  respects keeps_nonneg (_update_price cfg w find_ self).
Proof.
  intros Hf st r st' Hu.
  destruct (aggregated_price_in_stables cfg w self st) as [[p|e] st1] eqn:Ha;
    pose proof (net_only_store _ _ _ _ (net_only_aggregated cfg w self) Ha)
      as Hs1.
  - pose proof (aggregated_sign _ _ _ _ Ha) as Hp.
    rewrite (update_price_eq cfg w _ _ _ _ _ Ha) in Hu.
    destruct (py_eq_int p 0).
    + rewrite chain_price_unfold in Hu. cbn [set_price address] in Hu.
      destruct (is_stable_address cfg (address self)).
      * injection Hu as _ <-.
        apply (keeps_nonneg_trans _ st1); [now apply keeps_nonneg_store|].
        now apply keeps_nonneg_saved.
      * destruct (find_ (Some (STABLE_TOKEN_ADDRESS cfg)) st1)
          as [[[sc|]|e] stf] eqn:Hfind;
          pose proof (keeps_nonneg_trans _ _ _
                        (keeps_nonneg_store _ _ Hs1) (Hf _ _ _ _ Hfind)) as Hk.
        -- destruct (router_quote cfg w (set_price self p) sc stf)
             as [[p'|e] st2] eqn:Hq;
             pose proof (net_only_store _ _ _ _
                           (net_only_router_quote cfg w _ sc) Hq) as Hs2;
             injection Hu as _ <-.
           ++ apply (keeps_nonneg_trans _ st2).
              ** apply (keeps_nonneg_trans _ stf); [exact Hk|].
                 now apply keeps_nonneg_store.
              ** apply keeps_nonneg_saved. cbn [set_price price].
                 exact (router_quote_sign _ _ _ _ _ Hq).
           ++ apply (keeps_nonneg_trans _ stf); [exact Hk|].
              now apply keeps_nonneg_store.
        -- now injection Hu as _ <-.
        -- now injection Hu as _ <-.
    + injection Hu as _ <-.
      apply (keeps_nonneg_trans _ st1); [now apply keeps_nonneg_store|].
      now apply keeps_nonneg_saved.
  - rewrite (update_price_raise cfg w _ _ _ _ _ Ha) in Hu.
    injection Hu as _ <-. now apply keeps_nonneg_store.
Qed.

Lemma create_keeps_nonneg t :
  py_nonneg (price t) = true -> respects keeps_nonneg (create t).
Proof.
  intros Ht st r st'. unfold create, bind, save, ret. intros [= _ <-].
  exact (keeps_nonneg_saved t st Ht).
Qed.

Lemma from_chain_keeps_nonneg find_ a :
  (forall x, respects keeps_nonneg (find_ x)) ->
  respects keeps_nonneg (from_chain cfg w find_ a).
Proof.
  intros Hf. unfold from_chain.
  apply (respects_bind _ keeps_nonneg_trans);
    [apply (respects_call _ keeps_nonneg_refl keeps_nonneg_trans
              keeps_nonneg_logged)|intros [[n s] d]].
  apply (respects_bind _ keeps_nonneg_trans);
    [now apply create_keeps_nonneg|intros t].
  apply (respects_bind _ keeps_nonneg_trans);
    [now apply update_price_keeps_nonneg|intros t'].
  apply (respects_bind _ keeps_nonneg_trans);
    [apply (respects_emit _ keeps_nonneg_logged)
    |intros; apply (respects_ret _ keeps_nonneg_refl)].
Qed.

Lemma find_keeps_nonneg fuel a : respects keeps_nonneg (find cfg w fuel a).
Proof.
  revert a. induction fuel as [|fuel IH]; intros [a|]; cbn [find];
    try apply (respects_ret _ keeps_nonneg_refl);
    (apply (respects_try _ keeps_nonneg_trans);
     [apply (respects_bind _ keeps_nonneg_trans);
      [apply (respects_load _ keeps_nonneg_refl)
      |intros; apply (respects_ret _ keeps_nonneg_refl)]
     |intros e]).
  - apply (respects_raise _ keeps_nonneg_refl).
  - apply (respects_bind _ keeps_nonneg_trans);
      [|intros; apply (respects_ret _ keeps_nonneg_refl)].
    apply from_chain_keeps_nonneg. exact IH.
Qed.

(** A step whose result is known to satisfy [P]. *)
Lemma respects_bind_known {A B} (P : A -> Prop) (m : M A) (k : A -> M B) :
  respects keeps_nonneg m ->
  (forall st a st', m st = (Ok a, st') -> P a) ->
  (forall a, P a -> respects keeps_nonneg (k a)) ->
  respects keeps_nonneg (bind m k).
Proof.
  intros Hm HP Hk st r st'. unfold bind.
  destruct (m st) as [[a|e] st1] eqn:H1; pose proof (Hm _ _ _ H1) as H.
  - intros H2. exact (keeps_nonneg_trans _ _ _ H (Hk a (HP _ _ _ H1) _ _ _ H2)).
  - now intros [= _ <-].
Qed.

Lemma ingest_entry_keeps_nonneg fuel n x :
  py_nonneg (field (entry_items x) "price" (PInt 0)) = true ->
  respects keeps_nonneg (ingest_entry cfg w fuel n x).
Proof.
  intros Hx. unfold ingest_entry.
  pose proof (fun A (r : res A) => respects_lift _ keeps_nonneg_refl r) as Hlift.
  pose proof (respects_emit _ keeps_nonneg_logged) as Hemit.
  apply (respects_bind _ keeps_nonneg_trans); [apply Hlift|intros cid].
  destruct (negb _).
  { apply (respects_bind _ keeps_nonneg_trans); [apply Hlift|intros; apply Hemit]. }
  apply (respects_bind _ keeps_nonneg_trans); [apply Hlift|intros a].
  apply (respects_bind _ keeps_nonneg_trans); [apply Hlift|intros addr].
  cbv zeta. destruct (bool_decide _); [apply (respects_ret _ keeps_nonneg_refl)|].
  apply (respects_bind _ keeps_nonneg_trans); [apply Hlift|intros lsa].
  apply (respects_bind_known
           (fun data2 => field data2 "price" (PInt 0)
                         = field (entry_items x) "price" (PInt 0))).
  - destruct (py_truthy lsa); [|apply (respects_ret _ keeps_nonneg_refl)].
    apply (respects_bind _ keeps_nonneg_trans);
      [apply Hlift|intros; apply (respects_ret _ keeps_nonneg_refl)].
  - intros st data2 st'.
    assert (H1 : field (assoc_set "address" (PStr addr) (entry_items x))
                   "price" (PInt 0)
                 = field (entry_items x) "price" (PInt 0)).
    { unfold field. now rewrite (assoc_set_other "address" "price"). }
    destruct (py_truthy lsa).
    + unfold bind, lift, ret. destruct (py_lower lsa) as [l|e]; [|discriminate].
      intros [= <- _]. unfold field in *.
      now rewrite (assoc_set_other "liquid_staked_address" "price").
    + unfold ret. now intros [= <- _].
  - intros data2 Hd.
    apply (respects_bind_known
             (fun token => price token = field data2 "price" (PInt 0))).
    + apply create_keeps_nonneg. cbn [token_of_entry price]. now rewrite Hd.
    + intros st token st'. unfold create, bind, save, ret.
      now intros [= <- _].
    + intros token Ht.
      apply (respects_bind _ keeps_nonneg_trans); [apply Hlift|intros tags].
      apply (respects_bind _ keeps_nonneg_trans); [apply Hlift|intros tag].
      apply (respects_bind _ keeps_nonneg_trans); [apply Hlift|intros flag].
      cbv zeta.
      apply (respects_bind _ keeps_nonneg_trans);
        [|intros; apply Hemit].
      apply update_price_keeps_nonneg. intros b. apply find_keeps_nonneg.
Qed.

Lemma for_each_keeps_nonneg {A} (body : A -> M unit) l :
  (forall x, x ∈ l -> respects keeps_nonneg (body x)) ->
  respects keeps_nonneg (for_each body l).
Proof.
  induction l as [|x l IH]; intros Hb; cbn [for_each].
  - apply (respects_ret _ keeps_nonneg_refl).
  - apply (respects_bind _ keeps_nonneg_trans).
    + apply Hb. now left.
    + intros _. apply IH. intros y Hy. apply Hb. now right.
Qed.

Lemma ingest_feed_keeps_nonneg fuel n u :
  respects keeps_nonneg (ingest_feed cfg w fuel n u).
Proof.
  destruct sources as (_ & _ & _ & _ & Hfeeds).
  unfold ingest_feed.
  apply (respects_try _ keeps_nonneg_trans);
    [|intros; apply (respects_emit _ keeps_nonneg_logged)].
  apply (respects_bind_known (fun resp => tokenlist_json w u = Ok resp)).
  { apply (respects_call _ keeps_nonneg_refl keeps_nonneg_trans
             keeps_nonneg_logged). }
  { intros st a st'. rewrite call_eq. now intros [= -> _]. }
  intros resp Hresp.
  apply (respects_bind_known (fun tokens => py_getitem resp "tokens" = Ok tokens)).
  { apply (respects_lift _ keeps_nonneg_refl). }
  { intros st a st'. unfold lift. now intros [= -> _]. }
  intros tokens Htokens.
  apply (respects_bind_known (fun entries => py_iter tokens = Ok entries)).
  { apply (respects_lift _ keeps_nonneg_refl). }
  { intros st a st'. unfold lift. now intros [= -> _]. }
  intros entries Hentries.
  apply for_each_keeps_nonneg. intros x Hin.
  apply ingest_entry_keeps_nonneg.
  destruct x as [| | | | | |d]; try reflexivity. cbn [entry_items].
  exact (Hfeeds u resp tokens entries d Hresp Htokens Hentries Hin).
Qed.

Lemma from_tokenlists_keeps_nonneg fuel :
  respects keeps_nonneg (from_tokenlists cfg w fuel).
Proof.
  unfold from_tokenlists.
  apply (respects_bind _ keeps_nonneg_trans);
    [apply (respects_call _ keeps_nonneg_refl keeps_nonneg_trans
              keeps_nonneg_logged)|intros n].
  apply for_each_keeps_nonneg. intros u _. apply ingest_feed_keeps_nonneg.
Qed.

(** C8 (amended). No storage operation checks the sign of a price: each
    persists what its source reported.  So when no source reports a
    negative or non-numeric value (the screener's prices, the oracle's
    prices, the router's amounts, the powers of ten, the price fields of
    the feeds' entries) and every stored price is a number not below 0,
    this is still so after [find], after [from_chain], after a price
    resolution and after a catalog ingestion, whether they return or
    end with the fault of one of their steps; and the price a
    resolution returns is such a number. *)
Theorem stored_price_nonneg_when_quotes_are (fuel : nat) (st : state) :
  prices_nonneg st ->
  (forall a r st', find cfg w fuel a st = (r, st') -> prices_nonneg st') /\
  (forall a r st', from_chain cfg w (find cfg w fuel) a st = (r, st') ->
     prices_nonneg st') /\
  (forall self r st',
     _update_price cfg w (find cfg w fuel) self st = (r, st') ->
     prices_nonneg st' /\ forall t, r = Ok t -> py_nonneg (price t) = true) /\
  (forall r st', from_tokenlists cfg w fuel st = (r, st') ->
     prices_nonneg st').
Proof.
  intros Hst. split; [|split; [|split]].
  - intros a r st' H. exact (find_keeps_nonneg fuel a _ _ _ H Hst).
  - intros a r st' H.
    exact (from_chain_keeps_nonneg (find cfg w fuel) a
             (find_keeps_nonneg fuel) _ _ _ H Hst).
  - intros self r st' H.
    assert (Hnn : prices_nonneg st').
    { apply (update_price_keeps_nonneg (find cfg w fuel) self
               (find_keeps_nonneg fuel) _ _ _ H Hst). }
    split; [exact Hnn|]. intros t ->.
    destruct (update_price_writes cfg w _ _ _ _ _
                (find_adds_reference cfg w fuel) H) as [_ Hres].
    destruct (Hres t eq_refl) as [_ Hsto]. exact (Hnn _ _ Hsto).
  - intros r st' H. exact (from_tokenlists_keeps_nonneg fuel _ _ _ H Hst).
Qed.

End PriceSigns.

(** The sample market reports no negative value. *)
Lemma market_sources_nonneg : sources_nonneg w_market.
Proof.
  split; [|split; [|split; [|split]]].
  - intros a resp p. cbn [screener_json w_market].
    destruct (String.eqb a "0xaa"); [|destruct (String.eqb a "0xbc")];
      intros [= <-]; vm_compute; now intros [= <-].
  - intros k resp q. cbn [oracle_json w_market].
    destruct (String.eqb k "kava:0xbc");
      intros [= <-]; vm_compute; now intros [= <-].
  - intros r a x y amount b. cbn [router_getAmountOut w_market].
    destruct (String.eqb x "0xcc"); [|discriminate].
    intros [= <- _]. discriminate.
  - intros x y. cbn [float_pow10 w_market]. discriminate.
  - intros u resp tokens entries d. cbn [tokenlist_json w_market].
    intros [= <-]. cbn [py_getitem assoc String.eqb Ascii.eqb Bool.eqb].
    intros [= <-]. cbn [py_iter]. intros [= <-] Hin.
    now apply elem_of_nil in Hin.
Qed.

Lemma st_known_nonneg a : prices_nonneg (st_known a).
Proof.
  intros k t. unfold st_known. cbn [store]. rewrite lookup_insert.
  destruct (decide (a = k)) as [->|Hne]; [now intros [= <-]|].
  rewrite lookup_singleton.
  destruct (decide ("0xst" = k)) as [<-|Hne']; [now intros [= <-]|discriminate].
Qed.

Lemma market_price_is_nonneg :
  let r := _update_price cfg_ex w_market (find cfg_ex w_market 2)
                         (tok "0xcc") (st_known "0xcc") in
  sources_nonneg w_market /\
  prices_nonneg (st_known "0xcc") /\
  fst r = Ok (set_price (tok "0xcc") (PFloat f_two_and_half)) /\
  prices_nonneg (snd r) /\
  py_nonneg (PFloat f_two_and_half) = true.
Proof.
  intros r.
  assert (Hr : fst r = Ok (set_price (tok "0xcc") (PFloat f_two_and_half)))
    by (vm_compute; reflexivity).
  destruct (stored_price_nonneg_when_quotes_are cfg_ex w_market
              market_sources_nonneg 2 (st_known "0xcc")
              (st_known_nonneg "0xcc")) as (_ & _ & Hu & _).
  destruct (Hu (tok "0xcc") (fst r) (snd r) (surjective_pairing r))
    as [Hnn Hp].
  split; [exact market_sources_nonneg|].
  split; [exact (st_known_nonneg "0xcc")|].
  split; [exact Hr|]. split; [exact Hnn|].
  exact (Hp _ Hr).
Defined.

(** *** Decimal texts *)

Lemma digit_run_uint u : forall acc cnt,
  digit_run acc cnt (list_ascii_of_string (NilEmpty.string_of_uint u))
    = (uint_acc u acc,
       cnt + Z.of_nat (String.length (NilEmpty.string_of_uint u)), []).
Proof.
  induction u; intros acc cnt;
    cbn [NilEmpty.string_of_uint list_ascii_of_string String.length uint_acc];
    [cbn [digit_run]; now rewrite Z.add_0_r|..];
    (cbn [digit_run];
     match goal with
     | |- context [digit_of ?c] =>
         let v := eval vm_compute in (digit_of c) in
         change (digit_of c) with v
     end;
     cbv iota beta; rewrite IHu, ?Z.add_0_r; f_equal; f_equal; lia).
Qed.

Lemma uint_acc_value u : forall a : N,
  uint_acc u (Z.of_N a)
    = Z.of_N (Unsigned.of_lu (Decimal.rev u) + a * 10 ^ Unsigned.usize u).
Proof.
  induction u; intros a; cbn [uint_acc Unsigned.usize];
    [cbn; f_equal; lia|..];
    (match goal with
     | |- uint_acc _ ?x = _ =>
         match x with
         | (10 * Z.of_N a + ?k)%Z =>
             replace x with (Z.of_N (10 * a + Z.to_N k)) by lia
         | (10 * Z.of_N a)%Z => replace x with (Z.of_N (10 * a)) by lia
         end
     end;
     rewrite IHu; unfold Decimal.rev; cbn [Decimal.revapp];
     rewrite (Unsigned.of_lu_revapp u (_ Nil)); cbn [Unsigned.of_lu];
     rewrite N.pow_succ_r'; unfold Decimal.rev; f_equal; cbn [Z.to_N]; ring).
Qed.

Lemma uint_acc_to_uint p : uint_acc (Pos.to_uint p) 0 = Z.pos p.
Proof.
  change 0 with (Z.of_N 0). rewrite uint_acc_value.
  rewrite N.mul_0_l, N.add_0_r, <- Unsigned.of_uint_alt, Unsigned.of_to.
  reflexivity.
Qed.

Lemma digit_char_facts c :
  is_Some (digit_of c) ->
  is_space c = false /\ Ascii.eqb c "-" = false /\ Ascii.eqb c "+" = false /\
  Ascii.eqb c "," = false /\ Ascii.eqb (lower_ascii c) "i" = false /\
  Ascii.eqb (lower_ascii c) "n" = false.
Proof.
  destruct c as [[] [] [] [] [] [] [] []]; vm_compute;
    intros [x H]; try discriminate H; repeat split.
Qed.

Lemma digit_char_plain c : is_Some (digit_of c) -> (code c <? 127) = true.
Proof.
  destruct c as [[] [] [] [] [] [] [] []]; vm_compute;
    intros [x H]; try discriminate H; reflexivity.
Qed.

(** A text of characters below 127 is its own ASCII form. *)
Lemma ascii_form_plain l :
  Forall (fun c => (code c <? 127) = true) l -> ascii_form (code_points l) = l.
Proof.
  induction l as [|c l IH]; [reflexivity|].
  intros H. inversion H as [|? ? Hc Hl]. subst.
  cbn [code_points]. cbv zeta.
  assert (H128 : (code c <? 128) = true).
  { apply Z.ltb_lt. apply Z.ltb_lt in Hc. lia. }
  rewrite H128. cbn [ascii_form]. rewrite Hc.
  assert (H0 : (0 <=? code c) = true) by (apply Z.leb_le; unfold code; lia).
  rewrite H0. cbn [andb]. rewrite (IH Hl). f_equal.
  unfold ascii_of_code, code. now rewrite N2Z.id, ascii_N_embedding.
Qed.

Lemma uint_text_digits u :
  Forall (fun c => is_Some (digit_of c))
         (list_ascii_of_string (NilEmpty.string_of_uint u)).
Proof.
  induction u; cbn [NilEmpty.string_of_uint list_ascii_of_string];
    constructor; try exact IHu; eexists; vm_compute; reflexivity.
Qed.

Lemma strip_clean l :
  Forall (fun c => is_space c = false) l -> strip l = l.
Proof.
  intros Hl. unfold strip.
  set (drop := fix drop (l : list ascii) : list ascii :=
         match l with
         | c :: l' => if is_space c then drop l' else l
         | [] => []
         end).
  assert (Hd : forall k, Forall (fun c => is_space c = false) k -> drop k = k).
  { intros [|c k] Hk; [reflexivity|]. cbn. inversion Hk as [|? ? Hc _].
    now rewrite Hc. }
  rewrite (Hd l Hl), Hd by (now apply Forall_rev).
  apply rev_involutive.
Qed.

Lemma strip_commas_clean s :
  Forall (fun c => Ascii.eqb c "," = false) (list_ascii_of_string s) ->
  strip_commas s = s.
Proof.
  induction s as [|c s IH]; [reflexivity|].
  cbn [list_ascii_of_string strip_commas]. intros H.
  inversion H as [|? ? Hc Hs]. now rewrite Hc, IH.
Qed.

(** The text of a run of digits, with or without a minus sign in front,
    as the two parsers see it. *)
Lemma digits_text_read (neg : bool) (u : Decimal.uint) :
  u <> Nil ->
  let digits := NilEmpty.string_of_uint u in
  let text := if neg then String "-" digits else digits in
  strip_commas text = text /\
  float_of_string text = Some (round_decimal neg (uint_acc u 0) 0) /\
  int_of_string text
    = if Z.of_nat (String.length digits) <=? 4300
      then Some (cond_Zopp neg (uint_acc u 0)) else None.
Proof.
  intros Hu digits text.
  pose proof (uint_text_digits u) as Hdig. fold digits in Hdig.
  pose proof (digit_run_uint u 0 0) as Hrun. fold digits in Hrun.
  rewrite Z.add_0_l in Hrun.
  destruct (list_ascii_of_string digits) as [|c l] eqn:Hl.
  { destruct u; try discriminate Hl. now elim Hu. }
  inversion Hdig as [|? ? Hc Hrest]. subst.
  destruct (digit_char_facts c Hc) as (Hsp & Hmi & Hpl & Hco & Hi & Hn).
  assert (Hclean : Forall (fun c => is_space c = false) (c :: l)).
  { rewrite Forall_forall. intros x Hx.
    rewrite Forall_forall in Hdig. now apply digit_char_facts, Hdig. }
  assert (Hnocomma : Forall (fun c => Ascii.eqb c "," = false) (c :: l)).
  { rewrite Forall_forall. intros x Hx.
    rewrite Forall_forall in Hdig. now apply digit_char_facts, Hdig. }
  assert (Hpart : digit_part 0 0 (c :: l)
                  = Some (uint_acc u 0, Z.of_nat (String.length digits), [])).
  { rewrite <- Hrun. unfold digit_part. cbn [digit_run].
    destruct Hc as [dv Hdv]. now rewrite Hdv. }
  assert (Hsign : read_sign (list_ascii_of_string text) = (neg, c :: l)).
  { unfold text. destruct neg; cbn [list_ascii_of_string read_sign].
    - now rewrite Hl.
    - rewrite Hl. cbn [read_sign]. now rewrite Hmi, Hpl. }
  assert (Hplain : Forall (fun c => (code c <? 127) = true) (c :: l)).
  { rewrite Forall_forall. intros x Hx.
    rewrite Forall_forall in Hdig. now apply digit_char_plain, Hdig. }
  assert (Hstrip : strip (ascii_text text) = list_ascii_of_string text).
  { unfold ascii_text. rewrite ascii_form_plain.
    - apply strip_clean. unfold text.
      destruct neg; cbn [list_ascii_of_string]; rewrite Hl;
        [constructor; [reflexivity|]|]; exact Hclean.
    - unfold text.
      destruct neg; cbn [list_ascii_of_string]; rewrite Hl;
        [constructor; [reflexivity|]|]; exact Hplain. }
  split; [|split].
  - apply strip_commas_clean. unfold text.
    destruct neg; cbn [list_ascii_of_string]; rewrite Hl;
      [constructor; [reflexivity|]|]; exact Hnocomma.
  - unfold float_of_string. rewrite Hstrip, Hsign.
    cbn [List.map string_of_list_ascii String.eqb]. rewrite Hi, Hn.
    cbn [orb]. unfold read_numeral. now rewrite Hpart.
  - unfold int_of_string. rewrite Hstrip, Hsign, Hpart. reflexivity.
Qed.

Lemma str_of_int_read (n : Z) :
  strip_commas (str_of_int n) = str_of_int n /\
  float_of_string (str_of_int n) = Some (binary_normalize prec emax n 0 false) /\
  (Z.of_nat (String.length (str_of_int n)) <= 4300 ->
   int_of_string (str_of_int n) = Some n).
Proof.
  destruct n as [|p|p].
  - repeat split; vm_compute; reflexivity.
  - pose proof (digits_text_read false (Pos.to_uint p)
                  (Unsigned.to_uint_nonnil p)) as H. cbv zeta in H.
    unfold str_of_int. cbn [Z.to_int NilZero.string_of_int].
    assert (Hs : NilZero.string_of_uint (Pos.to_uint p)
                 = NilEmpty.string_of_uint (Pos.to_uint p)).
    { pose proof (Unsigned.to_uint_nonnil p) as Hn.
      destruct (Pos.to_uint p); [now elim Hn|reflexivity..]. }
    rewrite Hs. rewrite uint_acc_to_uint in H.
    destruct H as (H1 & H2 & H3). split; [exact H1|]. split.
    + rewrite H2. cbn [round_decimal Z.leb Z.compare cond_Zopp].
      now rewrite Z.pow_0_r, Z.mul_1_r.
    + intros Hlen. rewrite H3.
      now replace (_ <=? 4300) with true by (symmetry; now apply Z.leb_le).
  - pose proof (digits_text_read true (Pos.to_uint p)
                  (Unsigned.to_uint_nonnil p)) as H. cbv zeta in H.
    unfold str_of_int. cbn [Z.to_int NilZero.string_of_int].
    assert (Hs : NilZero.string_of_uint (Pos.to_uint p)
                 = NilEmpty.string_of_uint (Pos.to_uint p)).
    { pose proof (Unsigned.to_uint_nonnil p) as Hn.
      destruct (Pos.to_uint p); [now elim Hn|reflexivity..]. }
    rewrite Hs. rewrite uint_acc_to_uint in H.
    destruct H as (H1 & H2 & H3). split; [exact H1|]. split.
    + rewrite H2. cbn [round_decimal Z.leb Z.compare cond_Zopp].
      rewrite Z.pow_0_r, Z.mul_1_r. reflexivity.
    + intros Hlen. rewrite H3.
      replace (_ <=? 4300) with true; [reflexivity|].
      symmetry. apply Z.leb_le. cbn [String.length] in Hlen. lia.
Qed.

(** *** Numbers that arrive as numbers or as texts *)

Lemma iter_xO_value k m : Z.pos (Pos.iter xO m k) = Z.pos m * 2 ^ Z.pos k.
Proof.
  rewrite (Pos.iter_swap_gen _ _ Z.pos xO (Z.mul 2)) by reflexivity.
  revert m. induction k using Pos.peano_ind; intros m.
  - cbn. lia.
  - rewrite Pos.iter_succ, IHk, Pos2Z.inj_succ, Z.pow_succ_r by lia. lia.
Qed.

Lemma iter_xO_digits k m :
  digits2_pos (Pos.iter xO m k) = (digits2_pos m + k)%positive.
Proof.
  rewrite (Pos.iter_swap_gen _ _ digits2_pos xO Pos.succ) by reflexivity.
  induction k using Pos.peano_ind.
  - cbn. lia.
  - rewrite Pos.iter_succ, IHk. lia.
Qed.

(** A mantissa of 53 bits with an exponent in range is kept as it is. *)
Lemma binary_round_aux_canonical s mz ez :
  Z.pos (digits2_pos mz) = 53 -> -1074 <= ez <= 971 ->
  binary_round_aux prec emax s (Z.pos mz) ez loc_Exact = S754_finite s mz ez.
Proof.
  intros Hd He.
  assert (Hshr : shr_fexp prec emax (Z.pos mz) ez loc_Exact
                 = (Build_shr_record (Z.pos mz) false false, ez)).
  { unfold shr_fexp. cbn [Zdigits2 shr_record_of_loc]. rewrite Hd.
    replace (fexp prec emax (53 + ez) - ez) with 0
      by (unfold fexp, emin, prec, emax; lia).
    reflexivity. }
  unfold binary_round_aux. rewrite Hshr.
  cbn [shr_m loc_of_shr_record round_nearest_even]. rewrite Hshr.
  cbn [shr_m].
  replace (ez <=? emax - prec) with true; [reflexivity|].
  symmetry. apply Z.leb_le. unfold emax, prec. lia.
Qed.

(** Below [2^53] in magnitude, the float of an integer is that integer. *)
Lemma binary_normalize_exact (n : Z) :
  Z.abs n < 2 ^ 53 ->
  float_eq_int (binary_normalize prec emax n 0 false) n = true.
Proof.
  intros Hn. destruct n as [|m|m]; [reflexivity|..].
  all: cbn [binary_normalize]; unfold binary_round.
  all: pose proof (digits2_pos_bounds m) as [Hlo Hhi].
  all: assert (Hd : Z.pos (digits2_pos m) <= 53).
  1,3: destruct (Z.le_gt_cases (Z.pos (digits2_pos m)) 53) as [H|H]; [exact H|];
       exfalso; assert (2 ^ 53 <= 2 ^ (Z.pos (digits2_pos m) - 1))
         by (apply Z.pow_le_mono_r; lia); cbn [Z.abs] in Hn; lia.
  all: assert (Hfexp : fexp prec emax (Z.pos (digits2_pos m) + 0)
                       = Z.pos (digits2_pos m) - 53)
         by (unfold fexp, emin, prec, emax; lia).
  all: rewrite Hfexp; unfold shl_align; rewrite Z.sub_0_r.
  all: destruct (Z.pos (digits2_pos m) - 53) as [|k|k] eqn:Hk; try lia.
  all: rewrite binary_round_aux_canonical
         by (rewrite ?iter_xO_digits, ?Pos2Z.inj_add; lia).
  all: cbn [float_eq_int Z.leb Z.compare cond_Zopp].
  1,3: rewrite Z.pow_0_r, Z.mul_1_r; apply Z.eqb_eq; reflexivity.
  all: cbn [Z.opp]; rewrite iter_xO_value.
  all: rewrite Z.mod_mul, Z.div_mul by (apply Z.pow_nonzero; lia).
  all: apply andb_true_iff; split; apply Z.eqb_eq; reflexivity.
Qed.

(** X18. A [priceUsd] that arrives as an integer [n] instead of a text
    is priced as the float of [n]: its decimal text has no comma and is
    read back by [float] as [n] rounded to binary64; 0 gives 0.0, and
    below [2^53] in magnitude the price is [n] exactly. *)
Theorem integer_price_is_read_as_that_number
  (pd : list (string * pyval)) (n : Z) :
  assoc "priceUsd" pd = Some (PInt n) ->
  pair_price (PDict pd) = Ok (binary_normalize prec emax n 0 false) /\
  (Z.abs n < 2 ^ 53 ->
   exists f, pair_price (PDict pd) = Ok f /\ float_eq_int f n = true).
Proof.
  intros H.
  assert (Hp : pair_price (PDict pd)
               = Ok (binary_normalize prec emax n 0 false)).
  { unfold pair_price. cbn [py_get]. rewrite H. unfold py_or.
    cbn [py_truthy]. destruct (Z.eqb_spec n 0) as [->|Hn]; cbn [negb].
    - vm_compute. reflexivity.
    - cbn [float_of_text_of].
      destruct (str_of_int_read n) as (H1 & H2 & _). now rewrite H1, H2. }
  split; [exact Hp|]. intros Hn. eexists. split; [exact Hp|].
  now apply binary_normalize_exact.
Qed.

Section OneInchProperties.

Context (cfg : Settings) (w : World).
Variable aggregator_json : string -> string -> pyval -> res pyval.
Variable find_ : option string -> M (option Token).

(** X19. [one_inch_price_in_stables], once the reference asset is found
    with a natural number [dd] of decimals and the aggregator has
    answered with an object: without a [toTokenAmount] the quote is
    [0.0]; an amount given as an integer [n], or as a text that [int]
    reads as [n], gives the float nearest to [n / 10 ** dd] (within
    half a unit in the last place of the exact quotient), or
    [OverflowError] when that is beyond the floats; an amount text that
    [int] does not read raises [ValueError] and a null amount
    [TypeError]; the state is the one the lookup left. *)
Theorem one_inch_quote
  (self sc : Token) (st st1 : state) (amount_in : pyval) (dd : Z)
  (d : list (string * pyval)) :
  address self <> STABLE_TOKEN_ADDRESS cfg ->
  find_ (Some (STABLE_TOKEN_ADDRESS cfg)) st = (Ok (Some sc), st1) ->
  pow10 w (decimals self) = Ok amount_in ->
  aggregator_json (address self) (address sc) amount_in = Ok (PDict d) ->
  decimals sc = PInt dd ->
  0 <= dd ->
  let quote := one_inch_price_in_stables cfg w aggregator_json find_ self st in
  let divided n :=
    (match int_truediv n (10 ^ dd) with
     | Ok f => Ok (PFloat f)
     | Raise e => Raise e
     end, st1) in
  (assoc "toTokenAmount" d = None -> quote = (Ok (PFloat f_zero), st1)) /\
  (forall n, assoc "toTokenAmount" d = Some (PInt n) -> quote = divided n) /\
  (forall s n, assoc "toTokenAmount" d = Some (PStr s) ->
     int_of_string s = Some n -> quote = divided n) /\
  (forall s, assoc "toTokenAmount" d = Some (PStr s) ->
     int_of_string s = None -> quote = (Raise ValueError, st1)) /\
  (assoc "toTokenAmount" d = Some PNone -> quote = (Raise TypeError, st1)) /\
  (forall n f, int_truediv n (10 ^ dd) = Ok f ->
     nearest_quotient f n (10 ^ dd) = true) /\
  (forall n e, int_truediv n (10 ^ dd) = Raise e -> e = OverflowError).
Proof.
  intros Hne Hf Hp Hagg Hd Hd0 quote divided.
  assert (Hpos : 0 < 10 ^ dd) by (apply Z.pow_pos_nonneg; lia).
  assert (Hq : pow10 w (decimals sc) = Ok (PInt (10 ^ dd))).
  { rewrite Hd. cbn [pow10].
    replace (0 <=? dd) with true by (symmetry; now apply Z.leb_le).
    reflexivity. }
  assert (Heq : quote = (one_inch_answer w (PDict d) sc, st1)).
  { unfold quote, one_inch_price_in_stables.
    rewrite (is_stable_address_false cfg _ Hne), (bind_ok _ _ _ _ _ Hf).
    unfold bind, lift. now rewrite Hp, Hagg. }
  rewrite Heq. unfold one_inch_answer, divided. cbn [py_get].
  repeat split.
  - intros ->. cbn [py_int]. rewrite Hq. cbn [truediv]. unfold int_truediv.
    destruct (Z.eqb_spec (10 ^ dd) 0) as [E|_]; [lia|]. cbn [Z.eqb].
    replace (10 ^ dd <? 0) with false by (symmetry; apply Z.ltb_ge; lia).
    reflexivity.
  - intros n ->. cbn [py_int]. now rewrite Hq.
  - intros s n -> Hs. cbn [py_int]. now rewrite Hs, Hq.
  - intros s -> Hs. cbn [py_int]. now rewrite Hs.
  - now intros ->.
  - intros n f. now apply int_truediv_rounds.
  - intros n e. unfold int_truediv.
    destruct (Z.eqb_spec (10 ^ dd) 0) as [E|_]; [lia|].
    destruct (n =? 0); [discriminate|].
    destruct (SFdiv prec emax _ _); try discriminate.
    now intros [= <-].
Qed.

End OneInchProperties.

(** *** The router pass *)

Lemma binary_round_aux_is_a_number s mx ex lx :
  0 <= mx -> binary_round_aux prec emax s mx ex lx <> S754_nan.
Proof.
  intros H. unfold binary_round_aux.
  pose proof (shr_fexp_nonneg mx ex lx H) as H1.
  destruct (shr_fexp prec emax mx ex lx) as [mrs' e']. cbn [fst] in H1.
  pose proof (shr_fexp_nonneg _ e' loc_Exact
                (round_nearest_even_nonneg _ (loc_of_shr_record mrs') H1)) as H2.
  destruct (shr_fexp prec emax (round_nearest_even _ _) e' loc_Exact)
    as [mrs'' e'']. cbn [fst] in H2.
  destruct (shr_m mrs'') as [|m|m]; [discriminate| |lia].
  destruct (e'' <=? emax - prec); discriminate.
Qed.

Lemma SFdiv_exact_is_a_number sa pa sb pb :
  SFdiv prec emax (S754_finite sa pa 0) (S754_finite sb pb 0) <> S754_nan.
Proof.
  cbn [SFdiv]. unfold SFdiv_core_binary.
  set (m' := match _ - _ with Z.pos _ => _ | Z0 => _ | Z.neg _ => _ end).
  assert (Hm : 0 <= m').
  { subst m'. destruct (_ - _); try lia. now apply Z.shiftl_nonneg. }
  pose proof (Z.div_pos m' (Z.pos pb) Hm ltac:(lia)) as Hdiv.
  unfold Z.div in Hdiv.
  destruct (Z.div_eucl m' (Z.pos pb)) as [q r].
  now apply binary_round_aux_is_a_number.
Qed.

(** [a / b] on two ints gives a number or raises. *)
Lemma int_truediv_finite a b f :
  int_truediv a b = Ok f -> is_finite_float f = true.
Proof.
  unfold int_truediv.
  destruct (Z.eqb_spec b 0) as [->|Hb]; [discriminate|].
  destruct (Z.eqb_spec a 0) as [->|Ha]; [now intros [= <-]|].
  destruct a as [|pa|pa]; [lia|..]; (destruct b as [|pb|pb]; [lia|..]).
  all: cbn [exact_of_Z].
  all: match goal with
       | |- context [SFdiv prec emax ?x ?y] =>
           pose proof (SFdiv_exact_is_a_number _ _ _ _ : SFdiv prec emax x y <> _)
             as Hn;
           destruct (SFdiv prec emax x y)
       end.
  all: try discriminate; try (now intros [= <-]); now destruct Hn.
Qed.

Section RouterProperties.

Context (cfg : Settings) (w : World).

(** X20. The router pass never yields an infinity or a NaN.  When the
    reference asset's decimals are a natural number, a price that
    [chain_price_in_stables] returns is the peg 1.0, the integer 0 of a
    reverted call, or the quotient of two integers, which Python gives
    as a finite float or not at all (an amount too large for a float
    raises [OverflowError]); this holds for every amount the router
    returns, negative ones included. *)
Theorem router_price_is_a_finite_number
  (fuel : nat) (self sc : Token) (st st1 st' : state) (p : pyval) (d : Z) :
  find cfg w fuel (Some (STABLE_TOKEN_ADDRESS cfg)) st = (Ok (Some sc), st1) ->
  decimals sc = PInt d -> 0 <= d ->
  chain_price_in_stables cfg w (find cfg w fuel) self st = (Ok p, st') ->
  p = PInt 0 \/ exists f, p = PFloat f /\ is_finite_float f = true.
Proof.
  intros Hf Hd Hd0. rewrite chain_price_unfold.
  destruct (is_stable_address cfg (address self)).
  { intros [= <- _]. right. now exists f_one. }
  rewrite Hf. unfold router_quote, bind, try_except, lift, ret.
  rewrite Hd. cbn [pow10].
  replace (0 <=? d) with true by (symmetry; now apply Z.leb_le).
  destruct (pow10 w (decimals self)) as [a|e].
  - rewrite call_eq.
    destruct (router_getAmountOut w _ a _ _) as [[amount b]|e].
    + cbn [truediv].
      destruct (int_truediv amount (10 ^ d)) as [f|e] eqn:Hdiv; [|discriminate].
      intros [= <- _]. right. exists f. split; [reflexivity|].
      exact (int_truediv_finite _ _ _ Hdiv).
    + destruct (is_revert e); [|discriminate]. intros [= <- _]. now left.
  - destruct (is_revert e); [|discriminate]. intros [= <- _]. now left.
Qed.

(** X21. The handler of the router pass covers the router call only.
    When the reference asset has no record and reading its identity
    from the chain fails, the fault leaves the price resolution of any
    other token that needs the router pass, whatever it is, a contract
    revert included: the token's price is not written and the store is
    the one the first two passes left. *)
Theorem reference_lookup_fault_is_not_absorbed
  (fuel : nat) (self : Token) (st st1 : state) (p : pyval) (e : exn) :
  address self <> STABLE_TOKEN_ADDRESS cfg ->
  aggregated_price_in_stables cfg w self st = (Ok p, st1) ->
  py_eq_int p 0 = true ->
  store st1 !! lower (STABLE_TOKEN_ADDRESS cfg) = None ->
  chain_identity w (lower (STABLE_TOKEN_ADDRESS cfg)) = Raise e ->
  _update_price cfg w (find cfg w (S fuel)) self st
    = (Raise e,
       logged (IdentityMulticall (lower (STABLE_TOKEN_ADDRESS cfg))) st1).
Proof.
  intros Hne Ha Hz Hs Hid.
  rewrite (update_price_eq cfg w _ _ _ _ _ Ha), Hz, chain_price_unfold.
  cbn [set_price address]. rewrite (is_stable_address_false cfg _ Hne).
  rewrite (find_miss cfg w _ _ _ Hs), from_chain_unfold.
  rewrite lower_idem, Hid. reflexivity.
Qed.

End RouterProperties.

(** ** The further properties on the sample services *)

Lemma st_known_keyed a : keyed_by_address (st_known a).
Proof.
  intros k t. unfold st_known. cbn [store]. rewrite lookup_insert.
  destruct (decide (a = k)) as [->|Hne]; [now intros [= <-]|].
  rewrite lookup_singleton.
  destruct (decide ("0xst" = k)) as [<-|Hne']; [now intros [= <-]|discriminate].
Qed.

Lemma find_is_blind_to_the_case_of_the_address :
  keyed_by_address (st_known "0xcc") /\
  find cfg_ex w_market 2 (Some "0xCC") (st_known "0xcc")
    = (Ok (Some (tok "0xcc")), st_known "0xcc") /\
  lower "0XCc" = lower "0xCC" /\
  find cfg_ex w_market 2 (Some "0XCc") (st_known "0xcc")
    = (Ok (Some (tok "0xcc")), st_known "0xcc").
Proof.
  assert (Hf : find cfg_ex w_market 2 (Some "0xCC") (st_known "0xcc")
               = (Ok (Some (tok "0xcc")), st_known "0xcc"))
    by (vm_compute; reflexivity).
  split; [apply st_known_keyed|]. split; [exact Hf|].
  split; [reflexivity|].
  now apply (find_returns_the_lowercase_record cfg_ex w_market 2 "0xCC" "0XCc"
               (tok "0xcc") _ _ (st_known_keyed "0xcc") Hf).
Defined.

Lemma screener_fault_leaves_the_stored_price :
  let st' := logged (ScreenerGet "0xcc") (st_known "0xcc") in
  pass_fault cfg_ex w_screener_fault (find cfg_ex w_screener_fault 2)
    (tok "0xcc") (st_known "0xcc") JSONDecodeError st' /\
  _update_price cfg_ex w_screener_fault (find cfg_ex w_screener_fault 2)
    (tok "0xcc") (st_known "0xcc") = (Raise JSONDecodeError, st') /\
  store (st_known "0xcc") !! "0xcc" = Some (tok "0xcc") /\
  store st' !! "0xcc" = Some (tok "0xcc").
Proof.
  intros st'.
  assert (Hp : pass_fault cfg_ex w_screener_fault
                 (find cfg_ex w_screener_fault 2) (tok "0xcc")
                 (st_known "0xcc") JSONDecodeError st')
    by (left; vm_compute; reflexivity).
  assert (Hs : store (st_known "0xcc") !! "0xcc" = Some (tok "0xcc"))
    by (vm_compute; reflexivity).
  destruct (failed_resolution_writes_no_price cfg_ex w_screener_fault 2
              (tok "0xcc") (st_known "0xcc") st' JSONDecodeError Hp)
    as (Hu & Hkeep & _).
  split; [exact Hp|]. split; [exact Hu|]. split; [exact Hs|].
  exact (Hkeep "0xcc" (tok "0xcc") Hs).
Defined.

Lemma screener_fault_leaves_an_unpriced_record :
  let fresh := tok "0xaa" in
  let st0 := saved fresh (logged (IdentityMulticall "0xaa") st_empty) in
  let st1 := logged (ScreenerGet "0xaa") st0 in
  store st_empty !! lower "0xAA" = None /\
  chain_identity w_screener_fault (lower "0xAA") = Ok ("Token", "TOK", 18) /\
  pass_fault cfg_ex w_screener_fault (find cfg_ex w_screener_fault 1) fresh
    st0 JSONDecodeError st1 /\
  find cfg_ex w_screener_fault 2 (Some "0xAA") st_empty
    = (Raise JSONDecodeError, st1) /\
  store st1 !! lower "0xAA" = Some fresh /\
  find cfg_ex w_screener_fault 0 (Some "0xAA") st1 = (Ok (Some fresh), st1).
Proof.
  intros fresh st0 st1.
  assert (Hl : store st_empty !! lower "0xAA" = None) by reflexivity.
  assert (Hid : chain_identity w_screener_fault (lower "0xAA")
                = Ok ("Token", "TOK", 18)) by reflexivity.
  assert (Hp : pass_fault cfg_ex w_screener_fault
                 (find cfg_ex w_screener_fault 1) fresh st0
                 JSONDecodeError st1)
    by (left; vm_compute; reflexivity).
  split; [exact Hl|]. split; [exact Hid|]. split; [exact Hp|].
  destruct (find_failure_modes cfg_ex w_screener_fault 1 0 "0xAA" st_empty Hl)
    as [_ H].
  exact (H _ _ _ JSONDecodeError st1 Hid Hp).
Defined.

Lemma null_coins_raise_attribute_error :
  address (tok "0xee") <> STABLE_TOKEN_ADDRESS cfg_ex /\
  oracle_json w_null_coins ("kava:" ++ lower (address (tok "0xee")))
    = Ok (PDict [("coins", PNone)]) /\
  _update_price cfg_ex w_null_coins (find cfg_ex w_null_coins 2)
                (tok "0xee") st_empty
    = (Raise AttributeError,
       logged (OracleGet "kava:0xee") (logged (ScreenerGet "0xee") st_empty)).
Proof.
  assert (Hne : address (tok "0xee") <> STABLE_TOKEN_ADDRESS cfg_ex)
    by (intros H; discriminate H).
  split; [exact Hne|]. split; [reflexivity|].
  apply (malformed_oracle_answer_escapes cfg_ex w_null_coins 2 (tok "0xee")
           st_empty no_pairs (PInt 0) [("coins", PNone)] Hne);
    try reflexivity.
  left. exists PNone. split; reflexivity.
Defined.

Lemma comma_price_raises_value_error :
  address (tok "0xaa") <> STABLE_TOKEN_ADDRESS cfg_ex /\
  float_of_string (strip_commas ",,") = None /\
  _update_price cfg_ex w_comma_price (find cfg_ex w_comma_price 2)
                (tok "0xaa") st_empty
    = (Raise ValueError, logged (ScreenerGet "0xaa") st_empty).
Proof.
  assert (Hne : address (tok "0xaa") <> STABLE_TOKEN_ADDRESS cfg_ex)
    by (intros H; discriminate H).
  split; [exact Hne|]. split; [reflexivity|].
  apply (unparsable_price_text_escapes cfg_ex w_comma_price 2 (tok "0xaa")
           st_empty [("pairs", PList [one_pair "kava" ",,"])]
           [("chainId", PStr "kava"); ("priceUsd", PStr ",,")]
           [one_pair "kava" ",,"] ",," Hne);
    try reflexivity.
  intros H. discriminate H.
Defined.

Lemma text_for_pairs_raises_type_error :
  assoc "pairs" [("pairs", PStr "none")] = Some (PStr "none") /\
  py_truthy (PStr "none") = true /\ is_list (PStr "none") = false /\
  screener_price (PDict [("pairs", PStr "none")]) = Raise TypeError.
Proof.
  split; [reflexivity|]. split; [reflexivity|]. split; [reflexivity|].
  exact (proj2 (pairs_must_be_a_list [("pairs", PStr "none")] (PStr "none")
                  eq_refl) eq_refl eq_refl).
Defined.

Lemma unset_decimals_raise_type_error :
  let self := tok_without_decimals "0xee" in
  let st1 := logged (OracleGet "kava:0xee")
                    (logged (ScreenerGet "0xee") (st_known "0xee")) in
  address self <> STABLE_TOKEN_ADDRESS cfg_ex /\
  aggregated_price_in_stables cfg_ex w_market self (st_known "0xee")
    = (Ok (PInt 0), st1) /\
  not_a_number (decimals self) = true /\
  find cfg_ex w_market 2 (Some (STABLE_TOKEN_ADDRESS cfg_ex)) st1
    = (Ok (Some usdc), st1) /\
  _update_price cfg_ex w_market (find cfg_ex w_market 2) self (st_known "0xee")
    = (Raise TypeError, st1).
Proof.
  intros self st1.
  assert (Hne : address self <> STABLE_TOKEN_ADDRESS cfg_ex)
    by (intros H; discriminate H).
  assert (Ha : aggregated_price_in_stables cfg_ex w_market self (st_known "0xee")
               = (Ok (PInt 0), st1)) by (vm_compute; reflexivity).
  assert (Hf : find cfg_ex w_market 2 (Some (STABLE_TOKEN_ADDRESS cfg_ex)) st1
               = (Ok (Some usdc), st1)) by (vm_compute; reflexivity).
  split; [exact Hne|]. split; [exact Ha|]. split; [reflexivity|].
  split; [exact Hf|].
  exact (router_pass_needs_numeric_decimals cfg_ex w_market 2 self usdc
           (st_known "0xee") st1 st1 (PInt 0) Hne Ha eq_refl eq_refl Hf).
Defined.

Lemma capital_letters_switch_the_peg_off :
  lower (STABLE_TOKEN_ADDRESS cfg_upper) <> STABLE_TOKEN_ADDRESS cfg_upper /\
  keyed_by_address (st_known "0xcc") /\
  find cfg_upper w_market 2 (Some "0xST") (st_known "0xcc")
    = (Ok (Some usdc), st_known "0xcc") /\
  is_stable_address cfg_upper (address usdc) = false /\
  dexscreener_price_in_stables cfg_upper w_market usdc st_empty
    = (Ok (PInt 0), logged (ScreenerGet "0xst") st_empty).
Proof.
  assert (Hc : lower (STABLE_TOKEN_ADDRESS cfg_upper)
               <> STABLE_TOKEN_ADDRESS cfg_upper)
    by (intros H; discriminate H).
  assert (Hf : find cfg_upper w_market 2 (Some "0xST") (st_known "0xcc")
               = (Ok (Some usdc), st_known "0xcc")) by (vm_compute; reflexivity).
  split; [exact Hc|]. split; [apply st_known_keyed|]. split; [exact Hf|].
  exact (peg_needs_a_lowercase_setting cfg_upper w_market 2 "0xST" usdc
           (st_known "0xcc") (st_known "0xcc") st_empty Hc
           (st_known_keyed "0xcc") Hf).
Defined.

Lemma ingestion_stops_when_the_chain_is_down :
  eth_chain_id w_down = Raise ChainCallError /\
  from_tokenlists cfg_ex w_down 2 st_empty
    = (Raise ChainCallError, logged ChainIdRead st_empty).
Proof.
  split; [reflexivity|].
  exact (proj1 (ingestion_raises_iff_chain_id_fails cfg_ex w_down 2 st_empty)
               ChainCallError eq_refl).
Defined.

Lemma foreign_entry_is_only_logged :
  on_chain fields_foreign 2222 = false /\
  is_Some (assoc "symbol" fields_foreign) /\
  ingest_entry cfg_ex w_feeds 2 2222 (PDict fields_foreign) st_empty
    = (Ok tt, logged LogDebug st_empty).
Proof.
  assert (Hs : is_Some (assoc "symbol" fields_foreign))
    by (eexists; reflexivity).
  split; [reflexivity|]. split; [exact Hs|].
  exact (proj1 (foreign_chain_entry_is_skipped cfg_ex w_feeds 2 2222
                  fields_foreign st_empty eq_refl) Hs).
Defined.

Lemma addressless_entry_is_rejected :
  on_chain (entry_items entry_broken) 2222 = true /\
  assoc "address" (entry_items entry_broken) = None /\
  ingest_entry cfg_ex w_feeds 2 2222 (PDict (entry_items entry_broken)) st_empty
    = (Raise KeyError, st_empty).
Proof.
  split; [reflexivity|]. split; [reflexivity|].
  exact (proj1 (entry_rejected_before_any_write cfg_ex w_feeds 2 2222
                  (entry_items entry_broken) st_empty eq_refl) eq_refl).
Defined.

Lemma sample_address_is_not_ignored :
  ~ ("0xbb" ∈ IGNORED_TOKEN_ADDRESSES cfg_ex).
Proof. apply (bool_decide_eq_false_1 _). vm_compute. reflexivity. Qed.

Lemma tagless_entry_leaves_a_record :
  let token := token_of_entry "0xbb"
                 (entry_data fields_without_tags "0xBB" (PStr "")) in
  on_chain fields_without_tags 2222 = true /\
  typed_entry fields_without_tags = true /\
  assoc "address" fields_without_tags = Some (PStr "0xBB") /\
  assoc "tags" fields_without_tags = None /\
  ingest_entry cfg_ex w_feeds 2 2222 (PDict fields_without_tags) st_empty
    = (Raise KeyError, saved token st_empty) /\
  price token = PInt 0 /\
  find cfg_ex w_feeds 0 (Some "0xBB") (saved token st_empty)
    = (Ok (Some token), saved token st_empty).
Proof.
  intros token.
  assert (Hne : "0xBB" <> "") by discriminate.
  destruct (entry_without_tags_leaves_unpriced_record cfg_ex w_feeds 2 0 2222
              fields_without_tags "0xBB" "" st_empty eq_refl eq_refl eq_refl
              Hne sample_address_is_not_ignored eq_refl)
    as ((H1 & _) & H2 & _ & H4).
  split; [reflexivity|]. split; [reflexivity|]. split; [reflexivity|].
  split; [reflexivity|].
  split; [exact (H1 eq_refl)|]. split; [exact H2|exact H4].
Defined.

Lemma ingested_sample_entry :
  let d := entry_items (entry "0xBB") in
  let token := token_of_entry "0xbb" (entry_data d "0xBB" (PStr "")) in
  let r := _update_price cfg_ex w_feeds (find cfg_ex w_feeds 2)
             (set_stable token (PInt 0)) (saved token st_empty) in
  on_chain d 2222 = true /\
  typed_entry d = true /\
  r = (Ok (set_price (set_stable token (PInt 0)) (PInt 0)), snd r) /\
  ingest_entry cfg_ex w_feeds 2 2222 (PDict d) st_empty
    = (Ok tt, logged LogDebug (snd r)) /\
  store (snd r) !! "0xbb"
    = Some (set_price (set_stable token (PInt 0)) (PInt 0)).
Proof.
  intros d token r.
  assert (Hr : r = (Ok (set_price (set_stable token (PInt 0)) (PInt 0)), snd r))
    by (vm_compute; reflexivity).
  assert (Hne : "0xBB" <> "") by discriminate.
  split; [reflexivity|]. split; [reflexivity|]. split; [exact Hr|].
  destruct (ingested_entry_record cfg_ex w_feeds 2 2222 d "0xBB" ""
              "token" [] st_empty (snd r)
              (set_price (set_stable token (PInt 0)) (PInt 0))
              eq_refl eq_refl eq_refl Hne sample_address_is_not_ignored
              eq_refl eq_refl Hr eq_refl) as (H1 & H2 & _).
  split; [exact H1|exact H2].
Defined.

Lemma integer_three_is_priced_as_three :
  assoc "priceUsd" [("priceUsd", PInt 3)] = Some (PInt 3) /\
  Z.abs 3 < 2 ^ 53 /\
  pair_price (PDict [("priceUsd", PInt 3)]) = Ok f_three /\
  exists f, pair_price (PDict [("priceUsd", PInt 3)]) = Ok f /\
            float_eq_int f 3 = true.
Proof.
  assert (Hn : Z.abs 3 < 2 ^ 53) by reflexivity.
  destruct (integer_price_is_read_as_that_number [("priceUsd", PInt 3)] 3
              eq_refl) as [H1 H2].
  split; [reflexivity|]. split; [exact Hn|]. split; [exact H1|exact (H2 Hn)].
Defined.

Lemma aggregator_quote_of_the_sample :
  address (tok "0xcc") <> STABLE_TOKEN_ADDRESS cfg_ex /\
  find cfg_ex w_market 2 (Some (STABLE_TOKEN_ADDRESS cfg_ex)) (st_known "0xcc")
    = (Ok (Some usdc), st_known "0xcc") /\
  decimals usdc = PInt 6 /\
  int_of_string "2500000" = Some 2500000 /\
  one_inch_price_in_stables cfg_ex w_market aggregator_sample
    (find cfg_ex w_market 2) (tok "0xcc") (st_known "0xcc")
    = (Ok (PFloat f_two_and_half), st_known "0xcc") /\
  nearest_quotient f_two_and_half 2500000 (10 ^ 6) = true.
Proof.
  assert (Hne : address (tok "0xcc") <> STABLE_TOKEN_ADDRESS cfg_ex)
    by (intros H; discriminate H).
  assert (Hf : find cfg_ex w_market 2 (Some (STABLE_TOKEN_ADDRESS cfg_ex))
                 (st_known "0xcc") = (Ok (Some usdc), st_known "0xcc"))
    by (vm_compute; reflexivity).
  assert (Hs : int_of_string "2500000" = Some 2500000)
    by (vm_compute; reflexivity).
  assert (Hz : 0 <= 6) by discriminate.
  split; [exact Hne|]. split; [exact Hf|]. split; [reflexivity|].
  split; [exact Hs|].
  destruct (one_inch_quote cfg_ex w_market aggregator_sample
              (find cfg_ex w_market 2) (tok "0xcc") usdc (st_known "0xcc")
              (st_known "0xcc") (PInt (10 ^ 18)) 6
              [("toTokenAmount", PStr "2500000")] Hne Hf eq_refl eq_refl
              eq_refl Hz) as (_ & _ & H & _ & _ & Hn & _).
  split.
  - rewrite (H "2500000" 2500000 eq_refl Hs). vm_compute. reflexivity.
  - apply Hn. vm_compute. reflexivity.
Defined.

Lemma router_quote_of_the_sample_is_finite :
  find cfg_ex w_market 2 (Some (STABLE_TOKEN_ADDRESS cfg_ex)) (st_known "0xcc")
    = (Ok (Some usdc), st_known "0xcc") /\
  decimals usdc = PInt 6 /\ 0 <= 6 /\
  chain_price_in_stables cfg_ex w_market (find cfg_ex w_market 2) (tok "0xcc")
    (st_known "0xcc")
    = (Ok (PFloat f_two_and_half),
       logged (RouterCall (PInt (10 ^ 18)) "0xcc" "0xst") (st_known "0xcc")) /\
  (PFloat f_two_and_half = PInt 0 \/
   exists f, PFloat f_two_and_half = PFloat f /\ is_finite_float f = true).
Proof.
  assert (Hf : find cfg_ex w_market 2 (Some (STABLE_TOKEN_ADDRESS cfg_ex))
                 (st_known "0xcc") = (Ok (Some usdc), st_known "0xcc"))
    by (vm_compute; reflexivity).
  assert (Hd : 0 <= 6) by discriminate.
  assert (Hc : chain_price_in_stables cfg_ex w_market (find cfg_ex w_market 2)
                 (tok "0xcc") (st_known "0xcc")
               = (Ok (PFloat f_two_and_half),
                  logged (RouterCall (PInt (10 ^ 18)) "0xcc" "0xst")
                         (st_known "0xcc")))
    by (vm_compute; reflexivity).
  split; [exact Hf|]. split; [reflexivity|]. split; [exact Hd|].
  split; [exact Hc|].
  exact (router_price_is_a_finite_number cfg_ex w_market 2 (tok "0xcc") usdc
           (st_known "0xcc") (st_known "0xcc") _ (PFloat f_two_and_half) 6
           Hf eq_refl Hd Hc).
Defined.

Lemma identity_revert_of_the_reference_escapes :
  let st1 := logged (OracleGet "kava:0xcc")
                    (logged (ScreenerGet "0xcc") st_empty) in
  address (tok "0xcc") <> STABLE_TOKEN_ADDRESS cfg_ex /\
  aggregated_price_in_stables cfg_ex w_identity_reverts (tok "0xcc") st_empty
    = (Ok (PInt 0), st1) /\
  store st1 !! lower (STABLE_TOKEN_ADDRESS cfg_ex) = None /\
  chain_identity w_identity_reverts (lower (STABLE_TOKEN_ADDRESS cfg_ex))
    = Raise ContractLogicError /\
  _update_price cfg_ex w_identity_reverts (find cfg_ex w_identity_reverts 1)
    (tok "0xcc") st_empty
    = (Raise ContractLogicError, logged (IdentityMulticall "0xst") st1).
Proof.
  intros st1.
  assert (Hne : address (tok "0xcc") <> STABLE_TOKEN_ADDRESS cfg_ex)
    by (intros H; discriminate H).
  assert (Ha : aggregated_price_in_stables cfg_ex w_identity_reverts
                 (tok "0xcc") st_empty = (Ok (PInt 0), st1))
    by (vm_compute; reflexivity).
  assert (Hs : store st1 !! lower (STABLE_TOKEN_ADDRESS cfg_ex) = None)
    by (vm_compute; reflexivity).
  split; [exact Hne|]. split; [exact Ha|]. split; [exact Hs|].
  split; [reflexivity|].
  exact (reference_lookup_fault_is_not_absorbed cfg_ex w_identity_reverts 0
           (tok "0xcc") st_empty st1 (PInt 0) ContractLogicError
           Hne Ha eq_refl Hs eq_refl).
Defined.
